(** * OpenClaw Production Toolkit: policy engine, identity system, audit
      logger and production-agent wrapper, embedded in Rocq.

    The JavaScript sources are embedded shallowly: every method of the four
    classes becomes a Rocq function of the same name, the mutable fields of
    the three collaborating instances (one [AuditLogger], one
    [IdentitySystem], one [PolicyEngine], as [ProductionAgent.initialize]
    wires them) become one explicit state record, and exceptions become an
    outcome type.  What Node.js supplies (SHA-256, RSA, the clock, the text
    of a JSON value, file sizes) is an interface, [Runtime]. *)

From Stdlib Require Import ZArith List String Ascii Bool Lia DecimalString.
From Stdlib Require Import SpecFloat.
From stdpp Require Import gmap strings list.
From stdpp Require Import sorting.

Set Warnings "-register-all,-clear-no-such-hyp".


Open Scope Z_scope.

(* ===================================================================== *)
(** * JavaScript values and built-ins used by the sources                 *)
(* ===================================================================== *)

Module JS.

(** ** Strings

    A JavaScript string is a sequence of UTF-16 code units.  The model keeps
    the strings whose code units are below 256, one [ascii] per code unit. *)

Definition chars (s : string) : list ascii := list_ascii_of_string s.
Definition str (l : list ascii) : string := string_of_list_ascii l.

(** [String.prototype.startsWith] and [endsWith] with one argument. *)
Definition startsWith (s p : string) : bool :=
  bool_decide (chars p `prefix_of` chars s).
Definition endsWith (s p : string) : bool :=
  bool_decide (chars p `suffix_of` chars s).

(** [String.prototype.slice(start, end)]; [end_ = None] is an omitted
    argument.  Negative positions count from the end, as in ECMAScript. *)
Definition slice (s : string) (start : Z) (end_ : option Z) : string :=
  let l := chars s in
  let len := Z.of_nat (length l) in
  let clamp i := if i <? 0 then Z.max (len + i) 0 else Z.min i len in
  let from := clamp start in
  let to := match end_ with None => len | Some e => clamp e end in
  if to <=? from then ""
  else str (take (Z.to_nat (to - from)) (drop (Z.to_nat from) l)).

(** ** Character classes of the regular expressions in the sources *)

Definition code (c : ascii) : N := N_of_ascii c.

Definition isDigit (c : ascii) : bool := ((48 <=? code c) && (code c <=? 57))%N.

(** [\w]: ASCII letters, digits and the underscore. *)
Definition isWord (c : ascii) : bool :=
  (((65 <=? code c) && (code c <=? 90)) || ((97 <=? code c) && (code c <=? 122))
   || isDigit c || (code c =? 95))%N.

(** [\s], and the white space that [parseFloat] and [ToNumber] strip: tab,
    line feed, vertical tab, form feed, carriage return, space and the
    no-break space (the members below 256). *)
Definition isSpace (c : ascii) : bool :=
  (((9 <=? code c) && (code c <=? 13)) || (code c =? 32) || (code c =? 160))%N.

(** [.] without the [s] flag: anything but a line terminator. *)
Definition isDot (c : ascii) : bool :=
  negb ((code c =? 10) || (code c =? 13))%N.

(** ** A backtracking matcher for greedy quantifiers

    [greedy cls min taken s k] matches [cls{min,}] at the head of [s]:
    it consumes as many characters of the class as it can and hands the
    matched text and the rest to the continuation [k]; when the continuation
    fails it gives characters back one at a time, down to [min].  [taken] is
    the text consumed so far, last character first. *)
Fixpoint greedy {R : Type} (cls : ascii -> bool) (min : nat)
    (taken s : list ascii) (k : list ascii -> list ascii -> option R)
    : option R :=
  let stop := if (min <=? length taken)%nat then k (rev taken) s else None in
  match s with
  | c :: s' =>
      if cls c then
        match greedy cls min (c :: taken) s' k with
        | Some r => Some r
        | None => stop
        end
      else stop
  | [] => stop
  end.

(** [s.replace(/[$,]/g, '')]. *)
Definition stripCurrency (s : string) : string :=
  str (filter (fun c => code c <> 36%N /\ code c <> 44%N) (chars s)).

(** ** Numbers

    A Number is an IEEE 754 binary64 value, [spec_float] at precision 53 and
    maximal exponent 1024. *)

Definition number : Type := spec_float.

Definition NaN : number := S754_nan.
Definition ofZ (z : Z) : number := binary_normalize 53 1024 z 0 false.

(** The Number nearest to [m * 10 ^ e10] (ties to even), negated when [neg]. *)
Definition ofDecimal (neg : bool) (m e10 : Z) : number :=
  if m <=? 0 then S754_zero neg
  else if 0 <=? e10 then binary_round 53 1024 neg (Z.to_pos (m * 10 ^ e10)) 0
  else
    let '(q, e, l) := SFdiv_core_binary 53 1024 m 0 (10 ^ (- e10)) 0 in
    binary_round_aux 53 1024 neg q e l.

Definition lt (x y : number) : bool := SFltb x y.
Definition le (x y : number) : bool := SFleb x y.
Definition numEq (x y : number) : bool := SFeqb x y.

(** ** Numeric literals in strings *)

(** [list_prefix_rest p s]: what follows [p] in [s], when [s] starts with [p]. *)
Fixpoint list_prefix_rest (p s : list ascii) : option (list ascii) :=
  match p, s with
  | [], _ => Some s
  | a :: p', b :: s' => if Ascii.eqb a b then list_prefix_rest p' s' else None
  | _ :: _, [] => None
  end.


Definition digitValue (c : ascii) : Z := Z.of_N (code c) - 48.

Definition digitsValue (ds : list ascii) : Z :=
  fold_left (fun acc c => 10 * acc + digitValue c) ds 0.

(** The longest run of characters of a class at the head of a string. *)
Fixpoint span (cls : ascii -> bool) (s : list ascii) : list ascii * list ascii :=
  match s with
  | c :: s' => if cls c then let '(a, b) := span cls s' in (c :: a, b) else ([], s)
  | [] => ([], [])
  end.

Definition isSign (c : ascii) : bool := ((code c =? 43) || (code c =? 45))%N.
Definition isMinus (c : ascii) : bool := (code c =? 45)%N.
Definition isExponentIndicator (c : ascii) : bool :=
  ((code c =? 101) || (code c =? 69))%N.

(** [ExponentPart]: the exponent and the rest, when [s] starts with one. *)
Definition exponentPart (s : list ascii) : option (Z * list ascii) :=
  match s with
  | c :: s1 =>
      if isExponentIndicator c then
        let '(neg, s2) :=
          match s1 with
          | d :: s2 => if isSign d then (isMinus d, s2) else (false, s1)
          | [] => (false, s1)
          end in
        match span isDigit s2 with
        | ([], _) => None
        | (ds, rest) => Some (if neg then - digitsValue ds else digitsValue ds, rest)
        end
      else None
  | [] => None
  end.

(** The longest prefix of [s] that is a [StrUnsignedDecimalLiteral], as the
    Number it denotes with the sign [neg], and what follows it. *)
Definition unsignedDecimalLiteral (neg : bool) (s : list ascii)
    : option (number * list ascii) :=
  match list_prefix_rest (chars "Infinity") s with
  | Some rest => Some (S754_infinity neg, rest)
  | None =>
      let '(ints, s1) := span isDigit s in
      let '(fracs, s2, dotted) :=
        match s1 with
        | c :: s1' =>
            if (code c =? 46)%N then
              let '(fs, s2) := span isDigit s1' in (fs, s2, true)
            else ([], s1, false)
        | [] => ([], s1, false)
        end in
      match ints, fracs with
      | [], [] => None
      | _, _ =>
          let '(e, rest) :=
            match exponentPart s2 with
            | Some (e, rest) => (e, rest)
            | None => (0, s2)
            end in
          Some (ofDecimal neg (digitsValue (ints ++ fracs))
                          (e - Z.of_nat (length fracs)), rest)
      end
  end.

(** [StrDecimalLiteral]: an optional sign, then the unsigned literal. *)
Definition decimalLiteral (s : list ascii) : option (number * list ascii) :=
  match s with
  | c :: s' =>
      if isSign c then unsignedDecimalLiteral (isMinus c) s'
      else unsignedDecimalLiteral false s
  | [] => None
  end.

Definition trimStart (s : list ascii) : list ascii := snd (span isSpace s).
Definition trim (s : list ascii) : list ascii :=
  rev (trimStart (rev (trimStart s))).

(** [parseFloat(string)]: leading white space is skipped, the longest
    prefix that is a decimal literal is read, the rest is ignored. *)
Definition parseFloatString (s : string) : number :=
  match decimalLiteral (trimStart (chars s)) with
  | Some (x, _) => x
  | None => NaN
  end.

(** [NonDecimalIntegerLiteral]: [0x], [0o] or [0b] and digits of that base. *)
Definition hexValue (c : ascii) : option Z :=
  let n := code c in
  if ((48 <=? n) && (n <=? 57))%N then Some (Z.of_N n - 48)
  else if ((97 <=? n) && (n <=? 102))%N then Some (Z.of_N n - 87)
  else if ((65 <=? n) && (n <=? 70))%N then Some (Z.of_N n - 55)
  else None.

Fixpoint baseDigits (base acc : Z) (s : list ascii) : option Z :=
  match s with
  | [] => Some acc
  | c :: s' =>
      match hexValue c with
      | Some d => if d <? base then baseDigits base (base * acc + d) s' else None
      | None => None
      end
  end.

Definition nonDecimalLiteral (s : list ascii) : option number :=
  match s with
  | z :: b :: ds =>
      let base :=
        if ((code b =? 120) || (code b =? 88))%N then Some 16
        else if ((code b =? 111) || (code b =? 79))%N then Some 8
        else if ((code b =? 98) || (code b =? 66))%N then Some 2
        else None in
      match base, ds with
      | Some r, _ :: _ =>
          if (code z =? 48)%N then ofZ <$> baseDigits r 0 ds else None
      | _, _ => None
      end
  | _ => None
  end.

(** [StringToNumber]: the whole string, white space trimmed at both ends,
    must be a numeric literal; the empty string is [+0]. *)
Definition stringToNumber (s : string) : number :=
  match trim (chars s) with
  | [] => S754_zero false
  | t =>
      match nonDecimalLiteral t with
      | Some x => x
      | None =>
          match decimalLiteral t with
          | Some (x, []) => x
          | _ => NaN
          end
      end
  end.

(** ** Values

    The values the sources pass around as contexts, log entries and
    decisions: primitives and plain objects.  An object is the list of its
    own properties in insertion order; the first binding of a key is the
    property.  Arrays and functions are outside the model, and so are
    objects that shadow [toString] or [valueOf]: an object converts to a
    primitive as [Object.prototype] makes it. *)

Inductive JsValue :=
  | JUndefined
  | JNull
  | JBool (b : bool)
  | JNum (x : number)
  | JStr (s : string)
  | JObj (fields : list (string * JsValue)).

Definition JsObject : Type := list (string * JsValue).

(** [o[k]] on the own properties of [o]; [undefined] when there is none.
    This is [o.k] for every name [k] that [Object.prototype] does not
    have. *)
Fixpoint getField (k : string) (o : JsObject) : JsValue :=
  match o with
  | [] => JUndefined
  | (k', v) :: o' => if String.eqb k k' then v else getField k o'
  end.

(** [o[k] = v]: an existing property keeps its place, a new one goes last. *)
Fixpoint setField (k : string) (v : JsValue) (o : JsObject) : JsObject :=
  match o with
  | [] => [(k, v)]
  | (k', v') :: o' =>
      if String.eqb k k' then (k, v) :: o' else (k', v') :: setField k v o'
  end.

(** [v.k] on any value that has properties to read: a primitive other than
    [null] and [undefined] has none of the names the sources read. *)
Definition prop (k : string) (v : JsValue) : JsValue :=
  match v with
  | JObj o => getField k o
  | _ => JUndefined
  end.

(** [ToBoolean]. *)
Definition truthy (v : JsValue) : bool :=
  match v with
  | JUndefined | JNull => false
  | JBool b => b
  | JNum x => match x with S754_zero _ | S754_nan => false | _ => true end
  | JStr s => negb (String.eqb s "")
  | JObj _ => true
  end.

(** [a === b].  Two objects are equal when they are the same object; the
    sources only compare values read from different places, so two objects
    never are. *)
Definition strictEq (a b : JsValue) : bool :=
  match a, b with
  | JUndefined, JUndefined => true
  | JNull, JNull => true
  | JBool x, JBool y => Bool.eqb x y
  | JNum x, JNum y => numEq x y
  | JStr x, JStr y => String.eqb x y
  | _, _ => false
  end.

(** [ToNumber]. *)
Definition toNumber (v : JsValue) : number :=
  match v with
  | JUndefined => NaN
  | JNull => S754_zero false
  | JBool b => if b then ofZ 1 else S754_zero false
  | JNum x => x
  | JStr s => stringToNumber s
  | JObj _ => NaN
  end.

(** [v == y] for a Number [y] ([IsLooselyEqual]). *)
Definition looseEqNumber (v : JsValue) (y : number) : bool :=
  match v with
  | JUndefined | JNull | JObj _ => false
  | _ => numEq (toNumber v) y
  end.

(** [parseFloat(v)]: [v] is converted to a string first.  The string of a
    Number reads back as that Number (with [-0] printed as [0]); the strings
    of [undefined], [null], booleans and plain objects are no numbers. *)
Definition parseFloat (v : JsValue) : number :=
  match v with
  | JStr s => parseFloatString s
  | JNum x => match x with S754_zero _ => S754_zero false | _ => x end
  | _ => NaN
  end.

(** ** Reading a property by a computed name

    [o[k]] looks among the own properties of [o], then on its prototype.  A
    plain object inherits the members of [Object.prototype]: eleven
    functions, and the accessor [__proto__], which reads as the prototype
    itself.  What is read there is a built-in object: it is not
    [undefined], [parseFloat] makes [NaN] of it, and it is loosely equal to
    no Number. *)
Definition objectPrototypeMembers : list string :=
  ["constructor"; "hasOwnProperty"; "isPrototypeOf"; "propertyIsEnumerable";
   "toLocaleString"; "toString"; "valueOf"; "__defineGetter__";
   "__defineSetter__"; "__lookupGetter__"; "__lookupSetter__"; "__proto__"].

Definition hasOwn (k : string) (o : JsObject) : bool :=
  existsb (fun kv => String.eqb k (fst kv)) o.

Inductive Member :=
  | Data (v : JsValue)
  | Builtin.

Definition get (k : string) (o : JsObject) : Member :=
  if hasOwn k o then Data (getField k o)
  else if bool_decide (k ∈ objectPrototypeMembers) then Builtin
  else Data JUndefined.

(** [m === undefined], [parseFloat(m)] and [m == y] on what was read. *)
Definition isUndefined (m : Member) : bool :=
  match m with Data JUndefined => true | _ => false end.

Definition parseFloatOf (m : Member) : number :=
  match m with Data v => parseFloat v | Builtin => NaN end.

Definition looseEqNumberOf (m : Member) (y : number) : bool :=
  match m with Data v => looseEqNumber v y | Builtin => false end.

(** ** JSON

    [JSON.stringify] first reduces a value to a JSON value, then prints it:
    a property holding [undefined] is left out, a Number that is not finite
    becomes [null], and [-0] prints as [0].  [jsonValue v] is that JSON
    value, which is also what [JSON.parse] reads back from the text. *)
Definition jsonNumber (x : number) : JsValue :=
  match x with
  | S754_zero _ => JNum (S754_zero false)
  | S754_finite _ _ _ => JNum x
  | _ => JNull
  end.

(** The properties of an object that reach its JSON text: the first
    binding of each key, unless it holds [undefined], reduced by [f]. *)
Definition jsonFields (f : JsValue -> JsValue) : list string -> JsObject -> JsObject :=
  fix fields (seen : list string) (o : JsObject) : JsObject :=
    match o with
    | [] => []
    | (k, w) :: o' =>
        if bool_decide (k ∈ seen) then fields seen o'
        else
          match w with
          | JUndefined => fields (k :: seen) o'
          | _ => (k, f w) :: fields (k :: seen) o'
          end
    end.

Fixpoint jsonValue (v : JsValue) : JsValue :=
  match v with
  | JNum x => jsonNumber x
  | JObj o => JObj (jsonFields jsonValue [] o)
  | _ => v
  end.

Arguments jsonValue : simpl never.

End JS.

(* ===================================================================== *)
(** * Data model                                                          *)
(* ===================================================================== *)

Import JS.

(** ** Policies (the parsed YAML documents) *)

(** An entry of [permissions.escalate]: a pattern string, or an object with
    optional [action] and [condition] strings. *)
Inductive EscalateRule :=
  | RuleString (pattern : string)
  | RuleObject (action : option string) (condition : option string).

Module Policy.
Record Permissions := {
  allow : option (list string);
  deny : option (list string);
  escalate : option (list EscalateRule);
}.

Record t := {
  agent : string;
  permissions : option Permissions;
}.
End Policy.

(** The object [checkPermission] returns. *)
Module Decision.
Record t := {
  allowed : bool;
  reason : string;
  requiresEscalation : bool;
  escalationRule : option EscalateRule;
}.
End Decision.

(** A rule as the value the YAML parser produced, for logging. *)
Definition ruleValue (rule : EscalateRule) : JsValue :=
  match rule with
  | RuleString pattern => JStr pattern
  | RuleObject action condition =>
      JObj (from_option (fun a => [("action", JStr a)]) [] action
            ++ from_option (fun c => [("condition", JStr c)]) [] condition)
  end.

Definition optional {A} (f : A -> JsValue) (o : option A) : JsValue :=
  from_option f JUndefined o.

(** ** Identities *)

Inductive Status := active | revoked.

Module Identity.
Record Verification := {
  timestamp : string;
  method : string;
  success : bool;
}.

Record Metadata := {
  name : string;
  role : string;
  owner : option string;
  createdAt : string;
  createdBy : string;
  tags : list string;
  updatedAt : option string;
}.

Record t := {
  agentId : string;
  publicKey : string;
  privateKey : string;
  metadata : Metadata;
  status : Status;
  trustScore : Z;
  verificationHistory : list Verification;
  lastVerified : option string;
  revokedAt : option string;
  revocationReason : option string;
  archivedKeys : list (string * string);
  keyRotatedAt : option string;
}.
End Identity.

(** ** Audit log files

    A log file is the list of its non-empty lines.  A line is known by what
    [JSON.parse] makes of it: a value, or a syntax error. *)
Inductive Line :=
  | Parsed (entry : JsValue)
  | Malformed.

(** ** The Node.js runtime *)

Class Runtime := {
  (** [crypto.createHash('sha256').update(data).digest('hex')] *)
  sha256hex : string -> string;
  (** the text [JSON.stringify] prints for a JSON value *)
  JSON_text : JsValue -> string;
  (** [crypto.createVerify('SHA256')] over a message, checked against a
      public key and a base64 signature; [false] also when the library
      throws, which [verifySignature] catches *)
  rsaVerify : string -> JsValue -> JsValue -> bool;
  (** [crypto.generateKeyPairSync]: the public and private key of the
      n-th pair generated *)
  generateKeyPair : nat -> string * string;
  (** [Date.now()] at the n-th reading of the clock *)
  clock : nat -> Z;
  (** [new Date(t).toISOString()] *)
  toISOString : Z -> string;
  (** size in bytes of a file made of these lines *)
  fileSize : list Line -> Z;
  (** [path.join(logPath, `audit-${date}.jsonl`)] for the date of a time *)
  logFileName : string -> Z -> string;
  (** [file.replace('.jsonl', `.${timestamp}.jsonl`)] *)
  rotatedFileName : string -> Z -> string;
}.

(** [JSON.stringify(v)] for a value that is not [undefined]. *)
Definition JSON_stringify `{Runtime} (v : JsValue) : string :=
  JSON_text (jsonValue v).

(** ** The state of one agent's three collaborators and their environment *)

(** The fields of the [AuditLogger] instance. *)
Record Logger := {
  logPath : string;
  rotationSizeMB : Z;
  enableChainValidation : bool;
  currentLogFile : string;
  lastHash : JsValue;
}.

Record World := {
  (** clock readings and key pairs consumed so far *)
  ticks : nat;
  keysGenerated : nat;
  (** the audit directory, by file *)
  auditFiles : gmap string (list Line);
  (** history variable (not a field of the program): every entry handed to
      [writeEntry], oldest first, whatever file it went to *)
  emitted : list JsObject;
  (** the identity store, by agent *)
  identityFiles : gmap string Identity.t;
  (** [AuditLogger] *)
  logger : Logger;
  (** [IdentitySystem]: [this.identities] and [this.trustScores] *)
  identities : gmap string Identity.t;
  trustScores : gmap string Z;
  (** [PolicyEngine]: [this.policies] *)
  policies : gmap string Policy.t;
}.

Definition setTicks (n : nat) (w : World) : World :=
  {| ticks := n; keysGenerated := w.(keysGenerated);
     auditFiles := w.(auditFiles); emitted := w.(emitted);
     identityFiles := w.(identityFiles); logger := w.(logger);
     identities := w.(identities); trustScores := w.(trustScores);
     policies := w.(policies) |}.

Definition setKeysGenerated (n : nat) (w : World) : World :=
  {| ticks := w.(ticks); keysGenerated := n; auditFiles := w.(auditFiles);
     emitted := w.(emitted); identityFiles := w.(identityFiles);
     logger := w.(logger); identities := w.(identities);
     trustScores := w.(trustScores); policies := w.(policies) |}.

Definition setAuditFiles (fs : gmap string (list Line)) (w : World) : World :=
  {| ticks := w.(ticks); keysGenerated := w.(keysGenerated);
     auditFiles := fs; emitted := w.(emitted);
     identityFiles := w.(identityFiles); logger := w.(logger);
     identities := w.(identities); trustScores := w.(trustScores);
     policies := w.(policies) |}.

Definition setEmitted (es : list JsObject) (w : World) : World :=
  {| ticks := w.(ticks); keysGenerated := w.(keysGenerated);
     auditFiles := w.(auditFiles); emitted := es;
     identityFiles := w.(identityFiles); logger := w.(logger);
     identities := w.(identities); trustScores := w.(trustScores);
     policies := w.(policies) |}.

Definition setIdentityFiles (fs : gmap string Identity.t) (w : World) : World :=
  {| ticks := w.(ticks); keysGenerated := w.(keysGenerated);
     auditFiles := w.(auditFiles); emitted := w.(emitted);
     identityFiles := fs; logger := w.(logger); identities := w.(identities);
     trustScores := w.(trustScores); policies := w.(policies) |}.

Definition setLogger (l : Logger) (w : World) : World :=
  {| ticks := w.(ticks); keysGenerated := w.(keysGenerated);
     auditFiles := w.(auditFiles); emitted := w.(emitted);
     identityFiles := w.(identityFiles); logger := l;
     identities := w.(identities); trustScores := w.(trustScores);
     policies := w.(policies) |}.

Definition setIdentities (m : gmap string Identity.t) (w : World) : World :=
  {| ticks := w.(ticks); keysGenerated := w.(keysGenerated);
     auditFiles := w.(auditFiles); emitted := w.(emitted);
     identityFiles := w.(identityFiles); logger := w.(logger);
     identities := m; trustScores := w.(trustScores);
     policies := w.(policies) |}.

Definition setTrustScores (m : gmap string Z) (w : World) : World :=
  {| ticks := w.(ticks); keysGenerated := w.(keysGenerated);
     auditFiles := w.(auditFiles); emitted := w.(emitted);
     identityFiles := w.(identityFiles); logger := w.(logger);
     identities := w.(identities); trustScores := m;
     policies := w.(policies) |}.

Definition setPolicies (m : gmap string Policy.t) (w : World) : World :=
  {| ticks := w.(ticks); keysGenerated := w.(keysGenerated);
     auditFiles := w.(auditFiles); emitted := w.(emitted);
     identityFiles := w.(identityFiles); logger := w.(logger);
     identities := w.(identities); trustScores := w.(trustScores);
     policies := m |}.

(** ** Computations: state passing with exceptions

    A method runs from a state to an outcome and a state.  A thrown
    exception keeps the effects made before it. *)

Inductive Outcome (A : Type) :=
  | Ok (a : A)
  | Throw (message : string).
Arguments Ok {A} a.
Arguments Throw {A} message.

Definition St (S A : Type) : Type := S -> Outcome A * S.

(** The methods of the three classes run on the world. *)
Definition M (A : Type) : Type := St World A.

Definition ret {S A} (a : A) : St S A := fun s => (Ok a, s).
Definition throw {S A} (message : string) : St S A := fun s => (Throw message, s).
Definition bind {S A B} (m : St S A) (k : A -> St S B) : St S B :=
  fun s => match m s with
           | (Ok a, s') => k a s'
           | (Throw e, s') => (Throw e, s')
           end.
Definition gets {S A} (f : S -> A) : St S A := fun s => (Ok (f s), s).
Definition modify {S} (f : S -> S) : St S unit := fun s => (Ok tt, f s).

(** [try { m } catch (error) { handler(error.message) }] *)
Definition catch {S A} (m : St S A) (handler : string -> St S A) : St S A :=
  fun s => match m s with
           | (Ok a, s') => (Ok a, s')
           | (Throw e, s') => handler e s'
           end.

Arguments ret {S A} a s /.
Arguments throw {S A} message s /.
Arguments bind {S A B} m k s /.
Arguments gets {S A} f s /.
Arguments modify {S} f s /.
Arguments catch {S A} m handler s /.

Declare Scope js_scope.
Delimit Scope js_scope with js.
Notation "x <- m ;; k" := (bind m (fun x => k))
  (at level 100, m at next level, right associativity) : js_scope.
Notation "m ;;; k" := (bind m (fun _ => k))
  (at level 100, right associativity) : js_scope.
Open Scope js_scope.

(** [Date.now()], and [new Date()] read as milliseconds. *)
Definition now `{Runtime} : M Z :=
  fun w => (Ok (clock w.(ticks)), setTicks (S w.(ticks)) w).

(* ===================================================================== *)
(** * audit-logger.js                                                     *)
(* ===================================================================== *)

Module AuditLogger.
Section WithRuntime.
Context `{Runtime}.

Definition updateLogger (f : Logger -> Logger) : M unit :=
  modify (fun w => setLogger (f w.(logger)) w).

(** [getCurrentLogFile()] *)
Definition getCurrentLogFile : M string :=
  date <- now ;;
  p <- gets (fun w => w.(logger).(logPath)) ;;
  ret (logFileName p date).

(** [getLastHash()]: the [hash] of the last line of the current file, and
    [null] when the file is missing or its last line does not yield one. *)
Definition getLastHash (w : World) : JsValue :=
  match w.(auditFiles) !! w.(logger).(currentLogFile) with
  | None => JNull
  | Some lines =>
      match last lines with
      | Some (Parsed (JNull | JUndefined)) | Some Malformed | None => JNull
      | Some (Parsed lastEntry) => prop "hash" lastEntry
      end
  end.

(** [sanitizeContext(context)] *)
Definition sensitiveFields : list string :=
  ["password"; "token"; "secret"; "apiKey"; "ssn"; "creditCard"].

Definition sanitizeContext (context : JsObject) : JsObject :=
  fold_left
    (fun sanitized field =>
       if truthy (getField field sanitized)
       then setField field (JStr "[REDACTED]") sanitized
       else sanitized)
    sensitiveFields context.

(** [hashEntry(entry)] *)
Definition hashEntry (entry : JsValue) : string :=
  let data := JSON_stringify (JObj [
    ("type", prop "type" entry);
    ("timestamp", prop "timestamp" entry);
    ("agentId", prop "agentId" entry);
    ("action", prop "action" entry);
    ("decision", prop "decision" entry);
    ("previousHash", prop "previousHash" entry)
  ]) in
  sha256hex data.

(** [shouldRotate()]: [false] also when the file cannot be read. *)
Definition shouldRotate : M bool :=
  gets (fun w =>
    match w.(auditFiles) !! w.(logger).(currentLogFile) with
    | Some lines => w.(logger).(rotationSizeMB) * (1024 * 1024) <? fileSize lines
    | None => false
    end).

(** [fs.renameSync(from, to)] *)
Definition renameSync (from to : string) : M unit :=
  fun w =>
    match w.(auditFiles) !! from with
    | Some lines =>
        (Ok tt, setAuditFiles (<[to := lines]> (delete from w.(auditFiles))) w)
    | None => (Throw "ENOENT: no such file or directory", w)
    end.

(** [fs.appendFileSync(file, line)] *)
Definition appendFileSync (file : string) (line : Line) : M unit :=
  modify (fun w =>
    setAuditFiles
      (<[file := default [] (w.(auditFiles) !! file) ++ [line]]> w.(auditFiles)) w).

(** [rotateLogFile()] *)
Definition rotateLogFile : M unit :=
  timestamp <- now ;;
  file <- gets (fun w => w.(logger).(currentLogFile)) ;;
  let rotatedFile := rotatedFileName file timestamp in
  renameSync file rotatedFile ;;;
  newFile <- getCurrentLogFile ;;
  updateLogger (fun l =>
    {| logPath := l.(logPath); rotationSizeMB := l.(rotationSizeMB);
       enableChainValidation := l.(enableChainValidation);
       currentLogFile := newFile; lastHash := JNull |}).

(** [writeEntry(entry)]; the entry object is the caller's, and is returned
    with the two properties the method sets on it. *)
Definition writeEntry (entry : JsObject) : M JsObject :=
  rotate <- shouldRotate ;;
  (if rotate : bool then rotateLogFile else ret tt) ;;;
  l <- gets logger ;;
  entry <- (if l.(enableChainValidation) then
              let entry := setField "previousHash" l.(lastHash) entry in
              let entry := setField "hash" (JStr (hashEntry (JObj entry))) entry in
              updateLogger (fun l =>
                {| logPath := l.(logPath); rotationSizeMB := l.(rotationSizeMB);
                   enableChainValidation := l.(enableChainValidation);
                   currentLogFile := l.(currentLogFile);
                   lastHash := getField "hash" entry |}) ;;;
              ret entry
            else ret entry) ;;
  file <- gets (fun w => w.(logger).(currentLogFile)) ;;
  appendFileSync file (Parsed (jsonValue (JObj entry))) ;;;
  modify (fun w => setEmitted (w.(emitted) ++ [entry]) w) ;;;
  ret entry.

(** [logDecision(agentId, action, context, decision, durationMs)] *)
Definition logDecision (agentId action : string) (context : JsObject)
    (decision : Decision.t) (durationMs : Z) : M unit :=
  timestamp <- now ;;
  timestampUnix <- now ;;
  let entry := [
    ("type", JStr "policy_decision");
    ("timestamp", JStr (toISOString timestamp));
    ("timestampUnix", JNum (ofZ timestampUnix));
    ("agentId", JStr agentId);
    ("action", JStr action);
    ("context", JObj (sanitizeContext context));
    ("decision", JObj [
       ("allowed", JBool decision.(Decision.allowed));
       ("reason", JStr decision.(Decision.reason));
       ("requiresEscalation", JBool decision.(Decision.requiresEscalation));
       ("escalationRule", optional ruleValue decision.(Decision.escalationRule))
     ]);
    ("durationMs", JNum (ofZ durationMs))
  ] in
  writeEntry entry ;;; ret tt.

(** [logAction(agentId, action, details, result)] *)
Definition logAction (agentId action : string) (details : JsObject)
    (success : bool) (output : JsValue) (error : JsValue) : M unit :=
  timestamp <- now ;;
  timestampUnix <- now ;;
  let entry := [
    ("type", JStr "agent_action");
    ("timestamp", JStr (toISOString timestamp));
    ("timestampUnix", JNum (ofZ timestampUnix));
    ("agentId", JStr agentId);
    ("action", JStr action);
    ("details", JObj (sanitizeContext details));
    ("result", JObj [
       ("success", JBool success);
       ("output", output);
       ("error", error)
     ])
  ] in
  writeEntry entry ;;; ret tt.

(** [logEscalation(...)]: returns the escalation id, [entry.timestampUnix]. *)
Definition logEscalation (agentId action : string) (context : JsObject)
    (escalationReason assignedTo : string) : M Z :=
  timestamp <- now ;;
  timestampUnix <- now ;;
  let entry := [
    ("type", JStr "escalation");
    ("timestamp", JStr (toISOString timestamp));
    ("timestampUnix", JNum (ofZ timestampUnix));
    ("agentId", JStr agentId);
    ("action", JStr action);
    ("context", JObj (sanitizeContext context));
    ("escalationReason", JStr escalationReason);
    ("assignedTo", JStr assignedTo);
    ("status", JStr "pending")
  ] in
  writeEntry entry ;;; ret timestampUnix.

(** [logEscalationResolution(escalationId, resolvedBy, decision, notes)] *)
Definition logEscalationResolution (escalationId : Z)
    (resolvedBy decision : string) (notes : JsValue) : M unit :=
  timestamp <- now ;;
  timestampUnix <- now ;;
  let entry := [
    ("type", JStr "escalation_resolution");
    ("timestamp", JStr (toISOString timestamp));
    ("timestampUnix", JNum (ofZ timestampUnix));
    ("escalationId", JNum (ofZ escalationId));
    ("resolvedBy", JStr resolvedBy);
    ("decision", JStr decision);
    ("notes", notes)
  ] in
  writeEntry entry ;;; ret tt.

(** [logIdentityVerification(agentId, verificationType, result)] *)
Definition logIdentityVerification (agentId verificationType : string)
    (verified : bool) (reason : string) (trustScore : Z) : M unit :=
  timestamp <- now ;;
  timestampUnix <- now ;;
  let entry := [
    ("type", JStr "identity_verification");
    ("timestamp", JStr (toISOString timestamp));
    ("timestampUnix", JNum (ofZ timestampUnix));
    ("agentId", JStr agentId);
    ("verificationType", JStr verificationType);
    ("result", JObj [
       ("verified", JBool verified);
       ("reason", JStr reason);
       ("trustScore", JNum (ofZ trustScore))
     ])
  ] in
  writeEntry entry ;;; ret tt.

(** ** [verifyChain] *)

Inductive ChainError :=
  | LogFileNotFound
  | HashChainBroken (line : nat)
  | EntryHashMismatch (line : nat)
  | InvalidJSON (line : nat).

(** [{valid: true, entries, file}] or [{valid: false, error, entry}]. *)
Inductive ChainResult :=
  | ChainValid (entries : nat) (file : string)
  | ChainInvalid (error : ChainError) (entry : option JsValue).

Definition valid (r : ChainResult) : bool :=
  match r with ChainValid _ _ => true | ChainInvalid _ _ => false end.

(** The loop of [verifyChain] from line index [i] on. *)
Fixpoint verifyLines (file : string) (lines : list Line) (i : nat)
    (previousHash : JsValue) (validEntries : nat) : ChainResult :=
  match lines with
  | [] => ChainValid validEntries file
  | Malformed :: _ => ChainInvalid (InvalidJSON (i + 1)) None
  | Parsed (JNull | JUndefined) :: _ => ChainInvalid (InvalidJSON (i + 1)) None
  | Parsed entry :: rest =>
      if negb (strictEq (prop "previousHash" entry) previousHash) then
        ChainInvalid (HashChainBroken (i + 1)) (Some entry)
      else
        let calculatedHash := hashEntry entry in
        if negb (strictEq (prop "hash" entry) (JStr calculatedHash)) then
          ChainInvalid (EntryHashMismatch (i + 1)) (Some entry)
        else
          verifyLines file rest (S i) (prop "hash" entry) (S validEntries)
  end.

(** [verifyChain(logFile = null)] *)
Definition verifyChain (logFile : option string) (w : World) : ChainResult :=
  let file :=
    match logFile with
    | Some f => if String.eqb f "" then w.(logger).(currentLogFile) else f
    | None => w.(logger).(currentLogFile)
    end in
  match w.(auditFiles) !! file with
  | None => ChainInvalid LogFileNotFound None
  | Some lines => verifyLines file lines 0 JNull 0
  end.

End WithRuntime.
End AuditLogger.

(* ===================================================================== *)
(** * policy-engine.js                                                    *)
(* ===================================================================== *)

Module PolicyEngine.

(** [matchesPattern(action, pattern)]: exact match, the lone wildcard, a
    trailing wildcard (prefix match), a leading wildcard (suffix match). *)
Definition matchesPattern (action pattern : string) : bool :=
  if String.eqb action pattern then true
  else if String.eqb pattern "*" then true
  else if endsWith pattern "*" then
    let prefix := slice pattern 0 (Some (-1)) in
    startsWith action prefix
  else if startsWith pattern "*" then
    let suffix := slice pattern 1 None in
    endsWith action suffix
  else false.

(** [matchesRules(action, rules, context)]: the first rule that matches. *)
Fixpoint matchesRules (action : string) (rules : list string) : option string :=
  match rules with
  | [] => None
  | rule :: rules' =>
      if matchesPattern action rule then Some rule
      else matchesRules action rules'
  end.

Definition isOperatorChar (c : ascii) : bool :=
  ((code c =? 62) || (code c =? 60) || (code c =? 61) || (code c =? 33))%N.

(** The regular expression [/(\w+)\s*([><=!]+)\s*(.+)/] tried at the head
    of [s]: the three groups of the match found there, if any. *)
Definition conditionRegexAt (s : list ascii) : option (string * string * string) :=
  greedy isWord 1 [] s (fun field s1 =>
  greedy isSpace 0 [] s1 (fun _ s2 =>
  greedy isOperatorChar 1 [] s2 (fun operator s3 =>
  greedy isSpace 0 [] s3 (fun _ s4 =>
  greedy isDot 1 [] s4 (fun valueStr _ =>
  Some (str field, str operator, str valueStr)))))).

(** The search for the leftmost match. *)
Fixpoint conditionRegexSearch (s : list ascii) : option (string * string * string) :=
  match conditionRegexAt s with
  | Some groups => Some groups
  | None =>
      match s with
      | [] => None
      | _ :: s' => conditionRegexSearch s'
      end
  end.

(** [condition.match(/(\w+)\s*([><=!]+)\s*(.+)/)] *)
Definition conditionMatch (condition : string) : option (string * string * string) :=
  conditionRegexSearch (chars condition).

(** [evaluateCondition(condition, context)] *)
Definition evaluateCondition (condition : string) (context : JsObject) : bool :=
  match conditionMatch condition with
  | None => false
  | Some (field, operator, valueStr) =>
      let contextValue := get field context in
      let value := parseFloatString (stripCurrency valueStr) in
      if isUndefined contextValue then false
      else if String.eqb operator ">" then lt value (parseFloatOf contextValue)
      else if String.eqb operator "<" then lt (parseFloatOf contextValue) value
      else if String.eqb operator ">=" then le value (parseFloatOf contextValue)
      else if String.eqb operator "<=" then le (parseFloatOf contextValue) value
      else if String.eqb operator "==" then looseEqNumberOf contextValue value
      else if String.eqb operator "!=" then negb (looseEqNumberOf contextValue value)
      else false
  end.

(** [rule.action] and [rule.condition]; a string has neither. *)
Definition ruleAction (rule : EscalateRule) : option string :=
  match rule with RuleObject action _ => action | RuleString _ => None end.
Definition ruleCondition (rule : EscalateRule) : option string :=
  match rule with RuleObject _ condition => condition | RuleString _ => None end.

(** A property that is present and not the empty string is truthy. *)
Definition present (o : option string) : option string :=
  match o with
  | Some s => if String.eqb s "" then None else Some s
  | None => None
  end.

(** [matchesConditional(rule, action, context)] *)
Definition matchesConditional (rule : EscalateRule) (action : string)
    (context : JsObject) : bool :=
  match present (ruleAction rule) with
  | Some ruleAction' =>
      if negb (matchesPattern action ruleAction') then false
      else
        match present (ruleCondition rule) with
        | Some condition => evaluateCondition condition context
        | None => false
        end
  | None =>
      match present (ruleCondition rule) with
      | Some condition => evaluateCondition condition context
      | None => false
      end
  end.

Section WithRuntime.
Context `{Runtime}.

(** [checkEscalation(escalationRules, action, context)]; [None] is the
    object [{requiresEscalation: false}]. *)
Fixpoint checkEscalation (escalationRules : list EscalateRule) (action : string)
    (context : JsObject) : option Decision.t :=
  match escalationRules with
  | [] => None
  | rule :: rest =>
      match rule with
      | RuleString pattern =>
          if matchesPattern action pattern then
            Some {| Decision.allowed := false;
                    Decision.reason := "Action requires human escalation: " +:+ pattern;
                    Decision.requiresEscalation := true;
                    Decision.escalationRule := Some rule |}
          else checkEscalation rest action context
      | RuleObject _ _ =>
          if matchesConditional rule action context then
            Some {| Decision.allowed := false;
                    Decision.reason :=
                      "Action requires human escalation: "
                      +:+ JSON_stringify (ruleValue rule);
                    Decision.requiresEscalation := true;
                    Decision.escalationRule := Some rule |}
          else checkEscalation rest action context
      end
  end.

(** [policy.permissions?.allow] and its like: the list, when it is there. *)
Definition rulesOf {A} (list_ : Policy.Permissions -> option (list A))
    (policy : Policy.t) : option (list A) :=
  match policy.(Policy.permissions) with
  | Some permissions => list_ permissions
  | None => None
  end.

Definition logAndReturn (agentId action : string) (context : JsObject)
    (result : Decision.t) (startTime : Z) : M Decision.t :=
  t <- now ;;
  AuditLogger.logDecision agentId action context result (t - startTime) ;;;
  ret result.

(** [checkPermission(agentId, action, context = {})] *)
Definition checkPermission (agentId action : string) (context : JsObject)
    : M Decision.t :=
  startTime <- now ;;
  policy <- gets (fun w => w.(policies) !! agentId) ;;
  match policy with
  | None =>
      logAndReturn agentId action context
        {| Decision.allowed := false;
           Decision.reason := "No policy found for agent: " +:+ agentId;
           Decision.requiresEscalation := false;
           Decision.escalationRule := None |} startTime
  | Some policy =>
      match from_option (fun rules => checkEscalation rules action context)
              None (rulesOf Policy.escalate policy) with
      | Some escalation => logAndReturn agentId action context escalation startTime
      | None =>
          match from_option (matchesRules action) None
                  (rulesOf Policy.deny policy) with
          | Some rule =>
              logAndReturn agentId action context
                {| Decision.allowed := false;
                   Decision.reason :=
                     "Action explicitly denied by policy rule: " +:+ rule;
                   Decision.requiresEscalation := false;
                   Decision.escalationRule := None |} startTime
          | None =>
              match from_option (matchesRules action) None
                      (rulesOf Policy.allow policy) with
              | Some rule =>
                  logAndReturn agentId action context
                    {| Decision.allowed := true;
                       Decision.reason :=
                         "Action allowed by policy rule: " +:+ rule;
                       Decision.requiresEscalation := false;
                       Decision.escalationRule := None |} startTime
              | None =>
                  logAndReturn agentId action context
                    {| Decision.allowed := false;
                       Decision.reason :=
                         "Action not explicitly allowed (default deny)";
                       Decision.requiresEscalation := false;
                       Decision.escalationRule := None |} startTime
              end
          end
      end
  end.

End WithRuntime.
End PolicyEngine.

(* ===================================================================== *)
(** * identity-system.js                                                  *)
(* ===================================================================== *)

(** What [verifyIdentity] returns. *)
Module VerifyResult.
Record t := {
  verified : bool;
  reason : string;
  trustScore : Z;
}.
End VerifyResult.

(** The [credentials] argument of [verifyIdentity]; [JUndefined] for a
    property that is not there. *)
Module Credentials.
Record t := {
  signature : JsValue;
  message : JsValue;
}.
Definition none : t := {| signature := JUndefined; message := JUndefined |}.
End Credentials.

(** The [metadata] argument of [createIdentity] and the [updates] argument
    of [updateMetadata]: the properties that are there. *)
Module MetadataInput.
Record t := {
  name : option string;
  role : option string;
  owner : option string;
  createdAt : option string;
  createdBy : option string;
  tags : option (list string);
}.
End MetadataInput.

(** What [createIdentity] returns: the identity without its private key. *)
Module PublicIdentity.
Record t := {
  agentId : string;
  publicKey : string;
  metadata : Identity.Metadata;
  trustScore : Z;
}.
End PublicIdentity.

Module IdentitySystem.
Import Identity.

(** Assignments to the properties of an identity object. *)
Definition withTrustScore (score : Z) (i : Identity.t) : Identity.t :=
  {| agentId := i.(agentId); publicKey := i.(publicKey);
     privateKey := i.(privateKey); metadata := i.(metadata);
     status := i.(status); trustScore := score;
     verificationHistory := i.(verificationHistory);
     lastVerified := i.(lastVerified); revokedAt := i.(revokedAt);
     revocationReason := i.(revocationReason);
     archivedKeys := i.(archivedKeys); keyRotatedAt := i.(keyRotatedAt) |}.

Definition withRevocation (at_ reason : string) (i : Identity.t) : Identity.t :=
  {| agentId := i.(agentId); publicKey := i.(publicKey);
     privateKey := i.(privateKey); metadata := i.(metadata);
     status := revoked; trustScore := i.(trustScore);
     verificationHistory := i.(verificationHistory);
     lastVerified := i.(lastVerified); revokedAt := Some at_;
     revocationReason := Some reason;
     archivedKeys := i.(archivedKeys); keyRotatedAt := i.(keyRotatedAt) |}.

Definition withVerification (at_ : string) (history : list Verification)
    (i : Identity.t) : Identity.t :=
  {| agentId := i.(agentId); publicKey := i.(publicKey);
     privateKey := i.(privateKey); metadata := i.(metadata);
     status := i.(status); trustScore := i.(trustScore);
     verificationHistory := history;
     lastVerified := Some at_; revokedAt := i.(revokedAt);
     revocationReason := i.(revocationReason);
     archivedKeys := i.(archivedKeys); keyRotatedAt := i.(keyRotatedAt) |}.

Definition withMetadata (m : Metadata) (i : Identity.t) : Identity.t :=
  {| agentId := i.(agentId); publicKey := i.(publicKey);
     privateKey := i.(privateKey); metadata := m;
     status := i.(status); trustScore := i.(trustScore);
     verificationHistory := i.(verificationHistory);
     lastVerified := i.(lastVerified); revokedAt := i.(revokedAt);
     revocationReason := i.(revocationReason);
     archivedKeys := i.(archivedKeys); keyRotatedAt := i.(keyRotatedAt) |}.

Definition withKeypair (pub priv archivedAt rotatedAt : string) (i : Identity.t)
    : Identity.t :=
  {| agentId := i.(agentId); publicKey := pub;
     privateKey := priv; metadata := i.(metadata);
     status := i.(status); trustScore := i.(trustScore);
     verificationHistory := i.(verificationHistory);
     lastVerified := i.(lastVerified); revokedAt := i.(revokedAt);
     revocationReason := i.(revocationReason);
     archivedKeys := i.(archivedKeys) ++ [(i.(publicKey), archivedAt)];
     keyRotatedAt := Some rotatedAt |}.

Section WithRuntime.
Context `{Runtime}.

(** [this.identities.get(agentId)] *)
Definition getIdentityObject (agentId : string) : M (option Identity.t) :=
  gets (fun w => w.(identities) !! agentId).

(** The identity objects live in the map; an assignment to a property of
    one is an update of the map at its key. *)
Definition assign (agentId : string) (f : Identity.t -> Identity.t) : M unit :=
  modify (fun w =>
    match w.(identities) !! agentId with
    | Some identity => setIdentities (<[agentId := f identity]> w.(identities)) w
    | None => w
    end).

(** [saveIdentity(identity)]: the file is named after the agent. *)
Definition saveIdentity (identity : Identity.t) : M unit :=
  modify (fun w =>
    setIdentityFiles (<[identity.(agentId) := identity]> w.(identityFiles)) w).

(** [saveIdentity] of the object the map holds for the agent. *)
Definition saveStored (agentId : string) : M unit :=
  identity <- getIdentityObject agentId ;;
  match identity with
  | Some identity => saveIdentity identity
  | None => ret tt
  end.

(** [crypto.generateKeyPairSync('rsa', ...)] *)
Definition generateKeyPairSync : M (string * string) :=
  fun w => (Ok (generateKeyPair w.(keysGenerated)),
            setKeysGenerated (S w.(keysGenerated)) w).

(** [getTrustScore(agentId)] *)
Definition getTrustScore (agentId : string) (w : World) : Z :=
  default 0 (w.(trustScores) !! agentId).

Definition setTrustScore (agentId : string) (score : Z) : M unit :=
  modify (fun w => setTrustScores (<[agentId := score]> w.(trustScores)) w).

(** [verifySignature(publicKey, message, signature)] *)
Definition verifySignature (publicKey : string) (message signature : JsValue)
    : bool :=
  rsaVerify publicKey message signature.

(** [createIdentity(agentId, metadata = {})] *)
Definition createIdentity (agentId : string) (metadata : MetadataInput.t)
    : M PublicIdentity.t :=
  existing <- getIdentityObject agentId ;;
  match existing with
  | Some _ => throw ("Identity already exists for agent: " +:+ agentId)
  | None =>
      keys <- generateKeyPairSync ;;
      created <- now ;;
      let identity := {|
        agentId := agentId;
        publicKey := fst keys;
        privateKey := snd keys;
        metadata := {|
          name := default agentId (PolicyEngine.present metadata.(MetadataInput.name));
          role := default "agent" (PolicyEngine.present metadata.(MetadataInput.role));
          owner := metadata.(MetadataInput.owner);
          createdAt := toISOString created;
          createdBy := default "system"
                         (PolicyEngine.present metadata.(MetadataInput.createdBy));
          tags := default [] metadata.(MetadataInput.tags);
          updatedAt := None |};
        status := active;
        trustScore := 100;
        verificationHistory := [];
        lastVerified := None;
        revokedAt := None;
        revocationReason := None;
        archivedKeys := [];
        keyRotatedAt := None |} in
      modify (fun w => setIdentities (<[agentId := identity]> w.(identities)) w) ;;;
      setTrustScore agentId 100 ;;;
      saveIdentity identity ;;;
      ret {| PublicIdentity.agentId := agentId;
             PublicIdentity.publicKey := identity.(Identity.publicKey);
             PublicIdentity.metadata := identity.(Identity.metadata);
             PublicIdentity.trustScore := identity.(Identity.trustScore) |}
  end.

(** [revokeIdentity(agentId, reason)] *)
Definition revokeIdentity (agentId reason : string) : M unit :=
  identity <- getIdentityObject agentId ;;
  match identity with
  | None => throw ("Identity not found for agent: " +:+ agentId)
  | Some _ =>
      revokedAt <- now ;;
      assign agentId (withRevocation (toISOString revokedAt) reason) ;;;
      saveStored agentId ;;;
      setTrustScore agentId 0 ;;;
      AuditLogger.logIdentityVerification agentId "revocation"
        false ("Identity revoked: " +:+ reason) 0
  end.

(** [incrementTrustScore(agentId, amount, reason)] *)
Definition incrementTrustScore (agentId : string) (amount : Z) (reason : string)
    : M unit :=
  current <- gets (getTrustScore agentId) ;;
  let newScore := Z.min 100 (current + amount) in
  setTrustScore agentId newScore ;;;
  assign agentId (withTrustScore newScore) ;;;
  saveStored agentId.

(** [decrementTrustScore(agentId, amount, reason)] *)
Definition decrementTrustScore (agentId : string) (amount : Z) (reason : string)
    : M unit :=
  current <- gets (getTrustScore agentId) ;;
  let newScore := Z.max 0 (current - amount) in
  setTrustScore agentId newScore ;;;
  assign agentId (withTrustScore newScore) ;;;
  saveStored agentId ;;;
  if newScore =? 0 then revokeIdentity agentId "Trust score reached zero"
  else ret tt.

Definition logAndReturn (agentId verificationType : string)
    (result : VerifyResult.t) : M VerifyResult.t :=
  AuditLogger.logIdentityVerification agentId verificationType
    result.(VerifyResult.verified) result.(VerifyResult.reason)
    result.(VerifyResult.trustScore) ;;;
  ret result.

(** The end of [verifyIdentity], from the trust score check on. *)
Definition checkTrustAndRecord (agentId : string) (credentials : Credentials.t)
    : M VerifyResult.t :=
  trustScore <- gets (getTrustScore agentId) ;;
  if trustScore <? 50 then
    logAndReturn agentId "trust_score_check"
      {| VerifyResult.verified := false;
         VerifyResult.reason := "Trust score too low for operation";
         VerifyResult.trustScore := trustScore |}
  else
    verifiedAt <- now ;;
    assign agentId (fun identity =>
      let history :=
        identity.(verificationHistory)
        ++ [{| timestamp := toISOString verifiedAt;
               method := if truthy credentials.(Credentials.signature)
                         then "signature" else "basic";
               success := true |}] in
      withVerification (toISOString verifiedAt)
        (if (100 <? length history)%nat
         then drop (length history - 100) history else history)
        identity) ;;;
    saveStored agentId ;;;
    logAndReturn agentId "identity_check"
      {| VerifyResult.verified := true;
         VerifyResult.reason := "Identity verified successfully";
         VerifyResult.trustScore := trustScore |}.

(** [verifyIdentity(agentId, credentials = {})] *)
Definition verifyIdentity (agentId : string) (credentials : Credentials.t)
    : M VerifyResult.t :=
  identity <- getIdentityObject agentId ;;
  match identity with
  | None =>
      logAndReturn agentId "identity_check"
        {| VerifyResult.verified := false;
           VerifyResult.reason := "Agent identity not found";
           VerifyResult.trustScore := 0 |}
  | Some identity =>
      match identity.(status) with
      | revoked =>
          logAndReturn agentId "identity_check"
            {| VerifyResult.verified := false;
               VerifyResult.reason := "Agent identity has been revoked";
               VerifyResult.trustScore := 0 |}
      | active =>
          if truthy credentials.(Credentials.signature)
             && truthy credentials.(Credentials.message)
             && negb (verifySignature identity.(publicKey)
                        credentials.(Credentials.message)
                        credentials.(Credentials.signature))
          then
            decrementTrustScore agentId 10 "Failed signature verification" ;;;
            trustScore <- gets (getTrustScore agentId) ;;
            logAndReturn agentId "signature_verification"
              {| VerifyResult.verified := false;
                 VerifyResult.reason := "Invalid signature";
                 VerifyResult.trustScore := trustScore |}
          else checkTrustAndRecord agentId credentials
      end
  end.

(** [updateMetadata(agentId, updates)] *)
Definition updateMetadata (agentId : string) (updates : MetadataInput.t)
    : M unit :=
  identity <- getIdentityObject agentId ;;
  match identity with
  | None => throw ("Identity not found for agent: " +:+ agentId)
  | Some _ =>
      updated <- now ;;
      assign agentId (fun identity =>
        let m := identity.(metadata) in
        withMetadata
          {| name := default m.(name) updates.(MetadataInput.name);
             role := default m.(role) updates.(MetadataInput.role);
             owner := match updates.(MetadataInput.owner) with
                      | Some o => Some o
                      | None => m.(owner)
                      end;
             createdAt := default m.(createdAt) updates.(MetadataInput.createdAt);
             createdBy := default m.(createdBy) updates.(MetadataInput.createdBy);
             tags := default m.(tags) updates.(MetadataInput.tags);
             updatedAt := Some (toISOString updated) |}
          identity) ;;;
      saveStored agentId
  end.

(** [rotateKeypair(agentId)] *)
Definition rotateKeypair (agentId : string) : M unit :=
  identity <- getIdentityObject agentId ;;
  match identity with
  | None => throw ("Identity not found for agent: " +:+ agentId)
  | Some _ =>
      archivedAt <- now ;;
      keys <- generateKeyPairSync ;;
      rotatedAt <- now ;;
      assign agentId (withKeypair (fst keys) (snd keys)
                        (toISOString archivedAt) (toISOString rotatedAt)) ;;;
      saveStored agentId
  end.

End WithRuntime.
End IdentitySystem.

(* ===================================================================== *)
(** * production-agent.js                                                 *)
(* ===================================================================== *)

Module ProductionAgent.

(** The fields of a [ProductionAgent] that [execute] reads. *)
Record t := {
  agentId : string;
  requireSignature : bool;
  escalationHandler : option string;
}.

(** What [execute] returns, by the [return] statement that builds it. *)
Inductive ExecutionResult :=
  (** [{success: false, error, trustScore}] *)
  | IdentityFailed (error : string) (trustScore : Z)
  (** [{success: false, requiresEscalation: true, escalationId, reason,
        escalationRule}] *)
  | Escalated (escalationId : Z) (reason : string)
              (escalationRule : option EscalateRule)
  (** [{success: false, error, policyDenied: true}] *)
  | PolicyDenied (error : string)
  (** [{success, output, error, executionTime, agentId, trustScore}] *)
  | Executed (success : bool) (output : JsValue) (error : JsValue)
             (executionTime : Z) (agentId : string) (trustScore : Z)
  (** [{success: false, error, executionTime}], from the [catch] block *)
  | Failed (error : string) (executionTime : Z).

Definition success (r : ExecutionResult) : bool :=
  match r with
  | Executed ok _ _ _ _ _ => ok
  | _ => false
  end.

Definition requiresEscalation (r : ExecutionResult) : bool :=
  match r with Escalated _ _ _ => true | _ => false end.

Definition policyDenied (r : ExecutionResult) : bool :=
  match r with PolicyDenied _ => true | _ => false end.

(** How the caller's task ends: it returns (or resolves with) an output,
    or it throws (or rejects with) a value, which need not be an [Error]. *)
Inductive Completion :=
  | Returns (output : JsValue)
  | Throws (error : JsValue).

(** The caller's task: it reads the context, acts on a state of its own
    (of any type [T]), and returns an output or throws. *)
Definition Executor (T : Type) : Type := JsObject -> T -> Completion * T.

(** [error.message] in the [catch] of the task.  Reading a property of
    [undefined] or of [null] throws a [TypeError], with the message V8
    gives it; any other value has the [message] it holds, or none. *)
Definition messageOf (error : JsValue) : Outcome JsValue :=
  match error with
  | JUndefined =>
      Throw "Cannot read properties of undefined (reading 'message')"
  | JNull => Throw "Cannot read properties of null (reading 'message')"
  | _ => Ok (prop "message" error)
  end.

(** A method of the classes, run inside [execute]: the task's state is
    left alone. *)
Definition onWorld {T A} (m : M A) : St (World * T) A :=
  fun s => let '(r, w) := m (fst s) in (r, (w, snd s)).

(** [await executor(context)] inside its [try]: the task runs on its own
    state; what it throws becomes a failed result that carries its
    [message], unless reading the message throws, which leaves the [try]
    statement for the [catch] of [execute]. *)
Definition runExecutor {T} (executor : option (Executor T)) (context : JsObject)
    : St (World * T) (bool * JsValue * JsValue) :=
  match executor with
  | Some task =>
      fun s => match task context (snd s) with
               | (Returns output, ext) =>
                   (Ok (true, output, JUndefined), (fst s, ext))
               | (Throws error, ext) =>
                   (match messageOf error with
                    | Ok message => Ok (false, JUndefined, message)
                    | Throw typeError => Throw typeError
                    end, (fst s, ext))
               end
  | None => ret (true, JUndefined, JUndefined)
  end.

Section WithRuntime.
Context `{Runtime}.

(** [verifyIdentity(context)] *)
Definition verifyIdentity (self : t) (context : JsObject) : M VerifyResult.t :=
  let credentials :=
    if self.(requireSignature) && truthy (getField "signature" context) then
      {| Credentials.signature := getField "signature" context;
         Credentials.message :=
           if truthy (getField "message" context) then getField "message" context
           else JStr (JSON_stringify (JObj context)) |}
    else Credentials.none in
  IdentitySystem.verifyIdentity self.(agentId) credentials.

(** [execute(action, context = {}, executor = null)] *)
Definition execute {T} (self : t) (action : string) (context : JsObject)
    (executor : option (Executor T)) : St (World * T) ExecutionResult :=
  startTime <- onWorld now ;;
  catch
    (identityCheck <- onWorld (verifyIdentity self context) ;;
     if negb identityCheck.(VerifyResult.verified) then
       ret (IdentityFailed
              ("Identity verification failed: " +:+ identityCheck.(VerifyResult.reason))
              identityCheck.(VerifyResult.trustScore))
     else
       policyCheck <- onWorld (PolicyEngine.checkPermission self.(agentId) action context) ;;
       if policyCheck.(Decision.requiresEscalation) then
         escalationId <- onWorld (AuditLogger.logEscalation self.(agentId) action context
                          policyCheck.(Decision.reason)
                          (default "human-review"
                             (PolicyEngine.present self.(escalationHandler)))) ;;
         ret (Escalated escalationId policyCheck.(Decision.reason)
                policyCheck.(Decision.escalationRule))
       else if negb policyCheck.(Decision.allowed) then
         ret (PolicyDenied policyCheck.(Decision.reason))
       else
         result <- runExecutor executor context ;;
         let '(ok, output, error) := result in
         onWorld (AuditLogger.logAction self.(agentId) action context ok output error) ;;;
         onWorld (if ok
                  then IdentitySystem.incrementTrustScore self.(agentId) 1 "Successful action"
                  else IdentitySystem.decrementTrustScore self.(agentId) 5 "Failed action") ;;;
         finished <- onWorld now ;;
         trustScore <- onWorld (gets (IdentitySystem.getTrustScore self.(agentId))) ;;
         ret (Executed ok output error (finished - startTime) self.(agentId) trustScore))
    (fun error =>
       failed <- onWorld now ;;
       ret (Failed error (failed - startTime))).

(** [checkPermission(action, context = {})] *)
Definition checkPermission (self : t) (action : string) (context : JsObject)
    : M Decision.t :=
  PolicyEngine.checkPermission self.(agentId) action context.

(** [resolveEscalation(escalationId, decision, notes, resolvedBy = 'human')] *)
Definition resolveEscalation (escalationId : Z) (decision : string)
    (notes : JsValue) (resolvedBy : string) : M unit :=
  AuditLogger.logEscalationResolution escalationId resolvedBy decision notes.

End WithRuntime.
End ProductionAgent.

(** The methods are unfolded by name in the proofs, one at a time. *)
Arguments now : simpl never.
Arguments AuditLogger.writeEntry : simpl never.
Arguments AuditLogger.hashEntry : simpl never.
Arguments AuditLogger.sanitizeContext : simpl never.
Arguments AuditLogger.logDecision : simpl never.
Arguments AuditLogger.logAction : simpl never.
Arguments AuditLogger.logEscalation : simpl never.
Arguments AuditLogger.logEscalationResolution : simpl never.
Arguments AuditLogger.logIdentityVerification : simpl never.
Arguments PolicyEngine.matchesPattern : simpl never.
Arguments PolicyEngine.evaluateCondition : simpl never.
Arguments PolicyEngine.matchesConditional : simpl never.
Arguments PolicyEngine.checkPermission : simpl never.
Arguments IdentitySystem.revokeIdentity : simpl never.
Arguments IdentitySystem.incrementTrustScore : simpl never.
Arguments IdentitySystem.decrementTrustScore : simpl never.
Arguments IdentitySystem.verifyIdentity : simpl never.
Arguments IdentitySystem.checkTrustAndRecord : simpl never.
Arguments IdentitySystem.logAndReturn : simpl never.
Arguments IdentitySystem.createIdentity : simpl never.
Arguments IdentitySystem.updateMetadata : simpl never.
Arguments IdentitySystem.rotateKeypair : simpl never.
Arguments ProductionAgent.verifyIdentity : simpl never.

(* ===================================================================== *)
(** * A runtime and data to run the model on                              *)
(* ===================================================================== *)

Module Sample.

Definition quote : string := String (ascii_of_nat 34) "".

Definition showZ (z : Z) : string := NilZero.string_of_int (Z.to_int z).

(** A plain rendering of a JSON value (a number as mantissa and binary
    exponent). *)
Definition numberText (x : number) : string :=
  match x with
  | S754_finite s m e =>
      (if s then "-" else "") +:+ showZ (Z.pos m) +:+ "p" +:+ showZ e
  | _ => "0"
  end.

Fixpoint jsonText (v : JsValue) : string :=
  match v with
  | JUndefined => "undefined"
  | JNull => "null"
  | JBool b => if b then "true" else "false"
  | JNum x => numberText x
  | JStr s => quote +:+ s +:+ quote
  | JObj o =>
      "{" +:+ (fix members (o : JsObject) : string :=
                 match o with
                 | [] => ""
                 | (k, w) :: o' =>
                     quote +:+ k +:+ quote +:+ ":" +:+ jsonText w +:+ "," +:+ members o'
                 end) o +:+ "}"
  end.

(** A stand-in for Node.js: the digest of a text is the text itself, a
    signature is valid when it names the public key, the clock advances one
    millisecond per reading, and every line of a file weighs 256 bytes. *)
Definition runtime : Runtime := {|
  sha256hex := fun data => data;
  JSON_text := jsonText;
  rsaVerify := fun publicKey message signature =>
                 strictEq signature (JStr ("signed-with:" +:+ publicKey));
  generateKeyPair := fun n => ("public-key", "private-key");
  clock := fun n => 1700000000000 + Z.of_nat n;
  toISOString := fun t => "2023-11-14T22:13:20.000Z";
  fileSize := fun lines => 256 * Z.of_nat (length lines);
  logFileName := fun p t => p +:+ "/audit-2023-11-14.jsonl";
  rotatedFileName := fun f t => f +:+ ".rotated";
|}.

Definition freshLogger : Logger := {|
  logPath := "logs/audit";
  rotationSizeMB := 100;
  enableChainValidation := true;
  currentLogFile := "logs/audit/audit-2023-11-14.jsonl";
  lastHash := JNull;
|}.

(** The world right after the constructors ran on empty directories. *)
Definition emptyWorld : World := {|
  ticks := 0; keysGenerated := 0;
  auditFiles := ∅; emitted := []; identityFiles := ∅;
  logger := freshLogger;
  identities := ∅; trustScores := ∅; policies := ∅;
|}.

(** Scenario B of the specification: a refund escalates above 500. *)
Definition refundRule : EscalateRule :=
  RuleObject (Some "refund") (Some "amount > 500").

Definition refundPolicy : Policy.t := {|
  Policy.agent := "refund-agent";
  Policy.permissions := Some {|
    Policy.allow := Some ["refund"];
    Policy.deny := Some ["delete:*"];
    Policy.escalate := Some [refundRule] |};
|}.

Definition amount (n : Z) : JsObject := [("amount", JNum (ofZ n))].

(** The agent of the scenario, as [new ProductionAgent("refund-agent")]
    leaves things: its policy loaded, its identity created. *)
Definition agent : ProductionAgent.t := {|
  ProductionAgent.agentId := "refund-agent";
  ProductionAgent.requireSignature := false;
  ProductionAgent.escalationHandler := None;
|}.

Definition noMetadata : MetadataInput.t := {|
  MetadataInput.name := None; MetadataInput.role := None;
  MetadataInput.owner := None; MetadataInput.createdAt := None;
  MetadataInput.createdBy := None; MetadataInput.tags := None;
|}.

Definition world : World :=
  snd (@IdentitySystem.createIdentity runtime "refund-agent" noMetadata
         (setPolicies (<["refund-agent" := refundPolicy]> ∅) emptyWorld)).

(** A task that counts its runs. *)
Definition task : ProductionAgent.Executor nat :=
  fun _ runs => (ProductionAgent.Returns JUndefined, S runs).

End Sample.

(* ===================================================================== *)
(** * The specification's notions                                         *)
(* ===================================================================== *)

Module Spec.
Import PolicyEngine.

(** ** Policy evaluation in five stages (section 4.1) *)

(** A rule of the escalation stage matches by its pattern when it is a
    string, by its action pattern and condition when it is an object. *)
Definition ruleMatches (action : string) (context : JsObject)
    (rule : EscalateRule) : bool :=
  match rule with
  | RuleString pattern => matchesPattern action pattern
  | RuleObject _ _ => matchesConditional rule action context
  end.

(** The rules a policy declares in one of its three lists, in order. *)
Definition declared {A} (list_ : Policy.Permissions -> option (list A))
    (policy : Policy.t) : list A :=
  match policy.(Policy.permissions) with
  | Some permissions => default [] (list_ permissions)
  | None => []
  end.

(** What the stages decide: [allowed], [requiresEscalation] and the
    escalation rule that matched. *)
Definition evaluate (policy : option Policy.t) (action : string)
    (context : JsObject) : bool * bool * option EscalateRule :=
  match policy with
  | None => (false, false, None)
  | Some policy =>
      match find (ruleMatches action context) (declared Policy.escalate policy) with
      | Some rule => (false, true, Some rule)
      | None =>
          match find (matchesPattern action) (declared Policy.deny policy) with
          | Some _ => (false, false, None)
          | None =>
              match find (matchesPattern action) (declared Policy.allow policy) with
              | Some _ => (true, false, None)
              | None => (false, false, None)
              end
          end
      end
  end.

(** ** Conditions (section 4.1) *)

Definition supportedOperators : list string :=
  [">"; "<"; ">="; "<="; "=="; "!="].

(** A condition string that is not of the shape [<field> <op> <value>] with
    one of the six operators: the parser finds no match in it, or finds one
    whose operator is not supported. *)
Definition unrecognised (condition : string) : Prop :=
  match conditionMatch condition with
  | None => True
  | Some (_, operator, _) => operator ∉ supportedOperators
  end.






Definition verdict (d : Decision.t) : bool * bool * option EscalateRule :=
  (d.(Decision.allowed), d.(Decision.requiresEscalation), d.(Decision.escalationRule)).

(** ** The hash chain of a segment (sections 3 and 4.3) *)

Section Chain.
Context `{Runtime}.

(** The invariant of the data model on the lines of a segment: every line
    is an entry whose [hash] is the digest of its six hashed fields and
    whose [previousHash] is the [hash] of the entry before it, [previous]
    for the first one. *)
Fixpoint chainedFrom (previous : JsValue) (lines : list Line) : Prop :=
  match lines with
  | [] => True
  | Parsed entry :: rest =>
      (exists fields, entry = JObj fields)
      /\ prop "previousHash" entry = previous
      /\ prop "hash" entry = JStr (AuditLogger.hashEntry entry)
      /\ chainedFrom (prop "hash" entry) rest
  | Malformed :: _ => False
  end.

(** The [H(type, timestamp, agentId, action, decision, previousHash)] of
    the invariant as the specification words it: the SHA-256 digest, in
    hexadecimal, of the JSON text of the object that holds these six
    values under these names, in this order. *)
Definition digestOf
    (type timestamp agentId action decision previousHash : JsValue) : string :=
  sha256hex (JSON_stringify (JObj [
    ("type", type);
    ("timestamp", timestamp);
    ("agentId", agentId);
    ("action", action);
    ("decision", decision);
    ("previousHash", previousHash)
  ])).

(** A line is sealed: it is an entry whose [hash] is the digest of its own
    six fields. *)
Definition sealed (line : Line) : Prop :=
  match line with
  | Parsed entry =>
      prop "hash" entry
      = JStr (digestOf (prop "type" entry) (prop "timestamp" entry)
                (prop "agentId" entry) (prop "action" entry)
                (prop "decision" entry) (prop "previousHash" entry))
  | Malformed => False
  end.

(** A caller that writes entries one after the other. *)
Fixpoint writeEntries (entries : list JsObject) : M unit :=
  match entries with
  | [] => ret tt
  | entry :: rest => AuditLogger.writeEntry entry ;;; writeEntries rest
  end.

(** No write of the sequence finds the file above the rotation size. *)
Fixpoint neverRotates (entries : list JsObject) (w : World) : Prop :=
  match entries with
  | [] => True
  | entry :: rest =>
      fst (AuditLogger.shouldRotate w) = Ok false
      /\ neverRotates rest (snd (AuditLogger.writeEntry entry w))
  end.

End Chain.

(** The lines are linked from [previous]: the [previousHash] of each entry
    is the [hash] of the entry before it, [previous] for the first. *)
Fixpoint linkedFrom (previous : JsValue) (lines : list Line) : Prop :=
  match lines with
  | [] => True
  | Parsed entry :: rest =>
      prop "previousHash" entry = previous
      /\ linkedFrom (prop "hash" entry) rest
  | Malformed :: _ => False
  end.

(** The [hash] of the last entry of a segment, [previous] when it has none:
    what the next entry is chained to. *)
Fixpoint lastHashOf (previous : JsValue) (lines : list Line) : JsValue :=
  match lines with
  | [] => previous
  | Parsed entry :: rest => lastHashOf (prop "hash" entry) rest
  | Malformed :: rest => lastHashOf previous rest
  end.

(** A line holds an entry as written: an object with the fields of the
    entry, as JSON values, next to [previousHash] and [hash]. *)
Definition holds (entry : JsObject) (line : Line) : Prop :=
  exists stored,
    line = Parsed (JObj stored)
    /\ forall k, k <> "previousHash" -> k <> "hash" ->
         getField k stored = jsonValue (getField k entry).

(** A value a chain links with: [null] or a digest. *)
Definition hashValue (v : JsValue) : Prop := v = JNull \/ exists h, v = JStr h.

(** The fields [verifyChain] looks at: the six hashed ones and [hash]. *)
Definition hashedFields : list string :=
  ["type"; "timestamp"; "agentId"; "action"; "decision"; "previousHash"].

(** The [hash] of the entry before line [i] of a segment, [null] for the
    first line: what [verifyChain] holds in [previousHash] at line [i]. *)
Definition hashBefore (lines : list Line) (i : nat) : JsValue :=
  match i with
  | O => JNull
  | S j => match lines !! j with
           | Some (Parsed entry) => prop "hash" entry
           | _ => JNull
           end
  end.

(** Line [i] of a segment with the field [k] of its entry set to [v]. *)
Definition tamper (lines : list Line) (i : nat) (k : string) (v : JsValue)
    : list Line :=
  match lines !! i with
  | Some (Parsed (JObj fields)) => <[i := Parsed (JObj (setField k v fields))]> lines
  | _ => lines
  end.

(** Tamper evidence as the specification words it, for a runtime: in a
    segment that verifies, changing any field of any entry makes
    [verifyChain] fail. *)
Definition detectsEveryChange (runtime : Runtime) : Prop :=
  forall (file : string) (lines : list Line) (i : nat) (fields : JsObject)
         (k : string) (v : JsValue),
    AuditLogger.valid (AuditLogger.verifyLines file lines 0 JNull 0) = true ->
    lines !! i = Some (Parsed (JObj fields)) ->
    getField k fields <> JUndefined ->
    v <> getField k fields ->
    AuditLogger.valid (AuditLogger.verifyLines file (tamper lines i k v) 0 JNull 0)
    = false.

(** ** Identities (section 4.2) *)


(** The agent has an identity, and it is revoked. *)
Definition isRevoked (agentId : string) (w : World) : Prop :=
  exists identity,
    w.(identities) !! agentId = Some identity
    /\ identity.(Identity.status) = revoked.

(** The methods of [IdentitySystem] that change its state, as calls. *)
Inductive Call :=
  | CreateIdentity (agentId : string) (metadata : MetadataInput.t)
  | VerifyIdentity (agentId : string) (credentials : Credentials.t)
  | IncrementTrustScore (agentId : string) (amount : Z) (reason : string)
  | DecrementTrustScore (agentId : string) (amount : Z) (reason : string)
  | RevokeIdentity (agentId reason : string)
  | UpdateMetadata (agentId : string) (updates : MetadataInput.t)
  | RotateKeypair (agentId : string).

Section Calls.
Context `{Runtime}.

(** The world after a call, whether it returned or threw. *)
Definition after (call : Call) (w : World) : World :=
  match call with
  | CreateIdentity agentId metadata =>
      snd (IdentitySystem.createIdentity agentId metadata w)
  | VerifyIdentity agentId credentials =>
      snd (IdentitySystem.verifyIdentity agentId credentials w)
  | IncrementTrustScore agentId amount reason =>
      snd (IdentitySystem.incrementTrustScore agentId amount reason w)
  | DecrementTrustScore agentId amount reason =>
      snd (IdentitySystem.decrementTrustScore agentId amount reason w)
  | RevokeIdentity agentId reason =>
      snd (IdentitySystem.revokeIdentity agentId reason w)
  | UpdateMetadata agentId updates =>
      snd (IdentitySystem.updateMetadata agentId updates w)
  | RotateKeypair agentId =>
      snd (IdentitySystem.rotateKeypair agentId w)
  end.

Definition afterAll (calls : list Call) (w : World) : World :=
  fold_left (fun w call => after call w) calls w.

(** The entries written while a computation runs. *)
Definition emittedBy {A} (m : M A) (w : World) : list JsObject :=
  drop (length w.(emitted)) (snd (m w)).(emitted).

End Calls.

Definition isIdentityVerification (entry : JsObject) : Prop :=
  getField "type" entry = JStr "identity_verification".

(** The one case in which [verifyIdentity] revokes: an active identity, a
    signature and a message supplied, the signature rejected, and a trust
    score of at most 10 to lose 10 from. *)
Definition revokedByBadSignature `{Runtime} (agentId : string)
    (credentials : Credentials.t) (w : World) : Prop :=
  exists identity,
    w.(identities) !! agentId = Some identity
    /\ identity.(Identity.status) = active
    /\ truthy credentials.(Credentials.signature) = true
    /\ truthy credentials.(Credentials.message) = true
    /\ rsaVerify identity.(Identity.publicKey) credentials.(Credentials.message)
         credentials.(Credentials.signature) = false
    /\ IdentitySystem.getTrustScore agentId w <= 10.

(** The claim of one entry per call, for a runtime. *)
Definition identityVerifications (entries : list JsObject) : list JsObject :=
  List.filter
    (fun entry => strictEq (getField "type" entry) (JStr "identity_verification"))
    entries.

Definition emitsExactlyOne (runtime : Runtime) : Prop :=
  forall agentId credentials w,
    length (identityVerifications
              (emittedBy (IdentitySystem.verifyIdentity agentId credentials) w))
    = 1%nat.

End Spec.

(* ===================================================================== *)
(** * A segment written on the sample runtime                             *)
(* ===================================================================== *)

Module Segment.

Definition refund (n : Z) : JsObject :=
  [("type", JStr "agent_action");
   ("timestamp", JStr "2023-11-14T22:13:20.000Z");
   ("agentId", JStr "refund-agent");
   ("action", JStr "refund");
   ("details", JObj (Sample.amount n))].

Definition entries : list JsObject := [refund 300; refund 700].

(** The world after the two entries were written to an empty log. *)
Definition world : World :=
  snd (@Spec.writeEntries Sample.runtime entries Sample.emptyWorld).

Definition file : string := Sample.freshLogger.(currentLogFile).

Definition lines : list Line :=
  Eval vm_compute in default [] (world.(auditFiles) !! file).

(** The first line of the segment. *)
Definition first : JsObject :=
  Eval vm_compute in
    match lines with
    | Parsed (JObj fields) :: _ => fields
    | _ => []
    end.

End Segment.

(** Two agents of one process on the default audit path, as
    [ProductionAgent.initialize] sets up each of them: each has an
    [AuditLogger] of its own, and both were constructed while the log was
    empty, so that both hold a [lastHash] of [null].  The logger of the
    first agent writes a refund; then the logger of the second agent
    writes one to the same file. *)
Module SharedLog.

Definition support (n : Z) : JsObject :=
  [("type", JStr "agent_action");
   ("timestamp", JStr "2023-11-14T22:13:21.000Z");
   ("agentId", JStr "support-agent");
   ("action", JStr "refund");
   ("details", JObj (Sample.amount n))].

(** The write of the first logger, whose fields the empty world holds. *)
Definition first : Outcome JsObject * World :=
  @AuditLogger.writeEntry Sample.runtime (Segment.refund 300) Sample.emptyWorld.

(** The write of the second logger: the same files, its own fields. *)
Definition second : Outcome JsObject * World :=
  @AuditLogger.writeEntry Sample.runtime (support 700)
    (setLogger Sample.freshLogger (snd first)).

Definition world : World := snd second.

End SharedLog.

(* ===================================================================== *)
(** * Frames: what a call leaves alone                                    *)
(* ===================================================================== *)

(** [logsOnly w w' es]: from [w] to [w'] only the clock, the audit files
    and the logger moved, and the entries [es] were written. *)
Definition logsOnly (w w' : World) (es : list JsObject) : Prop :=
  w'.(identities) = w.(identities)
  /\ w'.(trustScores) = w.(trustScores)
  /\ w'.(policies) = w.(policies)
  /\ w'.(identityFiles) = w.(identityFiles)
  /\ w'.(keysGenerated) = w.(keysGenerated)
  /\ w'.(emitted) = w.(emitted) ++ es.

(** The identity map after an assignment to a property of an agent's
    identity object. *)
Definition assigned (agentId : string) (f : Identity.t -> Identity.t)
    (m : gmap string Identity.t) : gmap string Identity.t :=
  match m !! agentId with
  | Some identity => <[agentId := f identity]> m
  | None => m
  end.

(** The world after [saveStored]: only the identity store moved. *)
Definition stored (agentId : string) (w : World) : World :=
  match w.(identities) !! agentId with
  | Some identity =>
      setIdentityFiles (<[Identity.agentId identity := identity]> w.(identityFiles)) w
  | None => w
  end.

(** How the task of a call ends, and its state after it; a call without a
    task goes on as one whose task returned [undefined]. *)
Definition completion {T} (executor : option (ProductionAgent.Executor T))
    (context : JsObject) (ext : T) : ProductionAgent.Completion * T :=
  match executor with
  | Some task => task context ext
  | None => (ProductionAgent.Returns JUndefined, ext)
  end.

(** The run of the task as [execute] sees it: whether the task returned,
    its output, the [message] read from what it threw ([undefined] when
    there is none to read), and the task's state after it. *)
Definition runExecutor_result {T} (executor : option (ProductionAgent.Executor T))
    (context : JsObject) (ext : T) : (bool * JsValue * JsValue) * T :=
  match completion executor context ext with
  | (ProductionAgent.Returns output, ext') => ((true, output, JUndefined), ext')
  | (ProductionAgent.Throws error, ext') =>
      ((false, JUndefined,
        match ProductionAgent.messageOf error with
        | Ok message => message
        | Throw _ => JUndefined
        end), ext')
  end.

(* ===================================================================== *)
(** * audit-logger.js: queries                                            *)
(* ===================================================================== *)

(** ** Paths

    A file of the audit directory is known by its path.  [path.dirname] and
    [path.basename] take a path apart; joining the directory of a file and
    its name gives the path back, which is what [getLogFiles] does with the
    names it read from the directory. *)
Class Paths := {
  dirname : string -> string;
  basename : string -> string;
}.

Module AuditQueries.

(** [entry.k] on what [JSON.parse] returned; reading a property of [null]
    throws a [TypeError], here [None]. *)
Definition read (k : string) (entry : JsValue) : option JsValue :=
  match entry with
  | JNull | JUndefined => None
  | _ => Some (prop k entry)
  end.

(** [ToPrimitive]: a plain object converts to the string
    ["[object Object]"]. *)
Definition toPrimitive (v : JsValue) : JsValue :=
  match v with
  | JObj _ => JStr "[object Object]"
  | _ => v
  end.

(** [a < b]: two strings compare by code units, anything else as
    Numbers. *)
Definition lessThan (a b : JsValue) : bool :=
  match toPrimitive a, toPrimitive b with
  | JStr x, JStr y => String.ltb x y
  | x, y => lt (toNumber x) (toNumber y)
  end.

(** [if (test) return false;] before the rest of the function; a test that
    throws ends it. *)
Definition unless (test : option bool) (rest : option bool) : option bool :=
  match test with
  | None => None
  | Some true => Some false
  | Some false => rest
  end.

(** [filters.k && entry.k !== filters.k] *)
Definition differs (k : string) (entry : JsValue) (filters : JsObject)
    : option bool :=
  if truthy (getField k filters) then
    match read k entry with
    | Some v => Some (negb (strictEq v (getField k filters)))
    | None => None
    end
  else Some false.

(** [entry.decision?.allowed] *)
Definition decisionAllowed (entry : JsValue) : option JsValue :=
  match read "decision" entry with
  | Some (JNull | JUndefined) => Some JUndefined
  | Some decision => Some (prop "allowed" decision)
  | None => None
  end.

(** [matchesFilters(entry, filters)]; [None] when it throws. *)
Definition matchesFilters (entry : JsValue) (filters : JsObject) : option bool :=
  unless (differs "agentId" entry filters)
  (unless (differs "type" entry filters)
  (unless (differs "action" entry filters)
  (unless (if truthy (getField "startTime" filters) then
             match read "timestampUnix" entry with
             | Some t => Some (lessThan t (getField "startTime" filters))
             | None => None
             end
           else Some false)
  (unless (if truthy (getField "endTime" filters) then
             match read "timestampUnix" entry with
             | Some t => Some (lessThan (getField "endTime" filters) t)
             | None => None
             end
           else Some false)
  (if negb (strictEq (getField "allowed" filters) JUndefined) then
     unless (match decisionAllowed entry with
             | Some allowed =>
                 Some (negb (strictEq allowed (getField "allowed" filters)))
             | None => None
             end)
            (Some true)
   else Some true))))).

(** The entries of one file that [query] keeps: a line that does not parse,
    or on which [matchesFilters] throws, is skipped. *)
Definition matching (filters : JsObject) (lines : list Line) : list JsValue :=
  flat_map (fun line =>
              match line with
              | Parsed entry =>
                  match matchesFilters entry filters with
                  | Some true => [entry]
                  | _ => []
                  end
              | Malformed => []
              end)
           lines.

(** The order of [Array.prototype.sort] on strings. *)
Definition codeUnitOrder (a b : string) : Prop := String.leb a b = true.

Definition codeUnitOrder_dec (a b : string) : Decision (codeUnitOrder a b) :=
  decide (String.leb a b = true).

Section WithPaths.
Context `{Paths}.

(** [getLogFiles()]: the files of the directory of the current log file
    that are named [audit-*.jsonl], sorted as [Array.prototype.sort] sorts
    strings, by code units. *)
Definition isLogFile (dir : string) (file : string) : bool :=
  String.eqb (dirname file) dir
  && startsWith (basename file) "audit-"
  && endsWith (basename file) ".jsonl".

Definition getLogFiles (w : World) : list string :=
  let dir := dirname w.(logger).(currentLogFile) in
  @merge_sort string codeUnitOrder codeUnitOrder_dec
    (List.filter (isLogFile dir) (elements (dom w.(auditFiles)))).

(** [query(filters = {})] *)
Definition query (filters : JsObject) (w : World) : list JsValue :=
  flat_map (fun file => matching filters (default [] (w.(auditFiles) !! file)))
           (getLogFiles w).

End WithPaths.
End AuditQueries.

(* ===================================================================== *)
(** * policy-engine.js: loading the policies                              *)
(* ===================================================================== *)

Module PolicyFiles.

(** A file of the policy directory, as [yaml.load] reads it: a document
    with its [agent] and [permissions]; or what makes the loop throw before
    it looks at [policy.agent] (a file that cannot be read or parsed, a
    document that is empty), with the message of the error. *)
Inductive PolicyFile :=
  | Unreadable (message : string)
  | Document (agent : option string) (permissions : option Policy.Permissions).

Definition isPolicyFile (file : string) : bool :=
  endsWith file ".yaml" || endsWith file ".yml".

(** The loop of [loadPolicies]; what is thrown in it is logged and thrown
    again. *)
Fixpoint loadFiles (policyFiles : list (string * PolicyFile)) : M unit :=
  match policyFiles with
  | [] => ret tt
  | (file, content) :: rest =>
      match content with
      | Unreadable message => throw message
      | Document agent permissions =>
          match PolicyEngine.present agent with
          | None =>
              throw ("Policy file " +:+ file +:+ " missing required 'agent' field")
          | Some agent =>
              modify (fun w =>
                setPolicies
                  (<[agent := {| Policy.agent := agent;
                                 Policy.permissions := permissions |}]>
                     w.(policies)) w) ;;;
              loadFiles rest
          end
      end
  end.

(** [loadPolicies()], on what [fs.readdirSync(this.policyPath)] gives: the
    files of the directory in its order, or an error. *)
Definition loadPolicies (directory : Outcome (list (string * PolicyFile)))
    : M unit :=
  match directory with
  | Throw message => throw message
  | Ok files => loadFiles (List.filter (fun f => isPolicyFile (fst f)) files)
  end.

(** [reloadPolicies()] *)
Definition reloadPolicies (directory : Outcome (list (string * PolicyFile)))
    : M unit :=
  modify (fun w => setPolicies ∅ w) ;;;
  loadPolicies directory.

(** [getPolicyFor(agentId)] *)
Definition getPolicyFor (agentId : string) (w : World) : option Policy.t :=
  w.(policies) !! agentId.

(** The agent a file declares, when it is a document that loads. *)
Definition declares (content : PolicyFile) : option Policy.t :=
  match content with
  | Unreadable _ => None
  | Document agent permissions =>
      match PolicyEngine.present agent with
      | Some agent => Some {| Policy.agent := agent;
                              Policy.permissions := permissions |}
      | None => None
      end
  end.

(** The policies the files of a directory declare, in its order. *)
Definition documents (files : list (string * PolicyFile)) : list Policy.t :=
  omap (fun file => if isPolicyFile (fst file) then declares (snd file) else None)
       files.

End PolicyFiles.

(* ===================================================================== *)
(** * identity-system.js: the identity store                              *)
(* ===================================================================== *)

Module IdentityStore.

(** What [getIdentity] returns: the identity without its private key. *)
Record View := {
  agentId : string;
  publicKey : string;
  metadata : Identity.Metadata;
  status : Status;
  trustScore : Z;
  lastVerified : option string;
  verificationCount : nat;
}.

(** [getIdentity(agentId)]; [None] is [null]. *)
Definition getIdentity (agentId : string) (w : World) : option View :=
  match w.(identities) !! agentId with
  | None => None
  | Some identity =>
      Some {| agentId := identity.(Identity.agentId);
              publicKey := identity.(Identity.publicKey);
              metadata := identity.(Identity.metadata);
              status := identity.(Identity.status);
              trustScore := IdentitySystem.getTrustScore agentId w;
              lastVerified := identity.(Identity.lastVerified);
              verificationCount := length identity.(Identity.verificationHistory) |}
  end.

(** [identity.trustScore || 100] *)
Definition loadedScore (identity : Identity.t) : Z :=
  if identity.(Identity.trustScore) =? 0 then 100
  else identity.(Identity.trustScore).

(** The loop of [loadIdentities] over the files of the store. *)
Definition loadFiles (files : list (string * Identity.t)) (w : World) : World :=
  fold_left
    (fun w file =>
       let identity := snd file in
       setTrustScores
         (<[identity.(Identity.agentId) := loadedScore identity]> w.(trustScores))
         (setIdentities
            (<[identity.(Identity.agentId) := identity]> w.(identities)) w))
    files w.

(** A listing of the store, as [fs.readdirSync] gives it: the files of the
    store, each once, in some order. *)
Definition lists (listing : list (string * Identity.t)) (w : World) : Prop :=
  listing ≡ₚ map_to_list w.(identityFiles).

(** [loadIdentities()], on the listing of the store. *)
Definition loadIdentities (listing : list (string * Identity.t)) : M unit :=
  modify (loadFiles listing).

(** [new IdentitySystem(identityStorePath, auditLogger)] *)
Definition construct (listing : list (string * Identity.t)) : M unit :=
  modify (fun w => setTrustScores ∅ (setIdentities ∅ w)) ;;;
  loadIdentities listing.

(** Every identity in memory is the one on file, under the agent's name. *)
Definition persisted (w : World) : Prop :=
  w.(identityFiles) = w.(identities)
  /\ forall agentId identity,
       w.(identities) !! agentId = Some identity ->
       identity.(Identity.agentId) = agentId.

End IdentityStore.

(* ===================================================================== *)
(** * production-agent.js: set-up and history                             *)
(* ===================================================================== *)

Module AgentSetup.

(** The fields of [this.options] that [ensureIdentity] reads. *)
Record Options := {
  autoCreateIdentity : bool;
  name : option string;
  role : option string;
  owner : option string;
}.

Section WithRuntime.
Context `{Runtime}.

(** [ensureIdentity()] *)
Definition ensureIdentity (self : ProductionAgent.t) (options : Options)
    : M unit :=
  identity <- gets (IdentityStore.getIdentity self.(ProductionAgent.agentId)) ;;
  match identity with
  | Some _ => ret tt
  | None =>
      if options.(autoCreateIdentity) then
        IdentitySystem.createIdentity self.(ProductionAgent.agentId)
          {| MetadataInput.name :=
               Some (default self.(ProductionAgent.agentId)
                       (PolicyEngine.present options.(name)));
             MetadataInput.role :=
               Some (default "agent" (PolicyEngine.present options.(role)));
             MetadataInput.owner := options.(owner);
             MetadataInput.createdAt := None;
             MetadataInput.createdBy := Some "auto";
             MetadataInput.tags := None |} ;;;
        ret tt
      else
        throw ("No identity found for agent "
               +:+ self.(ProductionAgent.agentId)
               +:+ " and autoCreateIdentity is false")
  end.

End WithRuntime.

(** The own properties of an object, each once, in order. *)
Fixpoint ownEntries (seen : list string) (o : JsObject) : JsObject :=
  match o with
  | [] => []
  | (k, v) :: o' =>
      if bool_decide (k ∈ seen) then ownEntries seen o'
      else (k, v) :: ownEntries (k :: seen) o'
  end.

(** [{...target, ...source}] *)
Definition spread (target source : JsObject) : JsObject :=
  fold_left (fun o kv => setField (fst kv) (snd kv) o) (ownEntries [] source) target.

Section WithPaths.
Context `{Paths}.

(** [getAuditHistory(filters = {})] *)
Definition getAuditHistory (self : ProductionAgent.t) (filters : JsObject)
    (w : World) : list JsValue :=
  AuditQueries.query
    (spread [("agentId", JStr self.(ProductionAgent.agentId))] filters) w.

End WithPaths.

(** [getPolicy()], [getIdentity()] and [getTrustScore()] *)
Definition getPolicy (self : ProductionAgent.t) (w : World) : option Policy.t :=
  PolicyFiles.getPolicyFor self.(ProductionAgent.agentId) w.

Definition getIdentity (self : ProductionAgent.t) (w : World)
    : option IdentityStore.View :=
  IdentityStore.getIdentity self.(ProductionAgent.agentId) w.

Definition getTrustScore (self : ProductionAgent.t) (w : World) : Z :=
  IdentitySystem.getTrustScore self.(ProductionAgent.agentId) w.

End AgentSetup.

(* ===================================================================== *)
(** * More data to run the model on                                       *)
(* ===================================================================== *)

Module Scenario.

(** Paths with [/] as separator. *)
Definition notSlash (c : ascii) : bool := negb (code c =? 47)%N.

Definition paths : Paths := {|
  basename := fun p => str (rev (fst (span notSlash (rev (chars p)))));
  dirname := fun p =>
    match snd (span notSlash (rev (chars p))) with
    | [] => "."
    | _ :: directory => str (rev directory)
    end;
|}.

Definition withLogger (rotationSize : Z) (chain : bool) (w : World) : World :=
  setLogger {| logPath := w.(logger).(logPath);
               rotationSizeMB := rotationSize;
               enableChainValidation := chain;
               currentLogFile := w.(logger).(currentLogFile);
               lastHash := w.(logger).(lastHash) |} w.

(** A logger constructed with [enableChainValidation: false]. *)
Definition unchained : World := withLogger 100 false Sample.emptyWorld.

(** The sample segment under a logger that rotates any file that is not
    empty. *)
Definition rotating : World := withLogger 0 true Segment.world.


(** A policy directory: two files for the same agent, and notes. *)
Definition readOnly : option Policy.Permissions :=
  Some {| Policy.allow := Some ["read:*"]; Policy.deny := None;
          Policy.escalate := None |}.

Definition directory : list (string * PolicyFiles.PolicyFile) :=
  [("refund-agent.yaml",
    PolicyFiles.Document (Some "refund-agent")
      Sample.refundPolicy.(Policy.permissions));
   ("NOTES.txt", PolicyFiles.Unreadable "not a policy");
   ("override.yml", PolicyFiles.Document (Some "refund-agent") readOnly)].

(** A document that names no agent. *)
Definition nameless : PolicyFiles.PolicyFile := PolicyFiles.Document None readOnly.

(** The first refund of the sample segment, written to an empty log. *)
Definition written : JsObject * World :=
  match @AuditLogger.writeEntry Sample.runtime (Segment.refund 300)
          Sample.emptyWorld with
  | (Ok entry, w) => (entry, w)
  | (Throw _, w) => ([], w)
  end.

End Scenario.

(* ===================================================================== *)
(** * Properties                                                          *)
(* ===================================================================== *)

Section StringFacts.
Import JS.

Lemma chars_app (a b : string) : chars (a +:+ b) = chars a ++ chars b.
Proof. induction a as [|c a IH]; simpl; [done | by rewrite IH]. Qed.

Lemma str_chars (s : string) : str (chars s) = s.
Proof. apply string_of_list_ascii_of_string. Qed.

Lemma chars_str (l : list ascii) : chars (str l) = l.
Proof. apply list_ascii_of_string_of_list_ascii. Qed.

Lemma chars_inj (a b : string) : chars a = chars b -> a = b.
Proof. intros E. rewrite <- (str_chars a), <- (str_chars b). by rewrite E. Qed.

Lemma str_app (k l : list ascii) : str (k ++ l) = str k +:+ str l.
Proof. apply chars_inj. by rewrite chars_app, !chars_str. Qed.

Lemma startsWith_spec (s p : string) :
  startsWith s p = true <-> exists u, s = p +:+ u.
Proof.
  unfold startsWith. rewrite bool_decide_eq_true. split.
  - intros [k Hk]. exists (str k). apply chars_inj.
    by rewrite chars_app, chars_str.
  - intros [u ->]. exists (chars u). apply chars_app.
Qed.

Lemma endsWith_spec (s p : string) :
  endsWith s p = true <-> exists u, s = u +:+ p.
Proof.
  unfold endsWith. rewrite bool_decide_eq_true. split.
  - intros [k Hk]. exists (str k). apply chars_inj.
    by rewrite chars_app, chars_str.
  - intros [u ->]. exists (chars u). apply chars_app.
Qed.

Lemma slice_drop_last (q : string) (c : ascii) :
  slice (q +:+ String c "") 0 (Some (-1)) = q.
Proof.
  unfold slice. rewrite chars_app. change (chars (String c "")) with [c].
  rewrite length_app. cbn [length].
  assert (q = "" \/ (0 < length (chars q))%nat) as [-> | Hpos].
  { destruct q; [by left | right; simpl; lia]. }
  { reflexivity. }
  replace (0 <? 0) with false by done.
  replace (-1 <? 0) with true by done.
  rewrite Z.min_l, Z.max_l by lia.
  destruct (Z.leb_spec (Z.of_nat (length (chars q) + 1) + -1) 0); [lia |].
  replace (Z.to_nat (Z.of_nat (length (chars q) + 1) + -1 - 0))
    with (length (chars q)) by lia.
  change (Z.to_nat 0) with 0%nat. rewrite drop_0, take_app_length.
  apply str_chars.
Qed.

Lemma slice_drop_first (q : string) (c : ascii) :
  slice (String c q) 1 None = q.
Proof.
  unfold slice. change (chars (String c q)) with (c :: chars q).
  cbn [length].
  assert (q = "" \/ (0 < length (chars q))%nat) as [-> | Hpos].
  { destruct q; [by left | right; simpl; lia]. }
  { reflexivity. }
  replace (1 <? 0) with false by done.
  rewrite Z.min_l by lia.
  destruct (Z.leb_spec (Z.of_nat (S (length (chars q)))) 1); [lia |].
  change (Z.to_nat 1) with 1%nat. change (drop 1 (c :: chars q)) with (chars q).
  replace (Z.to_nat (Z.of_nat (S (length (chars q))) - 1))
    with (length (chars q)) by lia.
  rewrite firstn_all. apply str_chars.
Qed.

End StringFacts.

(* ===================================================================== *)
(** * Pattern matching (policy-engine.js, matchesPattern)                 *)
(* ===================================================================== *)

Section PatternFacts.
Import JS PolicyEngine.

Lemma matchesPattern_trailing (action q : string) :
  matchesPattern action (q +:+ "*") = true <->
  action = q +:+ "*" \/ q = "" \/ exists r, action = q +:+ r.
Proof.
  unfold matchesPattern.
  assert (endsWith (q +:+ "*") "*" = true) as -> by (apply endsWith_spec; eauto).
  rewrite slice_drop_last.
  destruct (String.eqb_spec action (q +:+ "*")) as [->|Hne]; [tauto|].
  destruct (String.eqb_spec (q +:+ "*") "*") as [Hs|Hns].
  - split; [intros _|done]. right; left.
    destruct q as [|c q]; [done|]. destruct q; simpl in Hs; discriminate.
  - rewrite startsWith_spec. split; [tauto|].
    intros [?|[->|?]]; done.
Qed.

Lemma matchesPattern_leading (action pattern : string) :
  endsWith pattern "*" = false ->
  matchesPattern action pattern = true <->
  action = pattern \/ exists q, pattern = "*" +:+ q /\ exists r, action = r +:+ q.
Proof.
  intros Hend. unfold matchesPattern. rewrite Hend.
  destruct (String.eqb_spec action pattern) as [->|Hne]; [tauto|].
  destruct (String.eqb_spec pattern "*") as [->|Hns]; [done|].
  destruct (startsWith pattern "*") eqn:Hst.
  - apply startsWith_spec in Hst as [q ->]. change ("*" +:+ q) with (String "*" q).
    rewrite slice_drop_first, endsWith_spec. split.
    + intros [r ->]. right. exists q. eauto.
    + intros [?|(q' & Hq & r & ->)]; [done|].
      change ("*" +:+ q') with (String "*" q') in Hq.
      injection Hq as <-. eauto.
  - split; [done|]. intros [?|(q & -> & _)]; [done|].
    assert (startsWith ("*" +:+ q) "*" = true) as E by (apply startsWith_spec; eauto).
    congruence.
Qed.

(** C5.  [matchesPattern action pattern] is [true] exactly when the pattern
    equals the action, or the pattern is the lone wildcard, or the pattern
    ends with the wildcard and the action starts with the pattern minus that
    trailing wildcard, or (the trailing-wildcard test being taken first, so
    only for a pattern that does not end with the wildcard) the pattern
    starts with the wildcard and the action ends with the pattern minus that
    leading wildcard; the four sample calls of the specification evaluate as
    it says. *)
Theorem matchesPattern_characterisation :
  (forall action pattern : string,
      matchesPattern action pattern = true <->
      pattern = action
      \/ pattern = "*"
      \/ (exists q, pattern = q +:+ "*" /\ exists r, action = q +:+ r)
      \/ ((forall q, pattern <> q +:+ "*")
          /\ exists q, pattern = "*" +:+ q /\ exists r, action = r +:+ q))
  /\ matchesPattern "read:customer_data" "read:*" = true
  /\ matchesPattern "anything:public" "*:public" = true
  /\ matchesPattern "x:y" "*" = true
  /\ matchesPattern "write:x" "read:*" = false.
Proof.
  split; [|by vm_compute].
  intros action pattern.
  destruct (endsWith pattern "*") eqn:Hend.
  - apply endsWith_spec in Hend as [q ->].
    rewrite matchesPattern_trailing. split.
    + intros [->|[->|Hr]]; [by left | by right; left |].
      right; right; left. eauto.
    + intros [<-|[Hs|[(q' & Hq & r & ->)|[Hno _]]]].
      * by left.
      * right; left. destruct q as [|c q]; [done|].
        destruct q; simpl in Hs; discriminate.
      * right; right. exists r.
        assert (q' = q) as -> ; [|done].
        apply chars_inj.
        apply (f_equal chars) in Hq. rewrite !chars_app in Hq.
        by apply app_inj_tail in Hq as [? _].
      * by destruct (Hno q).
  - rewrite (matchesPattern_leading _ _ Hend). split.
    + intros [->|Hq]; [by left|].
      right; right; right. split; [|done].
      intros q ->.
      assert (endsWith (q +:+ "*") "*" = true) as E by (apply endsWith_spec; eauto).
      congruence.
    + intros [<-|[->|[(q & -> & _)|[_ Hq]]]]; [by left | done | | by right].
      assert (endsWith (q +:+ "*") "*" = true) as E by (apply endsWith_spec; eauto).
      congruence.
Qed.

End PatternFacts.

(* ===================================================================== *)
(** * The audit logger writes, and touches nothing else                   *)
(* ===================================================================== *)

Lemma logsOnly_refl w : logsOnly w w [].
Proof. unfold logsOnly. by rewrite app_nil_r. Qed.

Lemma logsOnly_trans w1 w2 w3 es1 es2 :
  logsOnly w1 w2 es1 -> logsOnly w2 w3 es2 -> logsOnly w1 w3 (es1 ++ es2).
Proof.
  unfold logsOnly. intros (?&?&?&?&?&?) (?&?&?&?&?&?).
  rewrite app_assoc. repeat split; congruence.
Qed.

Section LoggerFacts.
Context `{Runtime}.
Import AuditLogger.

Lemma logsOnly_now w : logsOnly w (snd (now w)) [].
Proof. unfold logsOnly. cbn. by rewrite app_nil_r. Qed.

Lemma getField_setField_ne k k' v o :
  k <> k' -> getField k (setField k' v o) = getField k o.
Proof.
  intros Hne. induction o as [|[k0 v0] o IH]; cbn.
  - destruct (String.eqb_spec k k'); congruence.
  - destruct (String.eqb_spec k' k0) as [->|]; cbn.
    + destruct (String.eqb_spec k k0); congruence.
    + destruct (String.eqb_spec k k0); congruence.
Qed.

Lemma getField_setField_eq k v o : getField k (setField k v o) = v.
Proof.
  induction o as [|[k0 v0] o IH]; cbn.
  - by rewrite String.eqb_refl.
  - destruct (String.eqb_spec k k0) as [->|Hne]; cbn.
    + by rewrite String.eqb_refl.
    + destruct (String.eqb_spec k k0); congruence.
Qed.

(** [writeEntry] never throws: it rotates only a file that exists. *)
Lemma writeEntry_logs entry w :
  exists entry' w',
    writeEntry entry w = (Ok entry', w')
    /\ logsOnly w w' [entry']
    /\ forall k, k <> "previousHash" -> k <> "hash" ->
         getField k entry' = getField k entry.
Proof.
  unfold writeEntry, bind, shouldRotate, gets, rotateLogFile, renameSync,
    getCurrentLogFile, updateLogger, appendFileSync, modify, ret, now.
  cbn.
  assert (forall e w0 es,
            emitted w0 = emitted w ++ es -> w0.(identities) = w.(identities) ->
            w0.(trustScores) = w.(trustScores) -> w0.(policies) = w.(policies) ->
            w0.(identityFiles) = w.(identityFiles) ->
            w0.(keysGenerated) = w.(keysGenerated) ->
            (forall k, k <> "previousHash" -> k <> "hash" ->
               getField k e = getField k entry) ->
            es = [e] ->
            exists entry' w', (Ok e, w0) = (Ok entry', w')
              /\ logsOnly w w' [entry']
              /\ forall k, k <> "previousHash" -> k <> "hash" ->
                   getField k entry' = getField k entry) as Hdone.
  { intros e w0 es ? ? ? ? ? ? ? ->. exists e, w0. by repeat split. }
  destruct (auditFiles w !! currentLogFile (logger w)) as [lines|] eqn:Hfile.
  - destruct (_ <? fileSize _); cbn; rewrite ?Hfile; cbn;
      destruct (enableChainValidation (logger w)); cbn;
      eapply Hdone; cbn; try reflexivity;
      intros k ? ?; by rewrite ?getField_setField_ne.
  - destruct (enableChainValidation (logger w)); cbn;
      eapply Hdone; cbn; try reflexivity;
      intros k ? ?; by rewrite ?getField_setField_ne.
Qed.

Lemma logsOnly_ticks w n es w' :
  logsOnly (setTicks n w) w' es -> logsOnly w w' es.
Proof. done. Qed.

Ltac log_call :=
  unfold now; cbn;
  match goal with
  | |- context [writeEntry ?e ?w] =>
      let e' := fresh "e" in
      let w' := fresh "w" in
      let Heq := fresh "Heq" in
      let Hlog := fresh "Hlog" in
      let Hty := fresh "Hty" in
      destruct (writeEntry_logs e w) as (e' & w' & Heq & Hlog & Hty);
      rewrite Heq; cbn;
      exists e', w';
      split; [reflexivity|];
      split; [exact Hlog | repeat split; by rewrite Hty]
  end.

Lemma logIdentityVerification_logs agentId verificationType verified reason score w :
  exists e w',
    logIdentityVerification agentId verificationType verified reason score w
      = (Ok tt, w')
    /\ logsOnly w w' [e]
    /\ getField "type" e = JStr "identity_verification"
    /\ getField "verificationType" e = JStr verificationType.
Proof. unfold logIdentityVerification. log_call. Qed.

Lemma logDecision_logs agentId action context decision durationMs w :
  exists e w',
    logDecision agentId action context decision durationMs w = (Ok tt, w')
    /\ logsOnly w w' [e]
    /\ getField "type" e = JStr "policy_decision"
    /\ getField "context" e = JObj (sanitizeContext context).
Proof. unfold logDecision. log_call. Qed.

Lemma logAction_logs agentId action details ok output error w :
  exists e w',
    logAction agentId action details ok output error w = (Ok tt, w')
    /\ logsOnly w w' [e]
    /\ getField "type" e = JStr "agent_action"
    /\ getField "details" e = JObj (sanitizeContext details).
Proof. unfold logAction. log_call. Qed.

Lemma logEscalation_logs agentId action context escalationReason assignedTo w :
  exists e w',
    logEscalation agentId action context escalationReason assignedTo w
      = (Ok (clock (S w.(ticks))), w')
    /\ logsOnly w w' [e]
    /\ getField "type" e = JStr "escalation"
    /\ getField "context" e = JObj (sanitizeContext context).
Proof. unfold logEscalation. log_call. Qed.

(** ** Redaction *)

Lemma setField_keys k v o :
  getField k o <> JUndefined -> map fst (setField k v o) = map fst o.
Proof.
  induction o as [|[k0 v0] o IH]; cbn; [done|].
  destruct (String.eqb_spec k k0) as [->|Hne]; cbn; [done|].
  intros Hk. by rewrite IH.
Qed.

Lemma sanitize_fold (fields : list string) (context : JsObject) (k : string) :
  getField k
    (fold_left (fun sanitized field =>
                  if truthy (getField field sanitized)
                  then setField field (JStr "[REDACTED]") sanitized
                  else sanitized)
               fields context)
    = (if bool_decide (k ∈ fields) && truthy (getField k context)
       then JStr "[REDACTED]" else getField k context)
  /\ map fst
       (fold_left (fun sanitized field =>
                     if truthy (getField field sanitized)
                     then setField field (JStr "[REDACTED]") sanitized
                     else sanitized)
                  fields context)
     = map fst context.
Proof.
  revert context.
  induction fields as [|f fields IH]; intros context; cbn [fold_left]; [done|].
  destruct (IH (if truthy (getField f context)
                then setField f (JStr "[REDACTED]") context else context))
    as [-> ->].
  destruct (decide (k = f)) as [->|Hne].
  - rewrite (bool_decide_eq_true_2 (f ∈ f :: fields)) by set_solver.
    destruct (truthy (getField f context)) eqn:Ht; cbn.
    + rewrite getField_setField_eq. cbn. rewrite andb_true_r.
      split; [by destruct (bool_decide _)|].
      apply setField_keys. intros Hu. by rewrite Hu in Ht.
    + by rewrite Ht, andb_false_r.
  - assert (bool_decide (k ∈ f :: fields) = bool_decide (k ∈ fields)) as ->.
    { apply bool_decide_ext. set_solver. }
    destruct (truthy (getField f context)) eqn:Ht; [|done].
    rewrite getField_setField_ne by done. split; [done|].
    apply setField_keys. intros Hu. by rewrite Hu in Ht.
Qed.

(** C9, as amended.  [sanitizeContext] replaces by the marker ["[REDACTED]"]
    the value of every field whose key is exactly one of password, token,
    secret, apiKey, ssn, creditCard and whose value is truthy; it leaves
    every other field as it is (a field with one of these keys and a falsy
    value included), adds no field and removes none; and the entries that
    [logDecision], [logAction] and [logEscalation] write carry the context
    so sanitized. *)
Theorem sanitizeContext_redacts (context : JsObject) (k : string) :
  (k ∈ sensitiveFields -> truthy (getField k context) = true ->
     getField k (sanitizeContext context) = JStr "[REDACTED]")
  /\ (k ∈ sensitiveFields -> truthy (getField k context) = false ->
        getField k (sanitizeContext context) = getField k context)
  /\ (k ∉ sensitiveFields ->
        getField k (sanitizeContext context) = getField k context)
  /\ map fst (sanitizeContext context) = map fst context
  /\ (forall agentId action decision durationMs w, exists e w',
        logDecision agentId action context decision durationMs w = (Ok tt, w')
        /\ w'.(emitted) = w.(emitted) ++ [e]
        /\ getField "context" e = JObj (sanitizeContext context))
  /\ (forall agentId action ok output error w, exists e w',
        logAction agentId action context ok output error w = (Ok tt, w')
        /\ w'.(emitted) = w.(emitted) ++ [e]
        /\ getField "details" e = JObj (sanitizeContext context))
  /\ (forall agentId action escalationReason assignedTo w, exists e w' id,
        logEscalation agentId action context escalationReason assignedTo w
          = (Ok id, w')
        /\ w'.(emitted) = w.(emitted) ++ [e]
        /\ getField "context" e = JObj (sanitizeContext context)).
Proof.
  destruct (sanitize_fold sensitiveFields context k) as [Hget Hkeys].
  change (fold_left _ sensitiveFields context) with (sanitizeContext context)
    in Hget, Hkeys.
  split; [|split; [|split; [|split; [|split; [|split]]]]].
  - intros Hin Ht. by rewrite Hget, Ht, bool_decide_eq_true_2.
  - intros Hin Ht. by rewrite Hget, Ht, andb_false_r.
  - intros Hin. by rewrite Hget, bool_decide_eq_false_2.
  - done.
  - intros agentId action decision durationMs w.
    destruct (logDecision_logs agentId action context decision durationMs w)
      as (e & w' & Heq & (_&_&_&_&_&Hem) & _ & Hctx).
    by exists e, w'.
  - intros agentId action ok output error w.
    destruct (logAction_logs agentId action context ok output error w)
      as (e & w' & Heq & (_&_&_&_&_&Hem) & _ & Hctx).
    by exists e, w'.
  - intros agentId action escalationReason assignedTo w.
    destruct (logEscalation_logs agentId action context escalationReason
                assignedTo w)
      as (e & w' & Heq & (_&_&_&_&_&Hem) & _ & Hctx).
    by exists e, w', (clock (S (ticks w))).
Qed.

End LoggerFacts.

(* ===================================================================== *)
(** * Policy evaluation (policy-engine.js, checkPermission)               *)
(* ===================================================================== *)

Section PolicyFacts.
Context `{Runtime}.
Import PolicyEngine Spec.

Lemma matchesRules_find action rules :
  matchesRules action rules = find (matchesPattern action) rules.
Proof.
  induction rules as [|rule rules IH]; cbn; [done|].
  by destruct (matchesPattern action rule).
Qed.

Lemma checkEscalation_find rules action context :
  match find (ruleMatches action context) rules with
  | Some rule =>
      exists d, checkEscalation rules action context = Some d
                /\ verdict d = (false, true, Some rule)
  | None => checkEscalation rules action context = None
  end.
Proof.
  induction rules as [|rule rules IH]; cbn; [done|].
  destruct rule as [pattern|ruleAction' condition]; cbn.
  - destruct (matchesPattern action pattern); [eauto | exact IH].
  - destruct (matchesConditional _ action context); [eauto | exact IH].
Qed.

Lemma logAndReturn_ok agentId action context result startTime w :
  exists e w',
    logAndReturn agentId action context result startTime w = (Ok result, w')
    /\ logsOnly w w' [e]
    /\ getField "type" e = JStr "policy_decision".
Proof.
  unfold logAndReturn, now. cbn.
  edestruct logDecision_logs as (e & w' & Heq & Hlog & Hty & _).
  rewrite Heq. cbn. exists e, w'. split; [done|]. split; [exact Hlog | done].
Qed.

(** [checkPermission] always returns, writes one [policy_decision] entry
    and decides as the five stages say. *)
Lemma checkPermission_logs agentId action context w :
  exists decision e w',
    checkPermission agentId action context w = (Ok decision, w')
    /\ logsOnly w w' [e]
    /\ getField "type" e = JStr "policy_decision"
    /\ verdict decision = evaluate (w.(policies) !! agentId) action context.
Proof.
  unfold checkPermission, now. cbn.
  assert (forall result v,
    verdict result = v ->
    exists decision e w',
      logAndReturn agentId action context result (clock (ticks w))
        (setTicks (S (ticks w)) w) = (Ok decision, w')
      /\ logsOnly w w' [e]
      /\ getField "type" e = JStr "policy_decision"
      /\ verdict decision = v)
    as Hret.
  { intros result v Hv.
    edestruct logAndReturn_ok as (e & w' & Heq & Hlog & Hty).
    exists result, e, w'. rewrite Heq. split; [done|]. split; [exact Hlog|done]. }
  destruct (policies w !! agentId) as [policy|] eqn:Hpolicy; [|by apply Hret].
  unfold evaluate, declared, rulesOf.
  destruct (Policy.permissions policy) as [permissions|]; cbn; [|by apply Hret].
  destruct (Policy.escalate permissions) as [escalateRules|]; cbn.
  - pose proof (checkEscalation_find escalateRules action context) as Hesc.
    destruct (find _ escalateRules) as [rule|].
    + destruct Hesc as (d & -> & Hd). by apply Hret.
    + rewrite Hesc.
      destruct (Policy.deny permissions) as [denyRules|]; cbn;
        rewrite ?matchesRules_find;
        [destruct (find _ denyRules); [by apply Hret|]|];
        (destruct (Policy.allow permissions) as [allowRules|]; cbn;
         rewrite ?matchesRules_find;
         [destruct (find _ allowRules)|]; by apply Hret).
  - destruct (Policy.deny permissions) as [denyRules|]; cbn;
      rewrite ?matchesRules_find;
      [destruct (find _ denyRules); [by apply Hret|]|];
      (destruct (Policy.allow permissions) as [allowRules|]; cbn;
       rewrite ?matchesRules_find;
       [destruct (find _ allowRules)|]; by apply Hret).
Qed.

Lemma find_is_Some {A} (f : A -> bool) (l : list A) (x : A) :
  x ∈ l -> f x = true -> exists y, find f l = Some y.
Proof.
  intros Hin Hf. destruct (find f l) as [y|] eqn:Hfind; [eauto|].
  apply list_elem_of_In in Hin.
  by rewrite (find_none _ _ Hfind _ Hin) in Hf.
Qed.

(** C1.  For every agent id, action and context, [checkPermission] returns
    (it never throws) and decides as the five stages of the specification
    do, [Spec.evaluate]: without a policy for the agent the action is denied
    without escalation; otherwise the first escalation rule that matches, in
    declaration order, gives [allowed: false, requiresEscalation: true] with
    that rule as [escalationRule]; otherwise the first deny rule that matches
    gives [allowed: false]; otherwise the first allow rule that matches gives
    [allowed: true]; otherwise the action is denied.  Hence a matching
    escalation rule wins over every deny and allow rule, and a matching deny
    rule over every allow rule, wherever they are declared. *)
Theorem checkPermission_five_stages (agentId action : string)
    (context : JsObject) (w : World) :
  exists decision w',
    checkPermission agentId action context w = (Ok decision, w')
    /\ verdict decision = evaluate (w.(policies) !! agentId) action context
    /\ (w.(policies) !! agentId = None ->
        decision.(Decision.allowed) = false
        /\ decision.(Decision.requiresEscalation) = false)
    /\ (forall policy, w.(policies) !! agentId = Some policy ->
        let escalates := ruleMatches action context in
        let matches := matchesPattern action in
        (* the first escalation rule that matches is returned *)
        (forall rule, find escalates (declared Policy.escalate policy) = Some rule ->
           decision.(Decision.allowed) = false
           /\ decision.(Decision.requiresEscalation) = true
           /\ decision.(Decision.escalationRule) = Some rule)
        (* escalation wins over deny and allow *)
        /\ (forall rule, rule ∈ declared Policy.escalate policy ->
              escalates rule = true ->
              decision.(Decision.allowed) = false
              /\ decision.(Decision.requiresEscalation) = true)
        (* deny wins over allow *)
        /\ (forall pattern,
              (forall rule, rule ∈ declared Policy.escalate policy ->
                 escalates rule = false) ->
              pattern ∈ declared Policy.deny policy -> matches pattern = true ->
              decision.(Decision.allowed) = false
              /\ decision.(Decision.requiresEscalation) = false)
        (* allow *)
        /\ (forall pattern,
              (forall rule, rule ∈ declared Policy.escalate policy ->
                 escalates rule = false) ->
              (forall rule, rule ∈ declared Policy.deny policy ->
                 matches rule = false) ->
              pattern ∈ declared Policy.allow policy -> matches pattern = true ->
              decision.(Decision.allowed) = true
              /\ decision.(Decision.requiresEscalation) = false)
        (* default deny *)
        /\ ((forall rule, rule ∈ declared Policy.escalate policy ->
               escalates rule = false) ->
            (forall rule, rule ∈ declared Policy.deny policy ->
               matches rule = false) ->
            (forall rule, rule ∈ declared Policy.allow policy ->
               matches rule = false) ->
            decision.(Decision.allowed) = false
            /\ decision.(Decision.requiresEscalation) = false)).
Proof.
  destruct (checkPermission_logs agentId action context w)
    as (decision & e & w' & Hrun & _ & _ & Hverdict).
  exists decision, w'. split; [done|]. split; [done|].
  destruct decision as [allowed0 reason0 escalation0 rule0].
  unfold verdict in Hverdict. cbn in *.
  assert (forall {A} (f : A -> bool) l,
            (forall x, x ∈ l -> f x = false) -> find f l = None) as Hnone.
  { intros A f l Hall. destruct (find f l) as [y|] eqn:Hfind; [|done].
    apply find_some in Hfind as [Hin Hy].
    apply list_elem_of_In in Hin. by rewrite (Hall _ Hin) in Hy. }
  split.
  - intros Hno. rewrite Hno in Hverdict. cbn in Hverdict. by injection Hverdict.
  - intros policy Hpolicy. rewrite Hpolicy in Hverdict. cbn in Hverdict.
    cbv zeta. split; [|split; [|split; [|split]]].
    + intros rule Hfind. rewrite Hfind in Hverdict.
      injection Hverdict as -> -> ->. done.
    + intros rule Hin Hm.
      destruct (find_is_Some _ _ _ Hin Hm) as [y Hy].
      rewrite Hy in Hverdict. injection Hverdict as -> -> ->. done.
    + intros pattern Hesc Hin Hm.
      rewrite (Hnone _ _ _ Hesc) in Hverdict.
      destruct (find_is_Some _ _ _ Hin Hm) as [y Hy].
      rewrite Hy in Hverdict. injection Hverdict as -> -> ->. done.
    + intros pattern Hesc Hdeny Hin Hm.
      rewrite (Hnone _ _ _ Hesc), (Hnone _ _ _ Hdeny) in Hverdict.
      destruct (find_is_Some _ _ _ Hin Hm) as [y Hy].
      rewrite Hy in Hverdict. injection Hverdict as -> -> ->. done.
    + intros Hesc Hdeny Hallow.
      rewrite (Hnone _ _ _ Hesc), (Hnone _ _ _ Hdeny), (Hnone _ _ _ Hallow)
        in Hverdict.
      injection Hverdict as -> -> ->. done.
Qed.

(** ** Conditional rules *)

Lemma evaluateCondition_unrecognised condition context :
  unrecognised condition -> evaluateCondition condition context = false.
Proof.
  unfold unrecognised, evaluateCondition.
  destruct (conditionMatch condition) as [[[field operator] valueStr]|]; [|done].
  intros Hop.
  assert (forall op, op ∈ supportedOperators -> String.eqb operator op = false)
    as Hne.
  { intros op Hin. destruct (String.eqb_spec operator op) as [->|]; done. }
  unfold supportedOperators in Hne.
  rewrite !Hne by set_solver.
  by destruct (isUndefined (get field context)).
Qed.

Lemma present_Some o s : present o = Some s <-> o = Some s /\ s <> "".
Proof.
  unfold present. destruct o as [t|]; [|naive_solver].
  destruct (String.eqb_spec t ""); naive_solver.
Qed.

Lemma matchesConditional_condition ruleAction' condition action context :
  matchesConditional (RuleObject ruleAction' condition) action context = true ->
  exists c, condition = Some c /\ c <> "" /\ evaluateCondition c context = true.
Proof.
  unfold matchesConditional. cbn.
  destruct (present ruleAction') as [pattern|];
    [destruct (matchesPattern action pattern); cbn; [|done]|];
    (destruct (present condition) as [c|] eqn:Hc; [|done];
     apply present_Some in Hc as [-> ?]; eauto).
Qed.

(** C10.  A conditional rule whose condition string is not recognised by the
    parser of [evaluateCondition] (no match of the shape
    [<field> <op> <value>], or an operator outside the six supported ones),
    or which carries no condition at all, never triggers escalation,
    whatever its action pattern and the action: [evaluateCondition] returns
    [false] on such a string, [matchesConditional] returns [false] on such a
    rule, and [checkEscalation] passes over it. *)
Theorem conditional_rule_fail_closed (ruleAction' condition : option string)
    (action : string) (context : JsObject) :
  (forall c, condition = Some c -> unrecognised c) ->
  (forall c, condition = Some c -> evaluateCondition c context = false)
  /\ matchesConditional (RuleObject ruleAction' condition) action context = false
  /\ forall rest,
       checkEscalation (RuleObject ruleAction' condition :: rest) action context
       = checkEscalation rest action context.
Proof.
  intros Hbad.
  assert (forall c, condition = Some c -> evaluateCondition c context = false)
    as Heval.
  { intros c Hc. by apply evaluateCondition_unrecognised, Hbad. }
  assert (matchesConditional (RuleObject ruleAction' condition) action context
          = false) as Hrule.
  { destruct (matchesConditional _ action context) eqn:Hm; [|done].
    apply matchesConditional_condition in Hm as (c & Hc & _ & Htrue).
    by rewrite (Heval c Hc) in Htrue. }
  split; [done|]. split; [done|].
  intros rest. cbn [checkEscalation]. by rewrite Hrule.
Qed.






End PolicyFacts.

(** The sample policy denies [delete:all]: no escalation rule matches it,
    and the deny rule [delete:*] does. *)
Lemma checkPermission_five_stages_witness :
  exists decision w',
    @PolicyEngine.checkPermission Sample.runtime "refund-agent" "delete:all" []
      Sample.world = (Ok decision, w')
    /\ decision.(Decision.allowed) = false
    /\ decision.(Decision.requiresEscalation) = false.
Proof.
  destruct (@checkPermission_five_stages Sample.runtime "refund-agent"
              "delete:all" [] Sample.world)
    as (decision & w' & Hrun & _ & _ & Hpolicy).
  exists decision, w'. split; [exact Hrun|].
  destruct (Hpolicy Sample.refundPolicy) as (_ & _ & Hdeny & _); [by vm_compute|].
  apply (Hdeny "delete:*").
  - intros rule Hin.
    change (rule ∈ [Sample.refundRule]) in Hin.
    apply list_elem_of_singleton in Hin as ->. by vm_compute.
  - change ("delete:*" ∈ ["delete:*"]). by apply list_elem_of_singleton.
  - by vm_compute.
Defined.


(** A password is redacted, the user next to it is not. *)
Lemma sanitizeContext_redacts_witness :
  let context := [("user", JStr "ada"); ("password", JStr "hunter2")] in
  getField "password" (AuditLogger.sanitizeContext context) = JStr "[REDACTED]"
  /\ getField "user" (AuditLogger.sanitizeContext context) = JStr "ada".
Proof.
  cbv zeta. split.
  - destruct (@sanitizeContext_redacts Sample.runtime
                [("user", JStr "ada"); ("password", JStr "hunter2")] "password")
      as (Hredacted & _).
    apply Hredacted; [|reflexivity].
    unfold AuditLogger.sensitiveFields. by apply list_elem_of_here.
  - destruct (@sanitizeContext_redacts Sample.runtime
                [("user", JStr "ada"); ("password", JStr "hunter2")] "user")
      as (_ & _ & Hkept & _).
    apply Hkept. unfold AuditLogger.sensitiveFields.
    rewrite !not_elem_of_cons. repeat split; try discriminate.
    apply not_elem_of_nil.
Defined.

(** A rule with the condition ["amount ~ 500"], which the parser does not
    recognise, is passed over. *)
Lemma conditional_rule_fail_closed_witness :
  PolicyEngine.matchesConditional
    (RuleObject (Some "refund") (Some "amount ~ 500")) "refund" (Sample.amount 700)
  = false.
Proof.
  apply (@conditional_rule_fail_closed Sample.runtime
           (Some "refund") (Some "amount ~ 500") "refund" (Sample.amount 700)).
  intros c [= <-]. by vm_compute.
Defined.


(** C9 as the specification words it fails on a sensitive field that holds
    a falsy value: an empty password, or a PIN of 0 under [secret], is
    logged as it is. *)
Lemma sanitizeContext_keeps_falsy_values :
  AuditLogger.sanitizeContext [("user", JStr "ada"); ("password", JStr "")]
  = [("user", JStr "ada"); ("password", JStr "")]
  /\ getField "secret"
       (AuditLogger.sanitizeContext [("secret", JNum (ofZ 0))])
     = JNum (ofZ 0)
  /\ ~ (forall (context : JsObject) (k : string),
         k ∈ AuditLogger.sensitiveFields -> getField k context <> JUndefined ->
         getField k (AuditLogger.sanitizeContext context) = JStr "[REDACTED]").
Proof.
  split; [by vm_compute|]. split; [by vm_compute|].
  intros Hclaim.
  specialize (Hclaim [("user", JStr "ada"); ("password", JStr "")] "password").
  vm_compute in Hclaim. discriminate Hclaim; [set_solver | done].
Qed.

(* ===================================================================== *)
(** * JSON values                                                         *)
(* ===================================================================== *)

Section JsonFacts.

(** Induction on values, through the properties of objects. *)
Lemma JsValue_nested_ind (P : JsValue -> Prop) :
  P JUndefined -> P JNull -> (forall b, P (JBool b)) -> (forall x, P (JNum x)) ->
  (forall s, P (JStr s)) ->
  (forall o, Forall (fun kv => P kv.2) o -> P (JObj o)) ->
  forall v, P v.
Proof.
  intros HU HN HB HX HS HO.
  fix IH 1. intros [| |b|x|s|o].
  - exact HU.
  - exact HN.
  - apply HB.
  - apply HX.
  - apply HS.
  - apply HO. induction o as [|[k w] o IHo]; constructor; [apply IH | exact IHo].
Qed.

Lemma jsonValue_obj o : jsonValue (JObj o) = JObj (jsonFields jsonValue [] o).
Proof. reflexivity. Qed.

Lemma jsonValue_undefined v : jsonValue v = JUndefined <-> v = JUndefined.
Proof.
  split; [|by intros ->].
  destruct v as [| |b|x|s|o]; try done. by destruct x.
Qed.

Lemma jsonFields_cons f seen k w o :
  jsonFields f seen ((k, w) :: o)
  = if bool_decide (k ∈ seen) then jsonFields f seen o
    else match w with
         | JUndefined => jsonFields f (k :: seen) o
         | _ => (k, f w) :: jsonFields f (k :: seen) o
         end.
Proof. reflexivity. Qed.

Lemma jsonFields_defined f seen k w o :
  k ∉ seen -> w <> JUndefined ->
  jsonFields f seen ((k, w) :: o) = (k, f w) :: jsonFields f (k :: seen) o.
Proof.
  intros Hk Hw. rewrite jsonFields_cons, bool_decide_eq_false_2 by done.
  by destruct w.
Qed.

Lemma jsonFields_skipped f seen k w o :
  k ∉ seen -> w = JUndefined ->
  jsonFields f seen ((k, w) :: o) = jsonFields f (k :: seen) o.
Proof.
  intros Hk ->. by rewrite jsonFields_cons, bool_decide_eq_false_2.
Qed.

Lemma jsonFields_seen f seen k w o :
  k ∈ seen -> jsonFields f seen ((k, w) :: o) = jsonFields f seen o.
Proof. intros Hk. by rewrite jsonFields_cons, bool_decide_eq_true_2. Qed.

(** Reading a property of the JSON value of an object. *)
Lemma getField_jsonFields seen k o :
  getField k (jsonFields jsonValue seen o)
  = if bool_decide (k ∈ seen) then JUndefined else jsonValue (getField k o).
Proof.
  revert seen. induction o as [|[k0 w] o IH]; intros seen.
  - cbn. by destruct (bool_decide _).
  - destruct (decide (k0 ∈ seen)) as [Hin|Hnin].
    + rewrite jsonFields_seen, IH by done. cbn [getField].
      destruct (decide (k ∈ seen)) as [Hk|Hk].
      * by rewrite bool_decide_eq_true_2.
      * rewrite bool_decide_eq_false_2 by done.
        destruct (String.eqb_spec k k0) as [->|]; done.
    + assert (w = JUndefined \/ w <> JUndefined) as [->|Hw]
        by (destruct w; (by left) || (by right)).
      * rewrite jsonFields_skipped, IH by done. cbn [getField].
        destruct (String.eqb_spec k k0) as [->|Hne].
        -- rewrite bool_decide_eq_true_2 by set_solver.
           by rewrite bool_decide_eq_false_2.
        -- destruct (decide (k ∈ seen)) as [Hk|Hk].
           ++ rewrite !bool_decide_eq_true_2 by set_solver. done.
           ++ rewrite !bool_decide_eq_false_2 by set_solver. done.
      * rewrite jsonFields_defined by done. cbn [getField].
        destruct (String.eqb_spec k k0) as [->|Hne].
        -- by rewrite bool_decide_eq_false_2.
        -- rewrite IH. destruct (decide (k ∈ seen)) as [Hk|Hk].
           ++ rewrite !bool_decide_eq_true_2 by set_solver. done.
           ++ rewrite !bool_decide_eq_false_2 by set_solver. done.
Qed.

Lemma undefined_or_not (w : JsValue) : w = JUndefined \/ w <> JUndefined.
Proof. destruct w; (by left) || (by right). Qed.

(** The JSON value of a JSON value is itself. *)
Lemma jsonFields_idem o :
  Forall (fun kv => jsonValue (jsonValue kv.2) = jsonValue kv.2) o ->
  forall s1 s2, s1 ⊆ s2 ->
    jsonFields jsonValue s1 (jsonFields jsonValue s2 o) = jsonFields jsonValue s2 o.
Proof.
  induction 1 as [|[k w] o Hw Ho IH]; intros s1 s2 Hsub; [done|].
  destruct (decide (k ∈ s2)) as [Hin|Hnin].
  - rewrite jsonFields_seen by done. by apply IH.
  - destruct (undefined_or_not w) as [->|Hdef].
    + rewrite jsonFields_skipped by done. apply IH. set_solver.
    + rewrite (jsonFields_defined _ s2) by done.
      rewrite jsonFields_defined; [| set_solver | by rewrite jsonValue_undefined].
      cbn in Hw. rewrite Hw. f_equal. apply IH. set_solver.
Qed.

Lemma jsonValue_idem v : jsonValue (jsonValue v) = jsonValue v.
Proof.
  induction v as [| |b|x|s|o IH] using JsValue_nested_ind; try done.
  - by destruct x.
  - rewrite !jsonValue_obj. f_equal. by apply jsonFields_idem.
Qed.

(** Reducing the properties first changes nothing. *)
Lemma jsonFields_map seen (o : JsObject) :
  jsonFields jsonValue seen (map (fun kv => (kv.1, jsonValue kv.2)) o)
  = jsonFields jsonValue seen o.
Proof.
  revert seen. induction o as [|[k w] o IH]; intros seen; [done|].
  cbn [map fst snd].
  destruct (decide (k ∈ seen)) as [Hin|Hnin].
  - by rewrite !jsonFields_seen.
  - destruct (undefined_or_not w) as [->|Hdef].
    + by rewrite !jsonFields_skipped.
    + rewrite !jsonFields_defined; [|done..|by rewrite jsonValue_undefined].
      by rewrite jsonValue_idem, IH.
Qed.

Lemma prop_jsonValue k o :
  prop k (jsonValue (JObj o)) = jsonValue (getField k o).
Proof. rewrite jsonValue_obj. cbn [prop]. by rewrite getField_jsonFields. Qed.

End JsonFacts.

(* ===================================================================== *)
(** * The hash chain (audit-logger.js, writeEntry and verifyChain)        *)
(* ===================================================================== *)

Section ChainFacts.
Context `{Runtime}.
Import AuditLogger Spec.

(** What [JSON.parse] reads back from a written line hashes as the entry
    that was written. *)
Lemma hashEntry_jsonValue o : hashEntry (jsonValue (JObj o)) = hashEntry (JObj o).
Proof.
  unfold hashEntry, JSON_stringify. rewrite !prop_jsonValue. cbn [prop].
  do 2 f_equal. rewrite !jsonValue_obj. f_equal.
  exact (jsonFields_map []
           [("type", getField "type" o); ("timestamp", getField "timestamp" o);
            ("agentId", getField "agentId" o); ("action", getField "action" o);
            ("decision", getField "decision" o);
            ("previousHash", getField "previousHash" o)]).
Qed.

(** The digest does not depend on the fields that are not hashed. *)
Lemma hashEntry_setField k v o :
  k ∉ hashedFields -> hashEntry (JObj (setField k v o)) = hashEntry (JObj o).
Proof.
  intros Hk. unfold hashEntry. cbn [prop]. unfold hashedFields in Hk.
  rewrite !getField_setField_ne by set_solver. done.
Qed.

Lemma strictEq_hashValue v : hashValue v -> strictEq v v = true.
Proof. intros [->|[h ->]]; cbn; [done | apply String.eqb_refl]. Qed.

Lemma jsonValue_hashValue v : hashValue v -> jsonValue v = v.
Proof. by intros [->|[h ->]]. Qed.

Lemma verifyLines_chained file lines i previous n :
  hashValue previous -> chainedFrom previous lines ->
  verifyLines file lines i previous n = ChainValid (n + length lines) file.
Proof.
  revert i previous n.
  induction lines as [|[entry|] lines IH]; intros i previous n Hprev Hchain.
  - cbn. by rewrite Nat.add_0_r.
  - destruct Hchain as ([fields ->] & Hp & Hh & Hrest).
    cbn [verifyLines]. rewrite Hp, (strictEq_hashValue _ Hprev). cbn [negb].
    rewrite Hh. cbn [strictEq]. rewrite String.eqb_refl. cbn [negb].
    rewrite <- Hh. rewrite IH; [| rewrite Hh; right; eauto | done].
    cbn [length]. f_equal. lia.
  - done.
Qed.

Lemma lastHashOf_snoc previous lines entry :
  lastHashOf previous (lines ++ [Parsed entry]) = prop "hash" entry.
Proof.
  revert previous. induction lines as [|[e|] lines IH]; intros previous; cbn; done.
Qed.

Lemma chainedFrom_snoc previous lines entry :
  chainedFrom previous lines ->
  (exists fields, entry = JObj fields) ->
  prop "previousHash" entry = lastHashOf previous lines ->
  prop "hash" entry = JStr (hashEntry entry) ->
  chainedFrom previous (lines ++ [Parsed entry]).
Proof.
  revert previous.
  induction lines as [|[e|] lines IH]; intros previous Hchain Hobj Hp Hh.
  - cbn. done.
  - destruct Hchain as (He & Hep & Heh & Hrest).
    cbn. repeat split; try done. by apply IH.
  - done.
Qed.

Lemma chainedFrom_lastHash previous lines :
  hashValue previous -> chainedFrom previous lines ->
  hashValue (lastHashOf previous lines).
Proof.
  revert previous.
  induction lines as [|[e|] lines IH]; intros previous Hprev Hchain; [done| |done].
  destruct Hchain as (_ & _ & Hh & Hrest). cbn.
  apply IH; [rewrite Hh; right; eauto | done].
Qed.

(** One write without rotation, chain validation on. *)
Lemma writeEntry_chained entry w :
  w.(logger).(enableChainValidation) = true ->
  fst (shouldRotate w) = Ok false ->
  let file := w.(logger).(currentLogFile) in
  let chained := setField "previousHash" w.(logger).(lastHash) entry in
  let hash := JStr (hashEntry (JObj chained)) in
  let written := setField "hash" hash chained in
  exists w',
    writeEntry entry w = (Ok written, w')
    /\ w'.(auditFiles)
       = <[file := default [] (w.(auditFiles) !! file)
                   ++ [Parsed (jsonValue (JObj written))]]> w.(auditFiles)
    /\ w'.(logger).(currentLogFile) = file
    /\ w'.(logger).(enableChainValidation) = true
    /\ w'.(logger).(lastHash) = hash.
Proof.
  intros Hon Hno. cbv zeta.
  unfold writeEntry. cbn in *.
  injection Hno as ->. cbn. rewrite Hon. cbn.
  eexists. split; [reflexivity|]. cbn. rewrite getField_setField_eq. done.
Qed.

Lemma written_line entry previous :
  hashValue previous ->
  let chained := setField "previousHash" previous entry in
  let written := setField "hash" (JStr (hashEntry (JObj chained))) chained in
  let stored := jsonValue (JObj written) in
  holds entry (Parsed stored)
  /\ (exists fields, stored = JObj fields)
  /\ prop "previousHash" stored = previous
  /\ prop "hash" stored = JStr (hashEntry (JObj chained))
  /\ prop "hash" stored = JStr (hashEntry stored).
Proof.
  intros Hprev. cbv zeta.
  set (chained := setField "previousHash" previous entry).
  set (written := setField "hash" (JStr (hashEntry (JObj chained))) chained).
  assert (prop "hash" (jsonValue (JObj written)) = JStr (hashEntry (JObj chained)))
    as Hhash.
  { rewrite prop_jsonValue. unfold written. by rewrite getField_setField_eq. }
  split; [|split; [|split; [|split]]].
  - exists (jsonFields jsonValue [] written). split; [done|].
    intros k Hp Hh. rewrite getField_jsonFields. cbn.
    unfold written, chained. by rewrite !getField_setField_ne.
  - rewrite jsonValue_obj. eauto.
  - rewrite prop_jsonValue. unfold written, chained.
    rewrite getField_setField_ne, getField_setField_eq by done.
    by apply jsonValue_hashValue.
  - done.
  - rewrite Hhash, hashEntry_jsonValue. unfold written.
    rewrite hashEntry_setField; [done|]. unfold hashedFields. set_solver.
Qed.

Lemma writeEntries_chained entries :
  forall w lines0,
    w.(logger).(enableChainValidation) = true ->
    default [] (w.(auditFiles) !! w.(logger).(currentLogFile)) = lines0 ->
    chainedFrom JNull lines0 ->
    w.(logger).(lastHash) = lastHashOf JNull lines0 ->
    neverRotates entries w ->
    exists w' new,
      writeEntries entries w = (Ok tt, w')
      /\ w'.(logger).(currentLogFile) = w.(logger).(currentLogFile)
      /\ default [] (w'.(auditFiles) !! w.(logger).(currentLogFile)) = lines0 ++ new
      /\ (entries <> [] ->
          w'.(auditFiles) !! w.(logger).(currentLogFile) = Some (lines0 ++ new))
      /\ Forall2 holds entries new
      /\ chainedFrom JNull (lines0 ++ new).
Proof.
  induction entries as [|entry rest IH]; intros w lines0 Hon Hfile Hchain Hlast Hno.
  - exists w, []. cbn. rewrite app_nil_r. by repeat split.
  - destruct Hno as [Hno Hrest].
    destruct (writeEntry_chained entry w Hon Hno)
      as (w1 & Hrun & Hfiles & Hcur & Hon1 & Hlast1).
    rewrite Hrun in Hrest. cbn [snd] in Hrest.
    assert (hashValue (lastHash (logger w))) as Hprev.
    { rewrite Hlast. by apply chainedFrom_lastHash; [left|]. }
    destruct (written_line entry _ Hprev) as (Hholds & Hobj & Hp & Hh & Hself).
    set (stored := jsonValue (JObj (setField "hash" _ _))) in *.
    assert (default [] (auditFiles w1 !! currentLogFile (logger w1))
            = lines0 ++ [Parsed stored]) as Hfile1.
    { rewrite Hcur, Hfiles, lookup_insert_eq. cbn. by rewrite Hfile. }
    destruct (IH w1 (lines0 ++ [Parsed stored]) Hon1 Hfile1)
      as (w' & new & Hrun' & Hcur' & Hfile' & Hsome & Hall & Hchain').
    { apply chainedFrom_snoc; try done. by rewrite Hp. }
    { by rewrite Hlast1, lastHashOf_snoc, Hh. }
    { done. }
    rewrite Hcur in Hcur', Hfile', Hsome.
    exists w', (Parsed stored :: new).
    cbn [writeEntries]. cbn. rewrite Hrun. cbn.
    rewrite <- app_assoc in Hfile', Hsome, Hchain'. cbn in Hfile', Hsome, Hchain'.
    repeat split; try done.
    + intros _. destruct rest as [|entry' rest'].
      * cbn in Hrun'. injection Hrun' as <-.
        apply Forall2_nil_inv_l in Hall as ->.
        by rewrite Hfiles, lookup_insert_eq, Hfile.
      * by apply Hsome.
    + by constructor.
Qed.

Lemma chainedFrom_sealed previous lines :
  chainedFrom previous lines ->
  Forall sealed lines /\ linkedFrom previous lines.
Proof.
  revert previous. induction lines as [|[entry|] lines IH]; intros previous;
    cbn [chainedFrom linkedFrom]; [by split| |done].
  intros (_ & Hp & Hh & Hrest). destruct (IH _ Hrest) as [Hall Hlinked].
  split; [|by split]. constructor; [|exact Hall]. exact Hh.
Qed.

(** C7, as amended.  A fresh segment (the current file missing or empty,
    [lastHash] null, as the constructor leaves it) written entirely through
    [writeEntry] by one logger, chain validation enabled, no write finding
    the file above the rotation size and nobody else writing to the file,
    verifies: the file holds one line per entry written, in order; every
    entry satisfies
    [hash = H(type, timestamp, agentId, action, decision, previousHash)],
    the SHA-256 digest of the JSON text of these six fields; the
    [previousHash] of each entry is the [hash] of the one before it and
    null for the first; and [verifyChain] on the segment returns
    [valid: true] with the number of entries. *)
Theorem hash_chain_round_trip (entries : list JsObject) (w : World) :
  w.(logger).(enableChainValidation) = true ->
  w.(logger).(lastHash) = JNull ->
  default [] (w.(auditFiles) !! w.(logger).(currentLogFile)) = [] ->
  entries <> [] ->
  neverRotates entries w ->
  exists w' lines,
    writeEntries entries w = (Ok tt, w')
    /\ w'.(auditFiles) !! w.(logger).(currentLogFile) = Some lines
    /\ Forall2 holds entries lines
    /\ Forall sealed lines
    /\ linkedFrom JNull lines
    /\ verifyChain None w'
       = ChainValid (length entries) w.(logger).(currentLogFile).
Proof.
  intros Hon Hlast Hfile Hne Hno.
  destruct (writeEntries_chained entries w [] Hon Hfile I Hlast Hno)
    as (w' & lines & Hrun & Hcur & _ & Hsome & Hall & Hchain).
  cbn in Hsome, Hchain. specialize (Hsome Hne).
  destruct (chainedFrom_sealed _ _ Hchain) as [Hsealed Hlinked].
  exists w', lines. repeat split; try done.
  unfold verifyChain. rewrite Hcur, Hsome.
  rewrite verifyLines_chained; [|by left|done].
  by rewrite (Forall2_length _ _ _ Hall).
Qed.

Lemma verifyLines_app file l1 l2 i previous n :
  verifyLines file (l1 ++ l2) i previous n
  = match verifyLines file l1 i previous n with
    | ChainValid n' _ =>
        verifyLines file l2 (i + length l1) (lastHashOf previous l1) n'
    | r => r
    end.
Proof.
  revert i previous n.
  induction l1 as [|[e|] l1 IH]; intros i previous n; cbn [app verifyLines].
  - cbn. by rewrite Nat.add_0_r.
  - assert (forall r : ChainResult,
              match r with ChainValid _ _ => r | ChainInvalid _ _ => r end = r)
      as Hid by (by intros []).
    destruct e as [| |b|x|s|o]; try done;
      (destruct (negb (strictEq _ previous)); [done|];
       destruct (negb (strictEq _ (JStr _))); [done|];
       rewrite IH; cbn [length lastHashOf];
       by replace (S i + length l1)%nat with (i + S (length l1))%nat by lia).
  - done.
Qed.

Lemma verifyLines_valid_count file lines i previous n n' file' :
  verifyLines file lines i previous n = ChainValid n' file' ->
  Forall (fun line => exists e, line = Parsed e) lines
  /\ n' = (n + length lines)%nat.
Proof.
  revert i previous n. induction lines as [|[e|] lines IH]; intros i previous n.
  - cbn. intros [= <- _]. split; [constructor | lia].
  - cbn [verifyLines]. intros Hv.
    assert (Forall (fun line => exists e, line = Parsed e) lines
            /\ n' = (S n + length lines)%nat) as [Hall ->].
    { destruct e as [| |b|x|s|o]; try done;
        (destruct (negb (strictEq _ previous)); [done|];
         destruct (negb (strictEq _ (JStr _))); [done|]; by eapply IH). }
    split; [constructor; eauto | cbn; lia].
  - done.
Qed.

Lemma lastHashOf_hashBefore l1 l2 :
  Forall (fun line => exists e, line = Parsed e) l1 ->
  lastHashOf JNull l1 = hashBefore (l1 ++ l2) (length l1).
Proof.
  intros Hall. destruct l1 as [|x l1 _] using rev_ind; [done|].
  apply Forall_app in Hall as [_ Hx]. apply Forall_singleton in Hx as [e ->].
  rewrite lastHashOf_snoc, length_app. cbn [length].
  replace (length l1 + 1)%nat with (S (length l1)) by lia. cbn [hashBefore].
  rewrite <- app_assoc. cbn [app].
  by rewrite (list_lookup_middle _ _ _ (length l1)).
Qed.

(** The checks [verifyChain] makes at line [i] of a segment whose lines
    before it verify. *)
Lemma verifyLines_at file lines i entry :
  lines !! i = Some (Parsed entry) ->
  valid (verifyLines file (take i lines) 0 JNull 0) = true ->
  forall entry' fields', entry' = JObj fields' ->
    verifyLines file (<[i := Parsed entry']> lines) 0 JNull 0
    = if negb (strictEq (prop "previousHash" entry') (hashBefore lines i)) then
        ChainInvalid (HashChainBroken (i + 1)) (Some entry')
      else if negb (strictEq (prop "hash" entry') (JStr (hashEntry entry'))) then
        ChainInvalid (EntryHashMismatch (i + 1)) (Some entry')
      else
        verifyLines file (drop (S i) lines) (S i) (prop "hash" entry') (S i).
Proof.
  intros Hi Hprefix entry' fields' ->.
  pose proof (lookup_lt_Some _ _ _ Hi) as Hlt.
  rewrite <- (take_drop_middle _ _ _ Hi) at 1.
  rewrite insert_app_r_alt by (rewrite length_take; lia).
  rewrite length_take, Nat.min_l, Nat.sub_diag by lia. cbn [insert list_insert].
  rewrite verifyLines_app.
  destruct (verifyLines file (take i lines) 0 JNull 0) as [n' f'|] eqn:Hv; [|done].
  destruct (verifyLines_valid_count _ _ _ _ _ _ _ Hv) as [Hall ->].
  rewrite length_take, Nat.min_l by lia. cbn [Nat.add].
  rewrite (lastHashOf_hashBefore _ (drop i lines) Hall).
  rewrite take_drop, length_take, Nat.min_l by lia.
  cbn [verifyLines]. by replace (i + 1)%nat with (S i) by lia.
Qed.

Lemma verifyLines_prefix file lines i :
  valid (verifyLines file lines 0 JNull 0) = true ->
  valid (verifyLines file (take i lines) 0 JNull 0) = true.
Proof.
  rewrite <- (take_drop i lines) at 1. rewrite verifyLines_app.
  by destruct (verifyLines file (take i lines) 0 JNull 0).
Qed.

Lemma strictEq_JStr v h : strictEq v (JStr h) = true -> v = JStr h.
Proof.
  destruct v as [| |b|x|s|o]; try done. cbn.
  by intros ->%String.eqb_eq.
Qed.

(** C2, as amended.  In a segment on which [verifyChain] returns
    [valid: true], changing one field of one entry is detected at that
    entry's line when the field is one the chain covers: a [previousHash]
    that is no longer the [hash] of the entry before it breaks the chain; a
    [hash] that is no longer the digest of the entry, or a change of [type],
    [timestamp], [agentId], [action] or [decision] that changes the digest
    (that is, short of a SHA-256 collision), is a hash mismatch.  A change
    of any other logged field (context, details, result, durationMs, ...)
    is not covered by the digest and leaves the result as it was. *)
Theorem tampering_detection (w : World) (file : string) (lines : list Line)
    (i : nat) (fields : JsObject) (k : string) (v : JsValue) :
  file <> "" ->
  w.(auditFiles) !! file = Some lines ->
  valid (verifyChain (Some file) w) = true ->
  lines !! i = Some (Parsed (JObj fields)) ->
  let entry := JObj fields in
  let entry' := JObj (setField k v fields) in
  let w' := setAuditFiles (<[file := tamper lines i k v]> w.(auditFiles)) w in
  (k = "previousHash" -> strictEq v (hashBefore lines i) = false ->
     verifyChain (Some file) w'
     = ChainInvalid (HashChainBroken (i + 1)) (Some entry'))
  /\ (k = "hash" -> strictEq v (JStr (hashEntry entry)) = false ->
        verifyChain (Some file) w'
        = ChainInvalid (EntryHashMismatch (i + 1)) (Some entry'))
  /\ (k ∈ ["type"; "timestamp"; "agentId"; "action"; "decision"] ->
        hashEntry entry' <> hashEntry entry ->
        verifyChain (Some file) w'
        = ChainInvalid (EntryHashMismatch (i + 1)) (Some entry'))
  /\ (k ∉ "hash" :: hashedFields ->
        verifyChain (Some file) w' = verifyChain (Some file) w).
Proof.
  intros Hfile Hlines Hvalid Hi. cbv zeta.
  unfold verifyChain in *. cbn [auditFiles setAuditFiles].
  destruct (String.eqb_spec file "") as [|_]; [done|].
  rewrite lookup_insert_eq. rewrite Hlines in Hvalid.
  unfold tamper. rewrite Hi.
  pose proof (verifyLines_prefix _ _ i Hvalid) as Hprefix.
  pose proof (verifyLines_at file lines i _ Hi Hprefix (JObj fields) fields eq_refl)
    as Hsame.
  rewrite list_insert_id in Hsame by done.
  rewrite (verifyLines_at file lines i _ Hi Hprefix _ _ eq_refl).
  rewrite Hsame in Hvalid. cbn [prop] in *.
  destruct (strictEq (getField "previousHash" fields) (hashBefore lines i))
    eqn:Hp; [|done].
  destruct (strictEq (getField "hash" fields) (JStr (hashEntry (JObj fields))))
    eqn:Hh; [|done].
  cbn [negb] in Hsame.
  split; [|split; [|split]].
  - intros -> Hv. by rewrite getField_setField_eq, Hv.
  - intros -> Hv.
    rewrite getField_setField_ne, Hp by done. cbn [negb].
    rewrite getField_setField_eq.
    rewrite hashEntry_setField by (unfold hashedFields; set_solver).
    by rewrite Hv.
  - intros Hk Hne.
    rewrite !getField_setField_ne by set_solver. rewrite Hp. cbn [negb].
    apply strictEq_JStr in Hh. rewrite Hh. cbn [strictEq].
    destruct (String.eqb_spec (hashEntry (JObj fields))
                (hashEntry (JObj (setField k v fields)))) as [Heq|_]; [|done].
    by rewrite Heq in Hne.
  - intros Hk. rewrite Hlines.
    rewrite !getField_setField_ne by set_solver. rewrite Hp. cbn [negb].
    rewrite hashEntry_setField by set_solver. rewrite Hh. cbn [negb].
    by rewrite Hsame.
Qed.

End ChainFacts.

(** The two refunds of the sample segment, written to an empty log and
    verified. *)
Lemma hash_chain_round_trip_witness :
  exists w' lines,
    @Spec.writeEntries Sample.runtime Segment.entries Sample.emptyWorld
    = (Ok tt, w')
    /\ w'.(auditFiles) !! Segment.file = Some lines
    /\ Forall2 Spec.holds Segment.entries lines
    /\ Forall (@Spec.sealed Sample.runtime) lines
    /\ Spec.linkedFrom JNull lines
    /\ @AuditLogger.verifyChain Sample.runtime None w'
       = AuditLogger.ChainValid 2 Segment.file.
Proof.
  apply (@hash_chain_round_trip Sample.runtime Segment.entries Sample.emptyWorld).
  - reflexivity.
  - reflexivity.
  - reflexivity.
  - discriminate.
  - vm_compute. repeat split.
Defined.

(** C7 as the specification words it fails: a segment written entirely
    through [writeEntry], chain validation enabled and without rotation,
    need not verify when two loggers write it.  In the shared log both
    writes succeed without rotating, the file holds the two entries, and
    each entry is sealed by its own hash; but the second logger chained its
    entry to its own [lastHash], which is still [null], not to the hash of
    the first entry, and [verifyChain] reports the chain broken at
    line 2.  This is so whatever the digest is: for every runtime, two
    loggers that start on an empty file break the chain with their first
    two writes. *)
Lemma two_loggers_break_the_chain :
  (exists written1 written2,
     fst SharedLog.first = Ok written1
     /\ fst SharedLog.second = Ok written2
     /\ fst (@AuditLogger.shouldRotate Sample.runtime Sample.emptyWorld)
        = Ok false
     /\ fst (@AuditLogger.shouldRotate Sample.runtime
               (setLogger Sample.freshLogger (snd SharedLog.first)))
        = Ok false
     /\ SharedLog.world.(auditFiles) !! Segment.file
        = Some [Parsed (jsonValue (JObj written1));
                Parsed (jsonValue (JObj written2))]
     /\ Forall (@Spec.sealed Sample.runtime)
          [Parsed (jsonValue (JObj written1));
           Parsed (jsonValue (JObj written2))]
     /\ getField "previousHash" written2 = JNull
     /\ getField "hash" written1 <> JNull
     /\ @AuditLogger.verifyChain Sample.runtime None SharedLog.world
        = AuditLogger.ChainInvalid (AuditLogger.HashChainBroken 2)
            (Some (jsonValue (JObj written2))))
  /\ forall (runtime : Runtime) (entry1 entry2 : JsObject) (w : World)
       (other : Logger),
       w.(logger).(enableChainValidation) = true ->
       w.(logger).(lastHash) = JNull ->
       default [] (w.(auditFiles) !! w.(logger).(currentLogFile)) = [] ->
       fst (AuditLogger.shouldRotate w) = Ok false ->
       other.(enableChainValidation) = true ->
       other.(lastHash) = JNull ->
       other.(currentLogFile) = w.(logger).(currentLogFile) ->
       let w1 := setLogger other (snd (AuditLogger.writeEntry entry1 w)) in
       fst (AuditLogger.shouldRotate w1) = Ok false ->
       exists written2,
         AuditLogger.verifyChain None (snd (AuditLogger.writeEntry entry2 w1))
         = AuditLogger.ChainInvalid (AuditLogger.HashChainBroken 2)
             (Some written2).
Proof.
  split.
  - exists (match fst SharedLog.first with Ok e => e | Throw _ => [] end),
           (match fst SharedLog.second with Ok e => e | Throw _ => [] end).
    split; [by vm_compute|]. split; [by vm_compute|].
    split; [by vm_compute|]. split; [by vm_compute|].
    split; [by vm_compute|].
    split; [repeat constructor; by vm_compute|].
    split; [by vm_compute|]. split; [by vm_compute|]. by vm_compute.
  - intros runtime entry1 entry2 w other Hon Hlast Hfile Hno Hon' Hlast' Hcur'
      w1 Hno'.
    destruct (@writeEntry_chained runtime entry1 w Hon Hno)
      as (w' & Hrun & Hfiles & Hcur & _ & _).
    cbv zeta in Hrun, Hfiles. rewrite Hlast in Hrun, Hfiles.
    rewrite Hfile in Hfiles. cbn [app] in Hfiles.
    assert (snd (AuditLogger.writeEntry entry1 w) = w') as Hw'
      by (by rewrite Hrun).
    subst w1. rewrite Hw' in Hno' |- *. clear Hw' Hrun.
    destruct (@writeEntry_chained runtime entry2 (setLogger other w') Hon' Hno')
      as (w2 & Hrun2 & Hfiles2 & Hcur2 & _ & _).
    cbv zeta in Hrun2, Hfiles2. cbn [logger setLogger auditFiles] in Hrun2, Hfiles2, Hcur2.
    rewrite Hlast' in Hrun2, Hfiles2. rewrite Hcur' in Hfiles2, Hcur2.
    rewrite Hfiles, lookup_insert_eq in Hfiles2.
    cbn [from_option id app] in Hfiles2.
    rewrite Hrun2. cbn [snd].
    unfold AuditLogger.verifyChain. rewrite Hcur2, Hfiles2, lookup_insert_eq.
    destruct (@written_line runtime entry1 JNull) as (_ & [f1 Hobj1] & Hp1 & _ & Hh1);
      [by left|].
    destruct (@written_line runtime entry2 JNull) as (_ & [f2 Hobj2] & Hp2 & _ & _);
      [by left|].
    cbv zeta in Hobj1, Hp1, Hh1, Hobj2, Hp2.
    rewrite Hobj1 in Hp1, Hh1 |- *. rewrite Hobj2 in Hp2 |- *.
    exists (JObj f2).
    cbn [AuditLogger.verifyLines]. rewrite Hp1. cbn [strictEq negb].
    rewrite Hh1. cbn [strictEq]. rewrite String.eqb_refl. cbn [negb].
    rewrite Hp2. cbn [strictEq negb]. reflexivity.
Qed.

(** The action of the first line of the sample segment rewritten: the
    digest no longer fits, and [verifyChain] reports line 1. *)
Lemma tampering_detection_witness :
  @AuditLogger.verifyChain Sample.runtime (Some Segment.file)
    (setAuditFiles
       (<[Segment.file := Spec.tamper Segment.lines 0 "action" (JStr "payout")]>
          Segment.world.(auditFiles))
       Segment.world)
  = AuditLogger.ChainInvalid (AuditLogger.EntryHashMismatch 1)
      (Some (JObj (setField "action" (JStr "payout") Segment.first))).
Proof.
  destruct (@tampering_detection Sample.runtime Segment.world Segment.file
              Segment.lines 0%nat Segment.first "action" (JStr "payout"))
    as (_ & _ & Hdigest & _).
  - discriminate.
  - by vm_compute.
  - by vm_compute.
  - reflexivity.
  - apply Hdigest.
    + set_solver.
    + by vm_compute.
Defined.

(** C2 as the specification words it fails: a change of a field that is
    not hashed goes unnoticed.  In the sample segment the refund of 300 of
    the first line is rewritten to a refund of 1, and [verifyChain] still
    returns [valid: true] with 2 entries.  This is so whatever the digest
    is: for every runtime, the [result] of an identity verification can be
    turned from a failure into a success. *)
Lemma unhashed_fields_are_not_protected :
  (let tampered :=
     Spec.tamper Segment.lines 0 "details" (JObj (Sample.amount 1)) in
   tampered <> Segment.lines
   /\ @AuditLogger.verifyChain Sample.runtime (Some Segment.file)
        (setAuditFiles (<[Segment.file := tampered]> Segment.world.(auditFiles))
           Segment.world)
      = AuditLogger.ChainValid 2 Segment.file)
  /\ ~ exists runtime : Runtime, Spec.detectsEveryChange runtime.
Proof.
  split; [by vm_compute|].
  intros [runtime Hclaim].
  set (fields := [("type", JStr "identity_verification");
                  ("timestamp", JStr "2023-11-14T22:13:20.000Z");
                  ("agentId", JStr "agent");
                  ("result", JObj [("verified", JBool false)]);
                  ("previousHash", JNull)]).
  set (entry := setField "hash" (JStr (AuditLogger.hashEntry (JObj fields))) fields).
  specialize (Hclaim "audit.jsonl" [Parsed (JObj entry)] 0%nat entry "result"
                (JObj [("verified", JBool true)])).
  assert (AuditLogger.hashEntry (JObj entry) = AuditLogger.hashEntry (JObj fields))
    as Hhash by reflexivity.
  unfold Spec.tamper in Hclaim. cbn [lookup list_lookup] in Hclaim.
  cbn [AuditLogger.verifyLines insert list_insert] in Hclaim.
  assert (AuditLogger.hashEntry (JObj (setField "result"
            (JObj [("verified", JBool true)]) entry))
          = AuditLogger.hashEntry (JObj fields)) as Hhash' by reflexivity.
  rewrite Hhash, Hhash' in Hclaim.
  cbn in Hclaim. rewrite String.eqb_refl in Hclaim. cbn in Hclaim.
  discriminate Hclaim; done.
Qed.

(* ===================================================================== *)
(** * Identities (identity-system.js)                                     *)
(* ===================================================================== *)

Section IdentityFacts.
Context `{Runtime}.
Import IdentitySystem Spec.

Lemma assigned_lookup agentId f m a :
  assigned agentId f m !! a
  = if decide (a = agentId) then f <$> m !! agentId else m !! a.
Proof.
  unfold assigned. destruct (m !! agentId) as [i|] eqn:Hi.
  - destruct (decide (a = agentId)) as [->|Hne].
    + by rewrite lookup_insert_eq.
    + by rewrite lookup_insert_ne.
  - destruct (decide (a = agentId)) as [->|Hne]; [by rewrite Hi | done].
Qed.

Lemma incrementTrustScore_run agentId amount reason w :
  let score := Z.min 100 (getTrustScore agentId w + amount) in
  exists w',
    incrementTrustScore agentId amount reason w = (Ok tt, w')
    /\ w'.(trustScores) = <[agentId := score]> w.(trustScores)
    /\ w'.(identities) = assigned agentId (withTrustScore score) w.(identities)
    /\ w'.(policies) = w.(policies)
    /\ w'.(emitted) = w.(emitted).
Proof.
  unfold incrementTrustScore, setTrustScore, assign, saveStored, saveIdentity,
    getIdentityObject, assigned. cbn.
  destruct (identities w !! agentId) as [i|] eqn:Hi; cbn.
  - rewrite lookup_insert_eq. cbn. eauto 10.
  - rewrite Hi. cbn. eauto 10.
Qed.

Lemma revokeIdentity_run agentId reason w identity :
  w.(identities) !! agentId = Some identity ->
  exists e w',
    revokeIdentity agentId reason w = (Ok tt, w')
    /\ w'.(trustScores) = <[agentId := 0]> w.(trustScores)
    /\ w'.(identities)
       = <[agentId := withRevocation (toISOString (clock w.(ticks))) reason identity]>
           w.(identities)
    /\ w'.(policies) = w.(policies)
    /\ w'.(emitted) = w.(emitted) ++ [e]
    /\ isIdentityVerification e
    /\ getField "verificationType" e = JStr "revocation".
Proof.
  intros Hi.
  unfold revokeIdentity, setTrustScore, assign, saveStored, saveIdentity,
    getIdentityObject, now. cbn. rewrite Hi. cbn. rewrite Hi. cbn.
  rewrite lookup_insert_eq. cbn.
  edestruct logIdentityVerification_logs
    as (e & w' & Heq & (Hids & Hscores & Hpol & _ & _ & Hem) & Hty & Hvt).
  rewrite Heq. exists e, w'. cbn in *. by repeat split.
Qed.

Lemma decrementTrustScore_run agentId amount reason w :
  let score := Z.max 0 (getTrustScore agentId w - amount) in
  let w' := snd (decrementTrustScore agentId amount reason w) in
  w'.(policies) = w.(policies)
  /\ match w.(identities) !! agentId with
     | None =>
         w'.(trustScores) = <[agentId := score]> w.(trustScores)
         /\ w'.(identities) = w.(identities)
         /\ w'.(emitted) = w.(emitted)
     | Some identity =>
         fst (decrementTrustScore agentId amount reason w) = Ok tt
         /\ if score =? 0 then
              exists e,
                w'.(trustScores) = <[agentId := 0]> w.(trustScores)
                /\ w'.(identities)
                   = <[agentId := withRevocation (toISOString (clock w.(ticks)))
                                    "Trust score reached zero"
                                    (withTrustScore score identity)]> w.(identities)
                /\ w'.(emitted) = w.(emitted) ++ [e]
                /\ isIdentityVerification e
                /\ getField "verificationType" e = JStr "revocation"
            else
              w'.(trustScores) = <[agentId := score]> w.(trustScores)
              /\ w'.(identities)
                 = <[agentId := withTrustScore score identity]> w.(identities)
              /\ w'.(emitted) = w.(emitted)
     end.
Proof.
  cbv zeta.
  unfold decrementTrustScore, setTrustScore, assign, saveStored, saveIdentity,
    getIdentityObject. cbn.
  set (score := Z.max 0 (getTrustScore agentId w - amount)).
  destruct (identities w !! agentId) as [i|] eqn:Hi; cbn.
  - rewrite lookup_insert_eq. cbn.
    destruct (score =? 0) eqn:Hz; cbn; [|done].
    match goal with
    | |- context [revokeIdentity agentId ?r ?w0] =>
        destruct (revokeIdentity_run agentId r w0 (withTrustScore score i))
          as (e & w' & Heq & Hs & Hids & Hp & Hem & Hty & Hvt);
          [cbn; by rewrite lookup_insert_eq|]
    end.
    rewrite Heq. cbn in *. rewrite Hs, Hids, Hp, Hem.
    rewrite !insert_insert_eq. split; [done|]. split; [done|].
    exists e. by repeat split.
  - rewrite Hi. cbn.
    destruct (score =? 0) eqn:Hz; cbn; [|done].
    unfold revokeIdentity, getIdentityObject. cbn. rewrite Hi. by cbn.
Qed.

Lemma logAndReturn_run agentId verificationType result w :
  exists e w',
    logAndReturn agentId verificationType result w = (Ok result, w')
    /\ logsOnly w w' [e]
    /\ isIdentityVerification e
    /\ getField "verificationType" e = JStr verificationType.
Proof.
  unfold logAndReturn. cbn.
  edestruct logIdentityVerification_logs as (e & w' & Heq & Hlog & Hty & Hvt).
  rewrite Heq. cbn. by exists e, w'.
Qed.

Lemma isRevoked_assigned agentId f (m : gmap string Identity.t) a :
  (forall i, Identity.status i = revoked -> Identity.status (f i) = revoked) ->
  (exists i, m !! a = Some i /\ Identity.status i = revoked) ->
  exists i, assigned agentId f m !! a = Some i /\ Identity.status i = revoked.
Proof.
  intros Hf (i & Hi & Hr). rewrite assigned_lookup.
  destruct (decide (a = agentId)) as [->|]; [|eauto].
  rewrite Hi. cbn. eauto.
Qed.

Lemma isRevoked_insert agentId identity (m : gmap string Identity.t) a :
  Identity.status identity = revoked ->
  (exists i, m !! a = Some i /\ Identity.status i = revoked) ->
  exists i, <[agentId := identity]> m !! a = Some i /\ Identity.status i = revoked.
Proof.
  intros Hr (i & Hi & Hir).
  destruct (decide (a = agentId)) as [->|Hne].
  - rewrite lookup_insert_eq. eauto.
  - rewrite lookup_insert_ne by done. eauto.
Qed.

Lemma bind_run {S A B} (m : St S A) (k : A -> St S B) s a s1 :
  m s = (Ok a, s1) -> bind m k s = k a s1.
Proof. intros Hm. cbn. by rewrite Hm. Qed.

Lemma bind_throw {S A B} (m : St S A) (k : A -> St S B) s e s1 :
  m s = (Throw e, s1) -> bind m k s = (Throw e, s1).
Proof. intros Hm. cbn. by rewrite Hm. Qed.

Lemma now_run w : now w = (Ok (clock w.(ticks)), setTicks (S w.(ticks)) w).
Proof. reflexivity. Qed.

Lemma assign_run agentId f w :
  assign agentId f w
  = (Ok tt, setIdentities (assigned agentId f w.(identities)) w).
Proof.
  unfold assign, assigned. cbn.
  destruct (identities w !! agentId); [done|by destruct w].
Qed.

Lemma saveStored_run agentId w : saveStored agentId w = (Ok tt, stored agentId w).
Proof.
  unfold saveStored, saveIdentity, getIdentityObject, stored. cbn.
  by destruct (identities w !! agentId).
Qed.

Lemma stored_frame agentId w :
  (stored agentId w).(identities) = w.(identities)
  /\ (stored agentId w).(trustScores) = w.(trustScores)
  /\ (stored agentId w).(policies) = w.(policies)
  /\ (stored agentId w).(emitted) = w.(emitted)
  /\ (stored agentId w).(ticks) = w.(ticks).
Proof. unfold stored. by destruct (identities w !! agentId). Qed.

Ltac step_with lemma := erewrite bind_run by (apply lemma); cbv beta.
Ltac step_gets := erewrite bind_run by reflexivity; cbv beta.

Lemma checkTrustAndRecord_run agentId credentials w :
  exists r e w',
    checkTrustAndRecord agentId credentials w = (Ok r, w')
    /\ w'.(emitted) = w.(emitted) ++ [e]
    /\ isIdentityVerification e
    /\ w'.(policies) = w.(policies)
    /\ w'.(trustScores) = w.(trustScores)
    /\ (w'.(identities) = w.(identities)
        \/ exists f, (forall i, Identity.status (f i) = Identity.status i)
                     /\ w'.(identities) = assigned agentId f w.(identities))
    /\ r.(VerifyResult.verified) = negb (getTrustScore agentId w <? 50).
Proof.
  unfold checkTrustAndRecord. step_gets.
  destruct (getTrustScore agentId w <? 50) eqn:Hlow.
  - edestruct logAndReturn_run
      as (e & w' & Heq & (Hids & Hs & Hp & _ & _ & Hem) & Hty & _).
    rewrite Heq. eexists _, e, w'. split; [done|]. repeat split; try done.
    by left.
  - step_with now_run. step_with assign_run. step_with saveStored_run.
    edestruct logAndReturn_run
      as (e & w' & Heq & (Hids & Hs & Hp & _ & _ & Hem) & Hty & _).
    rewrite Heq. eexists _, e, w'. split; [done|].
    match type of Heq with
    | logAndReturn _ _ _ (stored _ ?w0) = _ =>
        destruct (stored_frame agentId w0) as (Hi' & Hs' & Hp' & Hem' & _)
    end.
    rewrite Hem, Hem', Hp, Hp', Hs, Hs', Hids, Hi'. cbn.
    repeat split; try done.
    right. eexists. split; [|done]. done.
Qed.

(** What one call of [verifyIdentity] does. *)
Lemma verifyIdentity_run agentId credentials w :
  exists r w' es,
    verifyIdentity agentId credentials w = (Ok r, w')
    /\ w'.(emitted) = w.(emitted) ++ es
    /\ w'.(policies) = w.(policies)
    /\ Forall isIdentityVerification es
    /\ ((revokedByBadSignature agentId credentials w
         /\ exists e1 e2,
              es = [e1; e2]
              /\ getField "verificationType" e1 = JStr "revocation"
              /\ getField "verificationType" e2 = JStr "signature_verification")
        \/ (~ revokedByBadSignature agentId credentials w /\ exists e, es = [e]))
    /\ (r.(VerifyResult.verified) = true ->
        w'.(trustScores) = w.(trustScores)
        /\ exists i, w.(identities) !! agentId = Some i
                     /\ Identity.status i = active)
    /\ (isRevoked agentId w ->
        r.(VerifyResult.verified) = false /\ r.(VerifyResult.trustScore) = 0)
    /\ (forall a, isRevoked a w -> isRevoked a w').
Proof.
  unfold verifyIdentity, getIdentityObject. step_gets.
  destruct (identities w !! agentId) as [identity|] eqn:Hi.
  2:{ (* no identity *)
    edestruct logAndReturn_run
      as (e & w' & Heq & (Hids & Hs & Hp & _ & _ & Hem) & Hty & _).
    rewrite Heq. eexists _, w', [e]. split; [done|].
    split; [done|]. split; [done|]. split; [by constructor|].
    split; [right; split; [|eauto]; intros (i & Hi' & _); congruence|].
    split; [done|].
    split; [intros (i & Hi' & _); congruence|].
    intros a. unfold isRevoked. by rewrite Hids. }
  destruct (Identity.status identity) eqn:Hstatus.
  2:{ (* revoked *)
    edestruct logAndReturn_run
      as (e & w' & Heq & (Hids & Hs & Hp & _ & _ & Hem) & Hty & _).
    rewrite Heq. eexists _, w', [e]. split; [done|].
    split; [done|]. split; [done|]. split; [by constructor|].
    split; [right; split; [|eauto]; intros (i & Hi' & Hact & _); congruence|].
    split; [done|]. split; [done|].
    intros a. unfold isRevoked. by rewrite Hids. }
  destruct (truthy (Credentials.signature credentials)
            && truthy (Credentials.message credentials)
            && negb (verifySignature (Identity.publicKey identity)
                       (Credentials.message credentials)
                       (Credentials.signature credentials))) eqn:Hbad.
  - (* a signature that does not verify *)
    apply andb_true_iff in Hbad as [[Hsig Hmsg]%andb_true_iff Hrej%negb_true_iff].
    unfold verifySignature in Hrej.
    pose proof (decrementTrustScore_run agentId 10
                  "Failed signature verification" w) as Hdec.
    cbv zeta in Hdec. rewrite Hi in Hdec.
    destruct (decrementTrustScore agentId 10 "Failed signature verification" w)
      as [o w1] eqn:Hrun.
    cbn [fst snd] in Hdec. destruct Hdec as (Hp1 & -> & Hcase).
    step_with Hrun. step_gets.
    edestruct logAndReturn_run
      as (e & w' & Heq & (Hids & Hs & Hp & _ & _ & Hem) & Hty & Hvt).
    rewrite Heq.
    destruct (Z.max 0 (getTrustScore agentId w - 10) =? 0) eqn:Hzero.
    + destruct Hcase as (e1 & Hs1 & Hids1 & Hem1 & Hty1 & Hvt1).
      eexists _, w', [e1; e]. split; [done|].
      split; [by rewrite Hem, Hem1, <- app_assoc|].
      split; [congruence|]. split; [by repeat constructor|].
      split.
      { left. split; [|by exists e1, e].
        exists identity. repeat split; try done. lia. }
      split; [done|].
      split; [intros (i & Hi' & Hr); congruence|].
      intros a Ha. unfold isRevoked. rewrite Hids, Hids1.
      by apply isRevoked_insert.
    + destruct Hcase as (Hs1 & Hids1 & Hem1).
      eexists _, w', [e]. split; [done|].
      split; [by rewrite Hem, Hem1|].
      split; [congruence|]. split; [by constructor|].
      split.
      { right. split; [|eauto].
        intros (i & Hi' & _ & _ & _ & _ & Hle). lia. }
      split; [done|].
      split; [intros (i & Hi' & Hr); congruence|].
      intros a (i & Ha & Hr). unfold isRevoked. rewrite Hids, Hids1.
      destruct (decide (a = agentId)) as [->|Hne]; [congruence|].
      rewrite lookup_insert_ne by done. eauto.
  - (* no signature to check, or a valid one *)
    destruct (checkTrustAndRecord_run agentId credentials w)
      as (r & e & w' & Heq & Hem & Hty & Hp & Hs & Hids & Hver).
    rewrite Heq. exists r, w', [e]. split; [done|].
    split; [done|]. split; [done|]. split; [by constructor|].
    split.
    { right. split; [|eauto].
      intros (i & Hi' & _ & Hsig & Hmsg & Hrej & _).
      assert (i = identity) as -> by congruence.
      unfold verifySignature in Hbad. by rewrite Hsig, Hmsg, Hrej in Hbad. }
    split; [eauto|].
    split; [intros (i & Hi' & Hr); congruence|].
    intros a Ha. unfold isRevoked.
    destruct Hids as [->|(f & Hf & ->)]; [done|].
    apply isRevoked_assigned; [|done]. intros i. by rewrite Hf.
Qed.

Lemma emittedBy_app {A} (m : M A) w es :
  (snd (m w)).(emitted) = w.(emitted) ++ es -> emittedBy m w = es.
Proof. unfold emittedBy. intros ->. by rewrite drop_app_length. Qed.

(** C8, as amended.  Every call of [verifyIdentity] returns and writes
    only [identity_verification] entries: exactly one, whatever the outcome
    (identity not found, revoked, invalid signature, trust score below 50,
    verified), except when an invalid signature takes the last 10 points of
    an active identity's trust score; then the automatic revocation writes
    an entry of its own (verification type [revocation]) before the entry
    of the call (verification type [signature_verification]): two. *)
Theorem verifyIdentity_audit_entries (agentId : string)
    (credentials : Credentials.t) (w : World) :
  let entries := emittedBy (verifyIdentity agentId credentials) w in
  (exists r w', verifyIdentity agentId credentials w = (Ok r, w'))
  /\ Forall isIdentityVerification entries
  /\ ((revokedByBadSignature agentId credentials w
       /\ exists e1 e2,
            entries = [e1; e2]
            /\ getField "verificationType" e1 = JStr "revocation"
            /\ getField "verificationType" e2 = JStr "signature_verification")
      \/ (~ revokedByBadSignature agentId credentials w
          /\ exists e, entries = [e])).
Proof.
  cbv zeta.
  destruct (verifyIdentity_run agentId credentials w)
    as (r & w' & es & Hrun & Hem & _ & Hall & Hcount & _).
  rewrite (emittedBy_app _ w es) by (by rewrite Hrun).
  split; [eauto|]. by split.
Qed.

(** ** Trust scores and revocation *)









Lemma generateKeyPairSync_run w :
  generateKeyPairSync w
  = (Ok (generateKeyPair w.(keysGenerated)), setKeysGenerated (S w.(keysGenerated)) w).
Proof. reflexivity. Qed.




End IdentityFacts.

(** C8 as the specification words it fails: the sample agent, its trust
    score at 10, presents a forged signature and is revoked by the call,
    which writes the revocation entry and then its own, two
    [identity_verification] entries.  This is so for every runtime that
    rejects some signature. *)
Lemma verifyIdentity_can_emit_two :
  length
    (Spec.identityVerifications
       (Spec.emittedBy
          (@IdentitySystem.verifyIdentity Sample.runtime "refund-agent"
             {| Credentials.signature := JStr "forged";
                Credentials.message := JStr "refund 700" |})
          (setTrustScores {["refund-agent" := 10]} Sample.world)))
  = 2%nat
  /\ ~ exists runtime : Runtime,
        (exists publicKey message signature,
            truthy message = true /\ truthy signature = true
            /\ rsaVerify publicKey message signature = false)
        /\ Spec.emitsExactlyOne runtime.
Proof.
  split; [by vm_compute|].
  intros (runtime & (publicKey & message & signature & Hm & Hs & Hrej) & Hclaim).
  set (identity := {|
    Identity.agentId := "agent"; Identity.publicKey := publicKey;
    Identity.privateKey := "";
    Identity.metadata := {|
      Identity.name := "agent"; Identity.role := "agent"; Identity.owner := None;
      Identity.createdAt := ""; Identity.createdBy := "system";
      Identity.tags := []; Identity.updatedAt := None |};
    Identity.status := active; Identity.trustScore := 10;
    Identity.verificationHistory := []; Identity.lastVerified := None;
    Identity.revokedAt := None; Identity.revocationReason := None;
    Identity.archivedKeys := []; Identity.keyRotatedAt := None |}).
  set (w := setIdentities {["agent" := identity]}
              (setTrustScores {["agent" := 10]} Sample.emptyWorld)).
  set (credentials := {| Credentials.signature := signature;
                         Credentials.message := message |}).
  specialize (Hclaim "agent" credentials w).
  destruct (verifyIdentity_run "agent" credentials w)
    as (r & w' & es & Hrun & Hem & _ & Hall & Hcount & _).
  rewrite (emittedBy_app _ w es) in Hclaim by (by rewrite Hrun).
  destruct Hcount as [(_ & e1 & e2 & -> & _)|[Hnot _]].
  - apply Forall_cons in Hall as [H1 Hall].
    apply Forall_cons in Hall as [H2 _].
    unfold Spec.identityVerifications, Spec.isIdentityVerification in *.
    cbn in Hclaim. rewrite H1, H2 in Hclaim. by cbn in Hclaim.
  - apply Hnot. exists identity. by repeat split.
Qed.



(* ===================================================================== *)
(** * Governed execution (production-agent.js, execute)                   *)
(* ===================================================================== *)

Section ExecuteFacts.
Context `{Runtime}.
Import ProductionAgent Spec.

Lemma agent_verifyIdentity_run self context w :
  exists r w' es,
    verifyIdentity self context w = (Ok r, w')
    /\ w'.(emitted) = w.(emitted) ++ es
    /\ Forall isIdentityVerification es
    /\ w'.(policies) = w.(policies)
    /\ (r.(VerifyResult.verified) = true -> w'.(trustScores) = w.(trustScores)).
Proof.
  unfold verifyIdentity.
  edestruct verifyIdentity_run
    as (r & w' & es & Hrun & Hem & Hp & Hall & _ & Hok & _).
  exists r, w', es. split; [exact Hrun|]. repeat split; try done.
  intros Hv. by apply Hok.
Qed.

Lemma onWorld_bind {T A B} (m : M A) (k : A -> St (World * T) B) w ext a w' :
  m w = (Ok a, w') -> bind (onWorld m) k (w, ext) = k a (w', ext).
Proof. intros Hrun. unfold bind, onWorld. cbn [fst snd]. by rewrite Hrun. Qed.

Lemma runExecutor_run {T} (executor : option (Executor T)) context
    (w : World) ext :
  runExecutor executor context (w, ext)
  = (match fst (completion executor context ext) with
     | Returns output => Ok (true, output, JUndefined)
     | Throws error =>
         match messageOf error with
         | Ok message => Ok (false, JUndefined, message)
         | Throw typeError => Throw typeError
         end
     end,
     (w, snd (completion executor context ext))).
Proof.
  unfold runExecutor, completion. destruct executor as [task|]; [|done].
  cbn [fst snd]. by destruct (task context ext) as [[output|error] ext'].
Qed.

Lemma completion_state {T} (executor : option (Executor T)) context ext :
  snd (completion executor context ext)
  = match executor with
    | Some task => snd (task context ext)
    | None => ext
    end.
Proof. by destruct executor. Qed.

(** C4.  In every call of [execute] the task is invoked only when the
    identity is verified and the policy allows the action without
    escalation.  When verification fails, [execute] returns the failure
    with the world as identity verification left it: the policy engine was
    not invoked (only [identity_verification] entries were written) and the
    task did not run (its state is untouched).  When the decision requires
    escalation, [execute] returns [requiresEscalation: true] with the
    escalation id and the task did not run; when the decision is a denial,
    it returns [policyDenied: true] and the task did not run; in both cases
    every trust score is what it was before the call.  Otherwise the task,
    if there is one, runs once on the context. *)
Theorem execute_gates {T : Type} (self : ProductionAgent.t) (action : string)
    (context : JsObject) (executor : option (Executor T)) (w : World) (ext : T) :
  let outcome := execute self action context executor (w, ext) in
  exists identityCheck w1 entries,
    verifyIdentity self context (setTicks (S w.(ticks)) w) = (Ok identityCheck, w1)
    /\ w1.(emitted) = w.(emitted) ++ entries
    /\ Forall isIdentityVerification entries
    /\ (identityCheck.(VerifyResult.verified) = false ->
        outcome
        = (Ok (IdentityFailed
                 ("Identity verification failed: "
                  +:+ identityCheck.(VerifyResult.reason))
                 identityCheck.(VerifyResult.trustScore)),
           (w1, ext)))
    /\ (identityCheck.(VerifyResult.verified) = true ->
        exists policyCheck w2,
          PolicyEngine.checkPermission self.(agentId) action context w1
          = (Ok policyCheck, w2)
          /\ w2.(trustScores) = w.(trustScores)
          /\ (policyCheck.(Decision.requiresEscalation) = true ->
              exists w3,
                outcome
                = (Ok (Escalated (clock (S w2.(ticks)))
                         policyCheck.(Decision.reason)
                         policyCheck.(Decision.escalationRule)),
                   (w3, ext))
                /\ w3.(trustScores) = w.(trustScores))
          /\ (policyCheck.(Decision.requiresEscalation) = false ->
              policyCheck.(Decision.allowed) = false ->
              outcome
              = (Ok (PolicyDenied policyCheck.(Decision.reason)), (w2, ext)))
          /\ (policyCheck.(Decision.requiresEscalation) = false ->
              policyCheck.(Decision.allowed) = true ->
              snd (snd outcome)
              = match executor with
                | Some task => snd (task context ext)
                | None => ext
                end)).
Proof.
  intros outcome.
  destruct (agent_verifyIdentity_run self context (setTicks (S (ticks w)) w))
    as (identityCheck & w1 & entries & Hverify & Hem & Hall & _ & Hscores).
  exists identityCheck, w1, entries.
  split; [done|]. split; [done|]. split; [done|].
  subst outcome. unfold execute.
  rewrite !(onWorld_bind _ _ _ _ _ _ (now_run w)).
  unfold catch.
  rewrite !(onWorld_bind _ _ _ _ _ _ Hverify).
  split.
  - intros Hfail. by rewrite Hfail.
  - intros Hok. rewrite Hok. cbn [negb].
    destruct (checkPermission_logs (agentId self) action context w1)
      as (policyCheck & e & w2 & Hpolicy & (_ & Hs2 & _) & _).
    exists policyCheck, w2. split; [done|].
    split; [by rewrite Hs2, Hscores|].
    rewrite !(onWorld_bind _ _ _ _ _ _ Hpolicy).
    destruct (Decision.requiresEscalation policyCheck) eqn:Hesc.
    + split; [|split; intros ?; done]. intros _.
      edestruct logEscalation_logs as (e3 & w3 & Hlog & (_ & Hs3 & _) & _).
      rewrite (onWorld_bind _ _ _ _ _ _ Hlog).
      exists w3. split; [done|].
      by rewrite Hs3, Hs2, Hscores.
    + split; [done|].
      destruct (Decision.allowed policyCheck) eqn:Hallow; cbn [negb].
      * split; [done|]. intros _ _.
        rewrite <- completion_state.
        pose proof (runExecutor_run executor context w2 ext) as Hrun.
        destruct (completion executor context ext) as [[output|error] ext'];
          cbn [fst snd] in Hrun |- *.
        -- rewrite (bind_run _ _ _ _ _ Hrun). cbv beta iota.
           edestruct logAction_logs as (e4 & w4 & Hlog & _).
           rewrite (onWorld_bind _ _ _ _ _ _ Hlog).
           edestruct incrementTrustScore_run as (w5 & Hinc & _).
           rewrite (onWorld_bind _ _ _ _ _ _ Hinc). by cbn.
        -- destruct (messageOf error) as [message|typeError].
           ++ rewrite (bind_run _ _ _ _ _ Hrun). cbv beta iota.
              edestruct logAction_logs as (e4 & w4 & Hlog & _).
              rewrite (onWorld_bind _ _ _ _ _ _ Hlog).
              unfold bind at 1. unfold onWorld at 1. cbn [fst snd].
              destruct (IdentitySystem.decrementTrustScore (agentId self) 5
                          "Failed action" w4) as [[[]|err] w5]; by cbn.
           ++ rewrite (bind_throw _ _ _ _ _ Hrun). by cbn.
      * split; [done|]. intros ? ?; done.
Qed.

End ExecuteFacts.

(** The sample agent asks for [delete:all], which its policy denies: the
    call returns [policyDenied], the task has not run, and the trust score
    is the 100 it was.  It asks for a refund of 300, which its policy
    allows: the task has run once. *)
Lemma execute_gates_witness :
  let denied :=
    @ProductionAgent.execute Sample.runtime nat Sample.agent "delete:all" []
      (Some Sample.task) (Sample.world, 0%nat) in
  let allowed :=
    @ProductionAgent.execute Sample.runtime nat Sample.agent "refund"
      (Sample.amount 300) (Some Sample.task) (Sample.world, 0%nat) in
  ((exists reason, fst denied = Ok (ProductionAgent.PolicyDenied reason))
   /\ snd (snd denied) = 0%nat
   /\ (fst (snd denied)).(trustScores) = Sample.world.(trustScores))
  /\ snd (snd allowed) = 1%nat.
Proof.
  cbv zeta. split.
  - destruct (@execute_gates Sample.runtime nat Sample.agent "delete:all" []
                (Some Sample.task) Sample.world 0%nat)
      as (identityCheck & w1 & entries & Hverify & _ & _ & _ & Hverified).
    destruct Hverified as (policyCheck & w2 & Hpolicy & Hscores & _ & Hdenied & _).
    { vm_compute in Hverify. by injection Hverify as <- _. }
    assert (Spec.verdict policyCheck = (false, false, None)) as Hverdict.
    { assert (w1.(policies) !! "refund-agent" = Some Sample.refundPolicy) as Hw1.
      { vm_compute in Hverify. by injection Hverify as _ <-. }
      destruct (@checkPermission_logs Sample.runtime "refund-agent" "delete:all"
                  [] w1) as (d & e & w' & Hrun & _ & _ & Hv).
      change (ProductionAgent.agentId Sample.agent) with "refund-agent" in Hpolicy.
      rewrite Hrun in Hpolicy. injection Hpolicy as <- _.
      rewrite Hv, Hw1. by vm_compute. }
    unfold Spec.verdict in Hverdict. injection Hverdict as Hallowed Hescalation _.
    rewrite (Hdenied Hescalation Hallowed). cbn [fst snd].
    split; [by eexists|]. split; [done|]. exact Hscores.
  - destruct (@execute_gates Sample.runtime nat Sample.agent "refund"
                (Sample.amount 300) (Some Sample.task) Sample.world 0%nat)
      as (identityCheck & w1 & entries & Hverify & _ & _ & _ & Hverified).
    destruct Hverified as (policyCheck & w2 & Hpolicy & _ & _ & _ & Hruns).
    { vm_compute in Hverify. by injection Hverify as <- _. }
    assert (Spec.verdict policyCheck = (true, false, None)) as Hverdict.
    { assert (w1.(policies) !! "refund-agent" = Some Sample.refundPolicy) as Hw1.
      { vm_compute in Hverify. by injection Hverify as _ <-. }
      destruct (@checkPermission_logs Sample.runtime "refund-agent" "refund"
                  (Sample.amount 300) w1) as (d & e & w' & Hrun & _ & _ & Hv).
      change (ProductionAgent.agentId Sample.agent) with "refund-agent" in Hpolicy.
      rewrite Hrun in Hpolicy. injection Hpolicy as <- _.
      rewrite Hv, Hw1. by vm_compute. }
    unfold Spec.verdict in Hverdict. injection Hverdict as Hallowed Hescalation _.
    by rewrite (Hruns Hescalation Hallowed).
Defined.

(* ===================================================================== *)
(** * The audit log at its edges (audit-logger.js)                        *)
(* ===================================================================== *)

Section LoggerEdges.
Context `{Runtime}.
Import AuditLogger Spec.

Lemma verifyLines_written file entry previous :
  hashValue previous ->
  let chained := setField "previousHash" previous entry in
  let written := setField "hash" (JStr (hashEntry (JObj chained))) chained in
  verifyLines file [Parsed (jsonValue (JObj written))] 0 JNull 0
  = if strictEq previous JNull then ChainValid 1 file
    else ChainInvalid (HashChainBroken 1) (Some (jsonValue (JObj written))).
Proof.
  intros Hprev. cbv zeta.
  destruct (written_line entry previous Hprev)
    as (_ & [fields Hobj] & Hp & _ & Hself).
  rewrite Hobj in *. cbn [verifyLines]. rewrite Hp.
  destruct (strictEq previous JNull); cbn [negb]; [|done].
  rewrite Hself. cbn [strictEq]. by rewrite String.eqb_refl.
Qed.

(** X1.  With chain validation disabled, [writeEntry] writes the entry
    without [previousHash] and [hash], and [verifyChain] rejects the log at
    its first line: an entry that has no [previousHash] (none of those the
    log methods build has one) reads back [undefined], which is not the
    [null] the chain starts from. *)
Theorem unchained_log_never_verifies (entry : JsObject) (w : World) :
  w.(logger).(enableChainValidation) = false ->
  default [] (w.(auditFiles) !! w.(logger).(currentLogFile)) = [] ->
  fst (shouldRotate w) = Ok false ->
  getField "previousHash" entry = JUndefined ->
  exists w',
    writeEntry entry w = (Ok entry, w')
    /\ w'.(logger).(lastHash) = w.(logger).(lastHash)
    /\ verifyChain None w'
       = ChainInvalid (HashChainBroken 1) (Some (jsonValue (JObj entry))).
Proof.
  intros Hoff Hfile Hno Hprev.
  unfold writeEntry. cbn in *. injection Hno as ->. cbn. rewrite Hoff. cbn.
  eexists. split; [reflexivity|]. split; [done|].
  unfold verifyChain. cbn. rewrite lookup_insert_eq, Hfile. cbn [app].
  pose proof (prop_jsonValue "previousHash" entry) as Hp.
  rewrite Hprev in Hp. rewrite jsonValue_obj in *.
  cbn [verifyLines]. by rewrite Hp.
Qed.

Lemma verifyLines_valid_chained file lines :
  forall i previous n,
    hashValue previous ->
    valid (verifyLines file lines i previous n) = true ->
    chainedFrom previous lines.
Proof.
  induction lines as [|[entry|] lines IH]; intros i previous n Hprev Hvalid;
    [done| |done].
  cbn [verifyLines] in Hvalid.
  assert (exists fields, entry = JObj fields) as [fields ->].
  { destruct Hprev as [->|[h ->]]; destruct entry; try done; eauto. }
  destruct (strictEq (prop "previousHash" (JObj fields)) previous) eqn:Hp;
    [|done].
  destruct (strictEq (prop "hash" (JObj fields)) (JStr (hashEntry (JObj fields))))
    eqn:Hh; [|done].
  cbn [negb] in Hvalid. apply strictEq_JStr in Hh.
  assert (prop "previousHash" (JObj fields) = previous) as Hprevious.
  { destruct Hprev as [->|[h ->]].
    - by destruct (prop "previousHash" (JObj fields)).
    - by apply strictEq_JStr. }
  cbn [chainedFrom]. split; [eauto|]. split; [done|]. split; [done|].
  eapply IH; [|exact Hvalid]. rewrite Hh. right. eauto.
Qed.

Lemma chainedFrom_last_digest lines :
  forall previous,
    chainedFrom previous lines -> lines <> [] ->
    exists h, lastHashOf previous lines = JStr h.
Proof.
  induction lines as [|[entry|] lines IH]; intros previous Hchain Hne;
    [done| |done].
  cbn [chainedFrom] in Hchain. destruct Hchain as (_ & _ & Hh & Hrest).
  cbn [lastHashOf]. destruct lines as [|line lines].
  - cbn [lastHashOf]. rewrite Hh. eauto.
  - by apply IH.
Qed.

(** X2.  A write that finds the current file above the rotation size moves
    the file, lines untouched, to its rotated name (which must differ from
    the name of the new current file) and starts a new chain: the entry is
    written with [previousHash: null] at the end of the file that
    [getCurrentLogFile] names at that moment.  When that file is the one
    just moved, or does not exist or is empty, the entry is its only line
    and the file verifies with 1 entry.  When it already holds lines (the
    file of a new day that another logger has started), the file does not
    verify any more: if its lines verified, the entry breaks their chain,
    and [verifyChain] reports the line of the entry. *)
Theorem rotation_starts_a_new_chain (entry : JsObject) (w : World)
    (lines : list Line) :
  let file := w.(logger).(currentLogFile) in
  let rotated := rotatedFileName file (clock w.(ticks)) in
  let fresh := logFileName w.(logger).(logPath) (clock (S w.(ticks))) in
  let existing :=
    if decide (fresh = file) then []
    else default [] (w.(auditFiles) !! fresh) in
  w.(logger).(enableChainValidation) = true ->
  w.(auditFiles) !! file = Some lines ->
  w.(logger).(rotationSizeMB) * (1024 * 1024) < fileSize lines ->
  rotated <> fresh ->
  exists written w',
    writeEntry entry w = (Ok written, w')
    /\ w'.(logger).(currentLogFile) = fresh
    /\ w'.(auditFiles) !! rotated = Some lines
    /\ getField "previousHash" written = JNull
    /\ w'.(auditFiles) !! fresh
       = Some (existing ++ [Parsed (jsonValue (JObj written))])
    /\ (existing = [] -> verifyChain None w' = ChainValid 1 fresh)
    /\ (existing <> [] ->
        valid (verifyChain None w') = false
        /\ (valid (verifyLines fresh existing 0 JNull 0) = true ->
            verifyChain None w'
            = ChainInvalid (HashChainBroken (length existing + 1))
                (Some (jsonValue (JObj written))))).
Proof.
  cbv zeta. intros Hon Hfile Hbig Hne.
  set (file := currentLogFile (logger w)) in *.
  set (rotated := rotatedFileName file (clock (ticks w))) in *.
  set (fresh := logFileName (logPath (logger w)) (clock (S (ticks w)))) in *.
  set (existing := if decide (fresh = file) then []
                   else default [] (auditFiles w !! fresh)).
  assert (default [] ((<[rotated := lines]> (delete file (auditFiles w))) !! fresh)
          = existing) as Hthere.
  { rewrite lookup_insert_ne by done. subst existing.
    destruct (decide (fresh = file)) as [->|Hd]; [by rewrite lookup_delete_eq|].
    by rewrite lookup_delete_ne. }
  unfold writeEntry, bind, shouldRotate, gets, rotateLogFile, renameSync,
    getCurrentLogFile, updateLogger, appendFileSync, modify, ret, now.
  cbn. fold file. rewrite Hfile.
  rewrite (proj2 (Z.ltb_lt _ _) Hbig). cbn. fold file. rewrite Hfile. cbn.
  rewrite Hon. cbn. fold file rotated fresh.
  eexists _, _. split; [reflexivity|]. cbn.
  split; [done|].
  split; [by rewrite lookup_insert_ne, lookup_insert_eq|].
  split; [by rewrite getField_setField_ne, getField_setField_eq|].
  rewrite Hthere.
  split; [by rewrite lookup_insert_eq|].
  unfold verifyChain. cbn. rewrite lookup_insert_eq.
  split.
  - intros ->. cbn [app].
    by rewrite (verifyLines_written fresh entry JNull) by (by left).
  - intros Hsome.
    assert (valid (verifyLines fresh existing 0 JNull 0) = true ->
            verifyLines fresh
              (existing
               ++ [Parsed (jsonValue (JObj
                     (setField "hash"
                        (JStr (hashEntry (JObj (setField "previousHash" JNull
                                                  entry))))
                        (setField "previousHash" JNull entry))))]) 0 JNull 0
            = ChainInvalid (HashChainBroken (length existing + 1))
                (Some (jsonValue (JObj
                     (setField "hash"
                        (JStr (hashEntry (JObj (setField "previousHash" JNull
                                                  entry))))
                        (setField "previousHash" JNull entry))))))
      as Hbroken.
    { intros Hvalid. rewrite verifyLines_app.
      assert (chainedFrom JNull existing) as Hchain.
      { eapply verifyLines_valid_chained; [by left|exact Hvalid]. }
      rewrite verifyLines_chained by (done || by left).
      destruct (chainedFrom_last_digest existing JNull Hchain Hsome) as [h ->].
      destruct (written_line entry JNull) as (_ & [fields Hobj] & Hp & _);
        [by left|].
      cbv zeta in Hobj, Hp. rewrite Hobj in Hp |- *.
      cbn [verifyLines]. rewrite Hp. cbn [strictEq negb].
      by rewrite Nat.add_0_l. }
    split; [|exact Hbroken].
    destruct (valid (verifyLines fresh existing 0 JNull 0)) eqn:Hvalid.
    + by rewrite Hbroken.
    + rewrite verifyLines_app.
      by destruct (verifyLines fresh existing 0 JNull 0).
Qed.


Lemma setField_same k v o : getField k o = v -> v <> JUndefined -> setField k v o = o.
Proof.
  induction o as [|[k0 v0] o IH]; cbn; [by intros <-|].
  destruct (String.eqb_spec k k0) as [->|Hne]; [by intros ->|].
  intros Hv Hd. by rewrite IH.
Qed.

Lemma sanitize_untouched (fields : list string) (context : JsObject) :
  Forall (fun k => truthy (getField k context) = false
                   \/ getField k context = JStr "[REDACTED]") fields ->
  fold_left (fun sanitized field =>
               if truthy (getField field sanitized)
               then setField field (JStr "[REDACTED]") sanitized
               else sanitized)
            fields context
  = context.
Proof.
  induction fields as [|f fields IH]; intros Hall; cbn [fold_left]; [done|].
  apply Forall_cons in Hall as [Hf Hall].
  assert ((if truthy (getField f context)
           then setField f (JStr "[REDACTED]") context else context) = context)
    as ->; [|by apply IH].
  destruct Hf as [->|Hred]; [done|].
  rewrite Hred. cbn. by apply setField_same.
Qed.

(** X4.  Redaction looks at the six top-level keys and nowhere else: a
    context in which none of them holds a truthy value is logged exactly as
    it is, whatever its nested objects contain (a password inside a nested
    object is not redacted); and sanitizing twice is sanitizing once. *)
Theorem sanitizeContext_is_shallow (context : JsObject) :
  (Forall (fun k => truthy (getField k context) = false) sensitiveFields ->
     sanitizeContext context = context)
  /\ (forall nested, sanitizeContext [("credentials", JObj nested)]
                     = [("credentials", JObj nested)])
  /\ sanitizeContext (sanitizeContext context) = sanitizeContext context.
Proof.
  split; [|split].
  - intros Hall. apply sanitize_untouched.
    eapply Forall_impl; [exact Hall|]. cbn. eauto.
  - intros nested. apply sanitize_untouched.
    unfold sensitiveFields. repeat constructor.
  - apply sanitize_untouched. apply Forall_forall. intros k Hk.
    destruct (sanitize_fold sensitiveFields context k) as [Hget _].
    fold (sanitizeContext context) in Hget. rewrite Hget.
    rewrite bool_decide_eq_true_2 by done. cbn.
    destruct (truthy (getField k context)) eqn:Ht; eauto.
Qed.

End LoggerEdges.

(* ===================================================================== *)
(** * Every decision is audited (policy-engine.js, audit-logger.js)       *)
(* ===================================================================== *)

Section DecisionAudit.
Context `{Runtime}.
Import AuditLogger PolicyEngine Spec.

Lemma logDecision_entry agentId action context decision durationMs w :
  exists e w',
    logDecision agentId action context decision durationMs w = (Ok tt, w')
    /\ logsOnly w w' [e]
    /\ getField "type" e = JStr "policy_decision"
    /\ getField "agentId" e = JStr agentId
    /\ getField "action" e = JStr action
    /\ getField "context" e = JObj (sanitizeContext context)
    /\ getField "decision" e
       = JObj [("allowed", JBool decision.(Decision.allowed));
               ("reason", JStr decision.(Decision.reason));
               ("requiresEscalation", JBool decision.(Decision.requiresEscalation));
               ("escalationRule",
                optional ruleValue decision.(Decision.escalationRule))].
Proof.
  unfold logDecision, now. cbn.
  match goal with
  | |- context [writeEntry ?e ?w0] =>
      destruct (writeEntry_logs e w0) as (e' & w' & Heq & Hlog & Hty)
  end.
  rewrite Heq. cbn. exists e', w'. split; [done|]. split; [exact Hlog|].
  repeat split; by rewrite Hty.
Qed.

(** X5.  Every call of [checkPermission] returns a decision and appends
    exactly one [policy_decision] entry to the audit log, which records the
    agent, the action, the sanitized context and the decision returned;
    the call changes no policy, identity or trust score. *)
Theorem checkPermission_audits_every_decision (agentId action : string)
    (context : JsObject) (w : World) :
  exists decision e w',
    checkPermission agentId action context w = (Ok decision, w')
    /\ w'.(emitted) = w.(emitted) ++ [e]
    /\ getField "type" e = JStr "policy_decision"
    /\ getField "agentId" e = JStr agentId
    /\ getField "action" e = JStr action
    /\ getField "context" e = JObj (sanitizeContext context)
    /\ prop "allowed" (getField "decision" e) = JBool decision.(Decision.allowed)
    /\ prop "requiresEscalation" (getField "decision" e)
       = JBool decision.(Decision.requiresEscalation)
    /\ prop "reason" (getField "decision" e) = JStr decision.(Decision.reason)
    /\ w'.(policies) = w.(policies)
    /\ w'.(identities) = w.(identities)
    /\ w'.(trustScores) = w.(trustScores).
Proof.
  unfold checkPermission, now. cbn.
  assert (forall result,
    exists decision e w',
      logAndReturn agentId action context result (clock (ticks w))
        (setTicks (S (ticks w)) w) = (Ok decision, w')
      /\ w'.(emitted) = w.(emitted) ++ [e]
      /\ getField "type" e = JStr "policy_decision"
      /\ getField "agentId" e = JStr agentId
      /\ getField "action" e = JStr action
      /\ getField "context" e = JObj (sanitizeContext context)
      /\ prop "allowed" (getField "decision" e) = JBool decision.(Decision.allowed)
      /\ prop "requiresEscalation" (getField "decision" e)
         = JBool decision.(Decision.requiresEscalation)
      /\ prop "reason" (getField "decision" e) = JStr decision.(Decision.reason)
      /\ w'.(policies) = w.(policies)
      /\ w'.(identities) = w.(identities)
      /\ w'.(trustScores) = w.(trustScores)) as Hret.
  { intros result. unfold logAndReturn, now. cbn.
    edestruct logDecision_entry
      as (e & w' & Heq & (Hi & Hs & Hp & _ & _ & Hem) & Hty & Ha & Hact & Hc & Hd).
    rewrite Heq. cbn. exists result, e, w'. rewrite Hd. cbn in *.
    by repeat split. }
  destruct (policies w !! agentId) as [policy|]; [|by apply Hret].
  destruct (from_option _ _ (rulesOf Policy.escalate policy)); [by apply Hret|].
  destruct (from_option _ _ (rulesOf Policy.deny policy)); [by apply Hret|].
  destruct (from_option _ _ (rulesOf Policy.allow policy)); by apply Hret.
Qed.

End DecisionAudit.

(* ===================================================================== *)
(** * Identities at their edges (identity-system.js)                      *)
(* ===================================================================== *)

Section IdentityEdges.
Context `{Runtime}.
Import IdentitySystem Spec.

(** The record [verifyIdentity] pushes on the history, and the history
    after it: the last 100. *)
Lemma verifyIdentity_accepts agentId credentials w identity :
  w.(identities) !! agentId = Some identity ->
  identity.(Identity.status) = active ->
  truthy credentials.(Credentials.signature)
  && truthy credentials.(Credentials.message)
  && negb (rsaVerify identity.(Identity.publicKey)
             credentials.(Credentials.message)
             credentials.(Credentials.signature)) = false ->
  50 <= getTrustScore agentId w ->
  let verifiedAt := toISOString (clock w.(ticks)) in
  let history :=
    identity.(Identity.verificationHistory)
    ++ [{| Identity.timestamp := verifiedAt;
           Identity.method := if truthy credentials.(Credentials.signature)
                              then "signature" else "basic";
           Identity.success := true |}] in
  let identity' :=
    withVerification verifiedAt
      (if (100 <? length history)%nat
       then drop (length history - 100) history else history) identity in
  exists e w',
    verifyIdentity agentId credentials w
    = (Ok {| VerifyResult.verified := true;
             VerifyResult.reason := "Identity verified successfully";
             VerifyResult.trustScore := getTrustScore agentId w |}, w')
    /\ w'.(identities) = <[agentId := identity']> w.(identities)
    /\ w'.(identityFiles)
       = <[identity.(Identity.agentId) := identity']> w.(identityFiles)
    /\ w'.(trustScores) = w.(trustScores)
    /\ w'.(policies) = w.(policies)
    /\ w'.(emitted) = w.(emitted) ++ [e]
    /\ isIdentityVerification e
    /\ getField "verificationType" e = JStr "identity_check".
Proof.
  intros Hi Hactive Hsig Htrust. cbv zeta.
  unfold verifyIdentity, getIdentityObject. cbn. rewrite Hi. cbn.
  rewrite Hactive. unfold verifySignature. rewrite Hsig.
  unfold checkTrustAndRecord, assign, saveStored, saveIdentity, getIdentityObject,
    now, gets, modify, bind.
  rewrite (proj2 (Z.ltb_ge _ _) Htrust). cbn. rewrite Hi. cbn.
  rewrite lookup_insert_eq. cbn.
  edestruct logAndReturn_run
    as (e & w' & Heq & (Hids & Hs & Hp & Hf & _ & Hem) & Hty & Hvt).
  rewrite Heq. exists e, w'. cbn in *. by repeat split.
Qed.

Lemma verifyIdentity_rejects agentId credentials w :
  (forall identity,
      w.(identities) !! agentId = Some identity ->
      identity.(Identity.status) = active ->
      truthy credentials.(Credentials.signature)
      && truthy credentials.(Credentials.message)
      && negb (rsaVerify identity.(Identity.publicKey)
                 credentials.(Credentials.message)
                 credentials.(Credentials.signature)) = false ->
      getTrustScore agentId w < 50) ->
  exists r w',
    verifyIdentity agentId credentials w = (Ok r, w')
    /\ r.(VerifyResult.verified) = false.
Proof.
  intros Hnot.
  destruct (verifyIdentity_run agentId credentials w)
    as (r & w' & es & Hrun & _).
  exists r, w'. split; [done|].
  revert Hrun. unfold verifyIdentity, getIdentityObject. cbn.
  destruct (identities w !! agentId) as [identity|] eqn:Hi.
  2:{ edestruct logAndReturn_run as (e & w1 & -> & _). by intros [= <- _]. }
  destruct (Identity.status identity) eqn:Hst.
  2:{ edestruct logAndReturn_run as (e & w1 & -> & _). by intros [= <- _]. }
  unfold verifySignature.
  destruct (truthy _ && truthy _ && negb _) eqn:Hsig.
  - cbn.
    destruct (decrementTrustScore agentId 10 "Failed signature verification" w)
      as [[[]|err] w1]; cbn.
    + edestruct logAndReturn_run as (e & w2 & -> & _). by intros [= <- _].
    + by intros [=].
  - specialize (Hnot identity eq_refl Hst Hsig).
    unfold checkTrustAndRecord. cbn.
    rewrite (proj2 (Z.ltb_lt _ _) Hnot).
    edestruct logAndReturn_run as (e & w1 & -> & _). by intros [= <- _].
Qed.

Lemma verifyIdentity_verifies_exactly_when_aux agentId credentials w identity :
  w.(identities) !! agentId = Some identity ->
  (identity.(Identity.status) = active
   /\ truthy credentials.(Credentials.signature)
      && truthy credentials.(Credentials.message)
      && negb (rsaVerify identity.(Identity.publicKey)
                 credentials.(Credentials.message)
                 credentials.(Credentials.signature)) = false
   /\ 50 <= getTrustScore agentId w)
  \/ (identity.(Identity.status) = active ->
      truthy credentials.(Credentials.signature)
      && truthy credentials.(Credentials.message)
      && negb (rsaVerify identity.(Identity.publicKey)
                 credentials.(Credentials.message)
                 credentials.(Credentials.signature)) = false ->
      getTrustScore agentId w < 50).
Proof.
  intros _.
  destruct (Identity.status identity); [|by right].
  destruct (truthy _ && truthy _ && negb _); [by right|].
  destruct (Z.lt_ge_cases (getTrustScore agentId w) 50); [by right|by left].
Qed.

(** X6.  [verifyIdentity] returns [verified: true] exactly when the agent
    has an identity, the identity is active, the stored trust score is at
    least 50, and the signature, if one is presented together with a
    message, verifies against the identity's public key.  A signature
    presented without a message is not checked.  A successful verification
    reports the stored trust score and changes no trust score. *)
Theorem verifyIdentity_verifies_exactly_when (agentId : string)
    (credentials : Credentials.t) (w : World) :
  exists r w',
    verifyIdentity agentId credentials w = (Ok r, w')
    /\ (r.(VerifyResult.verified) = true <->
        exists identity,
          w.(identities) !! agentId = Some identity
          /\ identity.(Identity.status) = active
          /\ 50 <= getTrustScore agentId w
          /\ (truthy credentials.(Credentials.signature) = true ->
              truthy credentials.(Credentials.message) = true ->
              rsaVerify identity.(Identity.publicKey)
                credentials.(Credentials.message)
                credentials.(Credentials.signature) = true))
    /\ (r.(VerifyResult.verified) = true ->
        r.(VerifyResult.trustScore) = getTrustScore agentId w
        /\ w'.(trustScores) = w.(trustScores)).
Proof.
  destruct (w.(identities) !! agentId) as [identity|] eqn:Hi.
  2:{ destruct (verifyIdentity_rejects agentId credentials w)
        as (r & w' & Hrun & Hv); [by rewrite Hi|].
      exists r, w'. split; [done|]. rewrite Hv.
      split; [|done]. split; [done|]. by intros (? & ? & _). }
  destruct (verifyIdentity_verifies_exactly_when_aux agentId credentials w
              identity Hi) as [(Hactive & Hsig & Htrust)|Hnot].
  - destruct (verifyIdentity_accepts agentId credentials w identity)
      as (e & w' & Hrun & _ & _ & Hs & _); try done.
    eexists _, w'. split; [exact Hrun|]. cbn. split; [|done].
    split; [|done]. intros _. exists identity. repeat split; try done.
    intros Hs1 Hm1. rewrite Hs1, Hm1 in Hsig. cbn in Hsig.
    by apply negb_false_iff in Hsig.
  - destruct (verifyIdentity_rejects agentId credentials w)
      as (r & w' & Hrun & Hv).
    { intros i Hi' Hactive Hsig.
      assert (i = identity) as -> by congruence. by apply Hnot. }
    exists r, w'. split; [done|]. rewrite Hv. split; [|done].
    split; [done|]. intros (i & Hi' & Hactive & Htrust & Hsig).
    assert (i = identity) as -> by congruence.
    assert (getTrustScore agentId w < 50); [|lia].
    apply Hnot; [done|].
    destruct (truthy (Credentials.signature credentials)) eqn:Hs1; [|done].
    destruct (truthy (Credentials.message credentials)) eqn:Hm1; [|done].
    cbn. by rewrite Hsig.
Qed.

(** X7.  A successful [verifyIdentity] stamps the identity with the time of
    the verification, appends a record to its verification history and
    keeps the last 100 records: the history never grows beyond 100, and the
    newest record is always kept.  The record says [signature] whenever a
    signature was presented, checked or not. *)
Theorem verificationHistory_keeps_last_100 (agentId : string)
    (credentials : Credentials.t) (w w' : World) (r : VerifyResult.t)
    (identity : Identity.t) :
  w.(identities) !! agentId = Some identity ->
  verifyIdentity agentId credentials w = (Ok r, w') ->
  r.(VerifyResult.verified) = true ->
  let record := {|
    Identity.timestamp := toISOString (clock w.(ticks));
    Identity.method := if truthy credentials.(Credentials.signature)
                       then "signature" else "basic";
    Identity.success := true |} in
  let history := identity.(Identity.verificationHistory) ++ [record] in
  exists identity',
    w'.(identities) !! agentId = Some identity'
    /\ identity'.(Identity.verificationHistory)
       = drop (length history - 100) history
    /\ length identity'.(Identity.verificationHistory)
       = Nat.min 100 (length history)
    /\ last identity'.(Identity.verificationHistory) = Some record
    /\ identity'.(Identity.lastVerified) = Some (toISOString (clock w.(ticks))).
Proof.
  intros Hi Hrun Hv. cbv zeta.
  destruct (verifyIdentity_verifies_exactly_when_aux agentId credentials w identity Hi)
    as [Hacc|Hrej].
  - destruct Hacc as (Hactive & Hsig & Htrust).
    destruct (verifyIdentity_accepts agentId credentials w identity)
      as (e & w1 & Hrun1 & Hids & _); try done.
    rewrite Hrun1 in Hrun. injection Hrun as _ <-.
    eexists. rewrite Hids, lookup_insert_eq. split; [done|].
    cbn [Identity.verificationHistory Identity.lastVerified withVerification].
    set (history := Identity.verificationHistory identity ++ _).
    assert ((if (100 <? length history)%nat
             then drop (length history - 100) history else history)
            = drop (length history - 100) history) as ->.
    { destruct (Nat.ltb_spec 100 (length history)) as [Hlt|Hle]; [done|].
      by replace (length history - 100)%nat with 0%nat by lia. }
    split; [done|]. split; [rewrite length_drop; lia|]. split; [|done].
    assert (length history = S (length (Identity.verificationHistory identity)))
      as Hlen by (unfold history; rewrite length_app; cbn; lia).
    unfold history at 2. rewrite drop_app_le by lia. by rewrite last_snoc.
  - destruct (verifyIdentity_rejects agentId credentials w)
      as (r1 & w1 & Hrun1 & Hv1); [|congruence].
    intros i Hi' Hactive Hsig. assert (i = identity) as -> by congruence.
    by apply Hrej.
Qed.

(** X8.  [createIdentity] refuses an agent that already has an identity:
    it throws and changes nothing, no key pair is generated.  For a new
    agent it generates one key pair and stores an active identity with a
    trust score of 100, in memory and in the identity store; what it
    returns carries the public key, never the private one; and the agent
    then passes [verifyIdentity] without credentials. *)
Theorem createIdentity_once (agentId : string) (metadata : MetadataInput.t)
    (w : World) :
  (is_Some (w.(identities) !! agentId) ->
     createIdentity agentId metadata w
     = (Throw ("Identity already exists for agent: " +:+ agentId), w))
  /\ (w.(identities) !! agentId = None ->
      exists created identity w',
        createIdentity agentId metadata w = (Ok created, w')
        /\ w'.(identities) = <[agentId := identity]> w.(identities)
        /\ w'.(identityFiles) = <[agentId := identity]> w.(identityFiles)
        /\ w'.(trustScores) = <[agentId := 100]> w.(trustScores)
        /\ w'.(keysGenerated) = S w.(keysGenerated)
        /\ identity.(Identity.agentId) = agentId
        /\ identity.(Identity.status) = active
        /\ identity.(Identity.trustScore) = 100
        /\ identity.(Identity.verificationHistory) = []
        /\ (identity.(Identity.publicKey), identity.(Identity.privateKey))
           = generateKeyPair w.(keysGenerated)
        /\ created.(PublicIdentity.publicKey) = identity.(Identity.publicKey)
        /\ created.(PublicIdentity.trustScore) = 100
        /\ exists r w'',
             verifyIdentity agentId Credentials.none w' = (Ok r, w'')
             /\ r.(VerifyResult.verified) = true
             /\ r.(VerifyResult.trustScore) = 100).
Proof.
  split.
  - intros [identity Hi]. unfold createIdentity, getIdentityObject. cbn.
    by rewrite Hi.
  - intros Hnone. unfold createIdentity, getIdentityObject, generateKeyPairSync,
      setTrustScore, saveIdentity, now, bind, gets, modify, ret.
    rewrite Hnone. cbn.
    eexists _, _, _. split; [reflexivity|]. cbn.
    repeat (split; [try done; by destruct (generateKeyPair _)|]).
    match goal with
    | |- context [verifyIdentity agentId Credentials.none ?w1] =>
        match goal with
        | |- context [<[agentId := ?i]> (identities w)] =>
            destruct (verifyIdentity_accepts agentId Credentials.none w1 i)
              as (e & w2 & Hrun & _)
        end
    end.
    + cbn. by rewrite lookup_insert_eq.
    + done.
    + done.
    + unfold getTrustScore. cbn. rewrite lookup_insert_eq. cbn. lia.
    + eexists _, w2. split; [exact Hrun|]. cbn. split; [done|].
      unfold getTrustScore. cbn. by rewrite lookup_insert_eq.
Qed.

(** X9.  The trust-score methods do not check that the agent exists.  For
    an agent without an identity, [incrementTrustScore] records a score all
    the same; [decrementTrustScore] by at least the recorded score records 0
    and then fails in the automatic revocation: it throws
    [Identity not found], with the 0 recorded and no audit entry written. *)
Theorem trust_updates_for_unknown_agent (agentId : string) (amount : Z)
    (reason : string) (w : World) :
  w.(identities) !! agentId = None ->
  (exists w',
      incrementTrustScore agentId amount reason w = (Ok tt, w')
      /\ getTrustScore agentId w' = Z.min 100 (getTrustScore agentId w + amount)
      /\ w'.(identities) = w.(identities)
      /\ w'.(identityFiles) = w.(identityFiles))
  /\ (getTrustScore agentId w <= amount ->
      exists w',
        decrementTrustScore agentId amount reason w
        = (Throw ("Identity not found for agent: " +:+ agentId), w')
        /\ getTrustScore agentId w' = 0
        /\ w'.(identities) = w.(identities)
        /\ w'.(emitted) = w.(emitted))
  /\ (amount < getTrustScore agentId w ->
      exists w',
        decrementTrustScore agentId amount reason w = (Ok tt, w')
        /\ getTrustScore agentId w' = getTrustScore agentId w - amount).
Proof.
  intros Hnone. split; [|split].
  - unfold incrementTrustScore, setTrustScore, assign, saveStored, saveIdentity,
      getIdentityObject. cbn. rewrite Hnone. cbn. rewrite Hnone. cbn.
    eexists. split; [reflexivity|]. cbn. unfold getTrustScore at 1. cbn.
    by rewrite lookup_insert_eq.
  - intros Hle.
    unfold decrementTrustScore, setTrustScore, assign, saveStored, saveIdentity,
      getIdentityObject. cbn. rewrite Hnone. cbn. rewrite Hnone. cbn.
    rewrite Z.max_l by lia. cbn.
    unfold revokeIdentity, getIdentityObject. cbn. rewrite Hnone. cbn.
    eexists. split; [reflexivity|]. cbn. unfold getTrustScore at 1. cbn.
    by rewrite lookup_insert_eq.
  - intros Hlt.
    unfold decrementTrustScore, setTrustScore, assign, saveStored, saveIdentity,
      getIdentityObject. cbn. rewrite Hnone. cbn. rewrite Hnone. cbn.
    rewrite Z.max_r by lia.
    destruct (Z.eqb_spec (getTrustScore agentId w - amount) 0); [lia|]. cbn.
    eexists. split; [reflexivity|]. cbn. unfold getTrustScore at 1. cbn.
    by rewrite lookup_insert_eq.
Qed.

End IdentityEdges.

(* ===================================================================== *)
(** * The trail of a governed action (production-agent.js, execute)       *)
(* ===================================================================== *)

Section ExecuteTrail.
Context `{Runtime}.
Import ProductionAgent Spec.

Lemma logAction_entry agentId action details ok output error w :
  exists e w',
    AuditLogger.logAction agentId action details ok output error w = (Ok tt, w')
    /\ logsOnly w w' [e]
    /\ getField "type" e = JStr "agent_action"
    /\ getField "agentId" e = JStr agentId
    /\ getField "action" e = JStr action
    /\ prop "success" (getField "result" e) = JBool ok
    /\ prop "error" (getField "result" e) = error.
Proof.
  unfold AuditLogger.logAction, now. cbn.
  match goal with
  | |- context [AuditLogger.writeEntry ?e ?w0] =>
      destruct (writeEntry_logs e w0) as (e' & w' & Heq & Hlog & Hty)
  end.
  rewrite Heq. cbn. exists e', w'. split; [done|]. split; [exact Hlog|].
  repeat split; by rewrite Hty.
Qed.

Lemma logEscalation_entry agentId action context escalationReason assignedTo w :
  exists e w',
    AuditLogger.logEscalation agentId action context escalationReason assignedTo w
      = (Ok (clock (S w.(ticks))), w')
    /\ logsOnly w w' [e]
    /\ getField "type" e = JStr "escalation"
    /\ getField "agentId" e = JStr agentId
    /\ getField "action" e = JStr action
    /\ getField "timestampUnix" e = JNum (ofZ (clock (S w.(ticks))))
    /\ getField "escalationReason" e = JStr escalationReason
    /\ getField "assignedTo" e = JStr assignedTo
    /\ getField "status" e = JStr "pending".
Proof.
  unfold AuditLogger.logEscalation, now. cbn.
  match goal with
  | |- context [AuditLogger.writeEntry ?e ?w0] =>
      destruct (writeEntry_logs e w0) as (e' & w' & Heq & Hlog & Hty)
  end.
  rewrite Heq. cbn. exists e', w'. split; [done|]. split; [exact Hlog|].
  repeat split; by rewrite Hty.
Qed.

(** What a successful identity check of the agent leaves. *)
Lemma agent_verified self context w r w1 :
  verifyIdentity self context w = (Ok r, w1) ->
  r.(VerifyResult.verified) = true ->
  exists e identity1,
    w1.(emitted) = w.(emitted) ++ [e]
    /\ isIdentityVerification e
    /\ w1.(trustScores) = w.(trustScores)
    /\ w1.(policies) = w.(policies)
    /\ w1.(identities) !! self.(agentId) = Some identity1
    /\ identity1.(Identity.status) = active
    /\ 50 <= IdentitySystem.getTrustScore self.(agentId) w.
Proof.
  unfold verifyIdentity. cbv zeta.
  match goal with
  | |- context [IdentitySystem.verifyIdentity _ ?c _] => set (credentials := c)
  end.
  intros Hrun Hv.
  destruct (identities w !! agentId self) as [identity|] eqn:Hi.
  2:{ destruct (verifyIdentity_rejects (agentId self) credentials w)
        as (r1 & w' & Hrun1 & Hv1); [by rewrite Hi|congruence]. }
  destruct (verifyIdentity_verifies_exactly_when_aux (agentId self) credentials w
              identity Hi) as [(Hactive & Hsig & Htrust)|Hnot].
  - destruct (verifyIdentity_accepts (agentId self) credentials w identity)
      as (e & w' & Hrun1 & Hids & _ & Hs & Hp & Hem & Hty & _); try done.
    rewrite Hrun1 in Hrun. injection Hrun as _ <-.
    eexists e, _. rewrite Hids, lookup_insert_eq. by repeat split.
  - destruct (verifyIdentity_rejects (agentId self) credentials w)
      as (r1 & w' & Hrun1 & Hv1); [|congruence].
    intros i Hi' Hactive Hsig. assert (i = identity) as -> by congruence.
    by apply Hnot.
Qed.

Lemma checkPermission_frame agentId action context w d w2 :
  PolicyEngine.checkPermission agentId action context w = (Ok d, w2) ->
  exists e, logsOnly w w2 [e] /\ getField "type" e = JStr "policy_decision".
Proof.
  intros Hrun.
  destruct (checkPermission_logs agentId action context w)
    as (d' & e & w' & Hrun' & Hlog & Hty & _).
  rewrite Hrun in Hrun'. injection Hrun' as _ <-. eauto.
Qed.

(** X10.  The audit trail of a call of [execute] whose identity check
    succeeds, in order: the [identity_verification] entry, the
    [policy_decision] entry, and then nothing more for a denial, the
    [escalation] entry for an escalation (pending, assigned to the
    configured handler or to [human-review], and carrying as
    [timestampUnix] the escalation id that [execute] returns), or the
    [agent_action] entry with the task's success for an allowed action
    whose task succeeds. *)
Theorem execute_audit_trail {T : Type} (self : ProductionAgent.t)
    (action : string) (context : JsObject) (executor : option (Executor T))
    (w : World) (ext : T) :
  let outcome := execute self action context executor (w, ext) in
  let trail := drop (length (emitted w)) (emitted (fst (snd outcome))) in
  exists identityCheck w1,
    verifyIdentity self context (setTicks (S w.(ticks)) w) = (Ok identityCheck, w1)
    /\ (identityCheck.(VerifyResult.verified) = true ->
        exists policyCheck w2 e1 e2,
          PolicyEngine.checkPermission self.(agentId) action context w1
          = (Ok policyCheck, w2)
          /\ isIdentityVerification e1
          /\ getField "type" e2 = JStr "policy_decision"
          /\ (policyCheck.(Decision.requiresEscalation) = true ->
              exists e3,
                trail = [e1; e2; e3]
                /\ fst outcome
                   = Ok (Escalated (clock (S w2.(ticks)))
                           policyCheck.(Decision.reason)
                           policyCheck.(Decision.escalationRule))
                /\ getField "type" e3 = JStr "escalation"
                /\ getField "timestampUnix" e3 = JNum (ofZ (clock (S w2.(ticks))))
                /\ getField "escalationReason" e3
                   = JStr policyCheck.(Decision.reason)
                /\ getField "assignedTo" e3
                   = JStr (default "human-review"
                             (PolicyEngine.present self.(escalationHandler)))
                /\ getField "status" e3 = JStr "pending")
          /\ (policyCheck.(Decision.requiresEscalation) = false ->
              policyCheck.(Decision.allowed) = false ->
              trail = [e1; e2])
          /\ (policyCheck.(Decision.requiresEscalation) = false ->
              policyCheck.(Decision.allowed) = true ->
              fst (fst (fst (runExecutor_result executor context ext))) = true ->
              exists e3,
                trail = [e1; e2; e3]
                /\ getField "type" e3 = JStr "agent_action"
                /\ getField "action" e3 = JStr action
                /\ prop "success" (getField "result" e3) = JBool true)).
Proof.
  intros outcome trail.
  destruct (agent_verifyIdentity_run self context (setTicks (S (ticks w)) w))
    as (identityCheck & w1 & entries & Hverify & _).
  exists identityCheck, w1. split; [done|]. intros Hok.
  destruct (agent_verified _ _ _ _ _ Hverify Hok)
    as (e1 & identity1 & Hem1 & Hty1 & Hs1 & Hp1 & Hi1 & Hactive1 & Htrust).
  destruct (checkPermission_logs (agentId self) action context w1)
    as (policyCheck & e2 & w2 & Hpolicy & (Hi2 & Hs2 & Hp2 & _ & _ & Hem2) & Hty2 & _).
  exists policyCheck, w2, e1, e2. split; [done|]. split; [done|]. split; [done|].
  assert (emitted w2 = emitted w ++ [e1; e2]) as Hem.
  { rewrite Hem2, Hem1. cbn. by rewrite <- app_assoc. }
  subst trail outcome. unfold execute.
  rewrite !(onWorld_bind _ _ _ _ _ _ (now_run w)).
  unfold catch.
  rewrite !(onWorld_bind _ _ _ _ _ _ Hverify). rewrite Hok. cbn [negb].
  rewrite !(onWorld_bind _ _ _ _ _ _ Hpolicy).
  destruct (Decision.requiresEscalation policyCheck) eqn:Hesc.
  - split; [|split; intros ?; done]. intros _.
    edestruct logEscalation_entry
      as (e3 & w3 & Hlog & (_ & _ & _ & _ & _ & Hem3) & Hfields).
    rewrite (onWorld_bind _ _ _ _ _ _ Hlog). cbn [ret fst snd].
    destruct Hfields as (? & _ & _ & ? & ? & ? & ?).
    exists e3. split; [|by repeat split].
    cbn [fst snd]. rewrite Hem3, Hem, <- app_assoc.
    by rewrite drop_app_length.
  - split; [done|].
    destruct (Decision.allowed policyCheck) eqn:Hallow; cbn [negb].
    + split; [done|]. intros _ _ Hsuccess.
      pose proof (runExecutor_run executor context w2 ext) as Hrun.
      unfold runExecutor_result in Hsuccess.
      destruct (completion executor context ext) as [[output|error] ext'];
        cbn [fst snd] in Hrun, Hsuccess; [|done].
      rewrite (bind_run _ _ _ _ _ Hrun). cbv beta iota.
      edestruct logAction_entry
        as (e3 & w3 & Hlog & (_ & _ & _ & _ & _ & Hem3)
            & Hty3 & _ & Hact3 & Hsucc3 & _).
      rewrite (onWorld_bind _ _ _ _ _ _ Hlog).
      edestruct incrementTrustScore_run as (w4 & Hinc & _ & _ & _ & Hem4).
      rewrite (onWorld_bind _ _ _ _ _ _ Hinc).
      rewrite (onWorld_bind _ _ _ _ _ _ (now_run w4)).
      cbn [bind onWorld gets ret fst snd].
      exists e3. split; [|done].
      cbn [fst snd emitted setTicks].
      rewrite Hem4, Hem3, Hem, <- app_assoc. by rewrite drop_app_length.
    + split; [|intros ? ?; done]. intros _ _.
      cbn [ret fst snd]. by rewrite Hem, drop_app_length.
Qed.




End ExecuteTrail.

(* ===================================================================== *)
(** * Queries on the audit log (audit-logger.js, production-agent.js)     *)
(* ===================================================================== *)

Section QueryFacts.
Context `{Runtime} `{Paths}.
Import AuditLogger AuditQueries.

Lemma unless_true test rest :
  unless test rest = Some true <-> test = Some false /\ rest = Some true.
Proof. destruct test as [[]|]; cbn; naive_solver. Qed.

Lemma differs_false k entry filters :
  differs k entry filters = Some false ->
  truthy (getField k filters) = true ->
  exists v, read k entry = Some v /\ strictEq v (getField k filters) = true.
Proof.
  unfold differs. intros Hd Ht. rewrite Ht in Hd.
  destruct (read k entry) as [v|]; [|done].
  exists v. split; [done|]. injection Hd as Hd. by apply negb_false_iff.
Qed.

Lemma in_matching filters lines x :
  In x (matching filters lines)
  <-> In (Parsed x) lines /\ matchesFilters x filters = Some true.
Proof.
  unfold matching. rewrite in_flat_map. split.
  - intros ([entry|] & Hin & Hx); [|done].
    destruct (matchesFilters entry filters) as [[]|] eqn:Hm; try done.
    destruct Hx as [<-|[]]. done.
  - intros [Hin Hm]. exists (Parsed x). split; [done|]. rewrite Hm. by left.
Qed.

Lemma in_getLogFiles file w :
  In file (getLogFiles w)
  <-> is_Some (w.(auditFiles) !! file)
      /\ isLogFile (dirname w.(logger).(currentLogFile)) file = true.
Proof.
  unfold getLogFiles. cbv zeta.
  rewrite <- list_elem_of_In.
  rewrite (merge_sort_Permutation codeUnitOrder).
  rewrite list_elem_of_In, filter_In, <- list_elem_of_In, elem_of_elements.
  by rewrite elem_of_dom.
Qed.

Lemma in_query filters w x :
  In x (query filters w)
  <-> exists file lines,
        w.(auditFiles) !! file = Some lines
        /\ isLogFile (dirname w.(logger).(currentLogFile)) file = true
        /\ In (Parsed x) lines
        /\ matchesFilters x filters = Some true.
Proof.
  unfold query. rewrite in_flat_map. split.
  - intros (file & [[lines Hfile] Hlog]%in_getLogFiles & Hx).
    rewrite Hfile in Hx. cbn in Hx. apply in_matching in Hx as [Hin Hm].
    by exists file, lines.
  - intros (file & lines & Hfile & Hlog & Hin & Hm).
    exists file. split; [apply in_getLogFiles; by rewrite Hfile|].
    rewrite Hfile. cbn. by apply in_matching.
Qed.

(** The current file after a write ends with the line of the entry. *)
Lemma writeEntry_appends entry w :
  exists written w' lines,
    writeEntry entry w = (Ok written, w')
    /\ w'.(auditFiles) !! w'.(logger).(currentLogFile)
       = Some (lines ++ [Parsed (jsonValue (JObj written))])
    /\ forall k, k <> "previousHash" -> k <> "hash" ->
         getField k written = getField k entry.
Proof.
  unfold writeEntry, bind, shouldRotate, gets, rotateLogFile, renameSync,
    getCurrentLogFile, updateLogger, appendFileSync, modify, ret, now.
  cbn.
  destruct (auditFiles w !! currentLogFile (logger w)) as [lines|] eqn:Hfile.
  - destruct (_ <? fileSize _); cbn; rewrite ?Hfile; cbn;
      destruct (enableChainValidation (logger w)); cbn;
      eexists _, _, _; (split; [reflexivity|]); cbn;
      rewrite lookup_insert_eq; (split; [reflexivity|]);
      intros k ? ?; by rewrite ?getField_setField_ne.
  - destruct (enableChainValidation (logger w)); cbn;
      eexists _, _, _; (split; [reflexivity|]); cbn;
      rewrite lookup_insert_eq; (split; [reflexivity|]);
      intros k ? ?; by rewrite ?getField_setField_ne.
Qed.

Lemma strictEq_refl_string s : strictEq (JStr s) (JStr s) = true.
Proof. cbn. apply String.eqb_refl. Qed.

(** X13.  Querying the log by agent.  Every entry that
    [query({agentId})] returns, for a non-empty agent id, is a line of one
    of the listed log files whose [agentId] is that very string; and an
    entry written for an agent through [writeEntry] (as the log methods
    do) is returned by the next [query({agentId})], provided the current
    log file bears a name that [getLogFiles] lists ([audit-*.jsonl]). *)
Theorem query_by_agent (agentId : string) (w : World) :
  (agentId <> "" ->
   forall x, In x (query [("agentId", JStr agentId)] w) ->
     prop "agentId" x = JStr agentId
     /\ exists file lines,
          In file (getLogFiles w)
          /\ w.(auditFiles) !! file = Some lines
          /\ In (Parsed x) lines)
  /\ (forall entry written w',
        writeEntry entry w = (Ok written, w') ->
        getField "agentId" entry = JStr agentId ->
        isLogFile (dirname w'.(logger).(currentLogFile))
          w'.(logger).(currentLogFile) = true ->
        In (jsonValue (JObj written)) (query [("agentId", JStr agentId)] w')).
Proof.
  split.
  - intros Hne x (file & lines & Hfile & Hlog & Hin & Hm)%in_query.
    split.
    + unfold matchesFilters in Hm. apply unless_true in Hm as [Hd _].
      apply differs_false in Hd as (v & Hread & Heq).
      2:{ cbn. by destruct (String.eqb_spec agentId ""). }
      cbn [getField String.eqb Ascii.eqb Bool.eqb] in Heq.
      apply strictEq_JStr in Heq as ->.
      destruct x; cbn in Hread; by try injection Hread as <-.
    + exists file, lines. split; [|done].
      apply in_getLogFiles. by rewrite Hfile.
  - intros entry written w' Hrun Hagent Hlog.
    destruct (writeEntry_appends entry w)
      as (written' & w1 & lines & Hrun' & Hfile & Hsame).
    rewrite Hrun in Hrun'. injection Hrun' as <- <-.
    apply in_query. eexists _, _. split; [exact Hfile|]. split; [exact Hlog|].
    split; [apply in_or_app; right; by left|].
    pose proof (prop_jsonValue "agentId" written) as Hp.
    rewrite Hsame, Hagent in Hp by done.
    rewrite jsonValue_obj in *. cbn [prop] in Hp.
    unfold matchesFilters, differs, read. cbn [getField String.eqb Ascii.eqb bool_rect
      Bool.eqb truthy].
    cbn. rewrite Hp.
    destruct (String.eqb_spec agentId ""); cbn; [done|].
    change (jsonValue (JStr agentId)) with (JStr agentId).
    by rewrite strictEq_refl_string.
Qed.

Lemma differs_falsy k k' entry filters :
  truthy (getField k filters) = false ->
  differs k' entry (setField k JUndefined filters) = differs k' entry filters.
Proof.
  intros Hf. unfold differs.
  destruct (String.eqb_spec k' k) as [->|Hne].
  - by rewrite getField_setField_eq, Hf.
  - by rewrite getField_setField_ne.
Qed.

(** X14.  [matchesFilters] tests a filter by its truthiness: an [agentId],
    [type] or [action] that is the empty string, and a [startTime] or
    [endTime] that is 0, filter nothing, as if they were not given.  The
    [allowed] filter alone is tested against [undefined]: [allowed: false]
    is honoured, and then an entry passes only if it has a decision whose
    [allowed] is [false]. *)
Theorem falsy_filters_filter_nothing (entry : JsValue) (filters : JsObject) :
  (forall k, k ∈ ["agentId"; "type"; "action"; "startTime"; "endTime"] ->
     truthy (getField k filters) = false ->
     matchesFilters entry (setField k JUndefined filters)
     = matchesFilters entry filters)
  /\ (forall b, getField "allowed" filters = JBool b ->
        matchesFilters entry filters = Some true ->
        exists decision,
          read "decision" entry = Some decision
          /\ prop "allowed" decision = JBool b).
Proof.
  split.
  - intros k Hk Hf. unfold matchesFilters.
    rewrite !(differs_falsy k) by done.
    assert (forall k', k' <> k ->
              getField k' (setField k JUndefined filters) = getField k' filters)
      as Hother by (intros k' ?; by apply getField_setField_ne).
    repeat (apply elem_of_cons in Hk as [->|Hk]);
      [| | | | |by apply elem_of_nil in Hk];
      rewrite ?getField_setField_eq, ?Hother by done; cbn [truthy];
      by rewrite ?Hf.
  - intros b Hb Hm. unfold matchesFilters in Hm.
    repeat (apply unless_true in Hm as [_ Hm]).
    rewrite Hb in Hm. cbn [strictEq negb] in Hm.
    apply unless_true in Hm as [Hm _].
    unfold decisionAllowed in Hm.
    destruct (read "decision" entry) as [decision|]; [|done].
    exists decision. split; [done|].
    destruct decision; cbn in Hm |- *; try done;
      injection Hm as Hm; apply negb_false_iff in Hm;
      match type of Hm with
      | strictEq ?v _ = true => destruct v; try done
      end; cbn in Hm; by apply Bool.eqb_prop in Hm as ->.
Qed.

End QueryFacts.

Section HistoryFacts.
Context `{Paths}.
Import AuditQueries AgentSetup.

Lemma ownEntries_keys seen o k :
  k ∈ map fst (ownEntries seen o) -> hasOwn k o = true.
Proof.
  revert seen. induction o as [|[k0 v0] o IH]; intros seen; cbn.
  - by intros ?%elem_of_nil.
  - destruct (String.eqb_spec k k0) as [->|Hne]; [done|]. cbn.
    destruct (bool_decide (k0 ∈ seen)); [apply IH|].
    cbn. intros [?|Hin]%elem_of_cons; [done|]. by eapply IH.
Qed.

Lemma spread_other target (entries : JsObject) k :
  k ∉ map fst entries ->
  getField k (fold_left (fun o kv => setField (fst kv) (snd kv) o) entries target)
  = getField k target.
Proof.
  revert target. induction entries as [|[k0 v0] entries IH]; intros target; [done|].
  cbn. intros [Hne Hnot]%not_elem_of_cons.
  rewrite IH by done. by apply getField_setField_ne.
Qed.

(** X15.  [getAuditHistory] puts the agent's own id in front of the
    caller's filters and lets them override it.  Without an [agentId]
    among the filters, every entry returned is one of the agent's own;
    with one, the history returned is the other agent's: the call is then
    the plain [query] with that id. *)
Theorem getAuditHistory_filters_override (self : ProductionAgent.t)
    (filters : JsObject) (w : World) :
  (hasOwn "agentId" filters = false ->
   self.(ProductionAgent.agentId) <> "" ->
   forall x, In x (getAuditHistory self filters w) ->
     prop "agentId" x = JStr self.(ProductionAgent.agentId))
  /\ (forall other,
        getAuditHistory self [("agentId", JStr other)] w
        = query [("agentId", JStr other)] w).
Proof.
  split; [|done].
  intros Hown Hne x Hin. unfold getAuditHistory, query in Hin.
  apply in_flat_map in Hin as (file & _ & Hin).
  unfold matching in Hin. apply in_flat_map in Hin as ([entry|] & _ & Hx); [|done].
  destruct (matchesFilters entry _) as [[]|] eqn:Hm; try done.
  destruct Hx as [<-|[]].
  unfold matchesFilters in Hm.
  destruct (differs "agentId" entry _) as [[]|] eqn:Hd; try done. clear Hm.
  unfold differs, spread in Hd.
  rewrite spread_other in Hd.
  2:{ intros Hk%ownEntries_keys. congruence. }
  cbn [getField String.eqb Ascii.eqb Bool.eqb truthy] in Hd.
  destruct (String.eqb_spec (ProductionAgent.agentId self) ""); [done|].
  cbn [negb] in Hd.
  destruct (read "agentId" entry) as [v|] eqn:Hread; [|done].
  injection Hd as Hd. apply negb_false_iff, strictEq_JStr in Hd as ->.
  destruct entry; cbn in Hread; by try injection Hread as <-.
Qed.

End HistoryFacts.

(* ===================================================================== *)
(** * The identity store (identity-system.js)                             *)
(* ===================================================================== *)

Section StoreFacts.
Context `{Runtime}.
Import IdentitySystem IdentityStore Spec.

Lemma persisted_frame w w' :
  w'.(identities) = w.(identities) ->
  w'.(identityFiles) = w.(identityFiles) ->
  persisted w -> persisted w'.
Proof. unfold persisted. by intros -> ->. Qed.

Lemma persisted_logsOnly w w' es : logsOnly w w' es -> persisted w -> persisted w'.
Proof. intros (Hi & _ & _ & Hf & _). by apply persisted_frame. Qed.

(** An assignment to a property of an identity, saved at once. *)
Lemma persisted_assign agentId f w :
  (forall i, Identity.agentId (f i) = Identity.agentId i) ->
  persisted w ->
  persisted (stored agentId (setIdentities (assigned agentId f w.(identities)) w)).
Proof.
  intros Hf [Hfiles Hkeys]. unfold stored, assigned. cbn.
  destruct (identities w !! agentId) as [i|] eqn:Hi; cbn.
  - rewrite lookup_insert_eq. cbn. rewrite Hf, (Hkeys _ _ Hi), Hfiles.
    split; [done|]. intros a j. cbn.
    destruct (decide (a = agentId)) as [->|Hne].
    + rewrite lookup_insert_eq. intros [= <-]. rewrite Hf. by apply Hkeys.
    + rewrite lookup_insert_ne by done. apply Hkeys.
  - rewrite Hi. by cbn.
Qed.

Lemma persisted_trustScores m w : persisted w -> persisted (setTrustScores m w).
Proof. by apply persisted_frame. Qed.

Lemma persisted_ticks n w : persisted w -> persisted (setTicks n w).
Proof. by apply persisted_frame. Qed.

Lemma persisted_keys n w : persisted w -> persisted (setKeysGenerated n w).
Proof. by apply persisted_frame. Qed.

Ltac run_with lemma := erewrite bind_run by (apply lemma); cbv beta zeta.
Ltac run_gets := erewrite bind_run by reflexivity; cbv beta zeta.

Lemma persisted_increment agentId amount reason w :
  persisted w -> persisted (snd (incrementTrustScore agentId amount reason w)).
Proof.
  intros Hp. unfold incrementTrustScore. run_gets. run_gets.
  run_with assign_run. rewrite saveStored_run. cbn [snd].
  apply (persisted_assign agentId _ (setTrustScores _ w)); [done|].
  by apply persisted_trustScores.
Qed.

Lemma persisted_revoke agentId reason w :
  persisted w -> persisted (snd (revokeIdentity agentId reason w)).
Proof.
  intros Hp. unfold revokeIdentity, getIdentityObject. run_gets.
  destruct (identities w !! agentId) as [i|] eqn:Hi; [|done].
  run_with now_run. run_with assign_run. run_with saveStored_run. run_gets.
  edestruct logIdentityVerification_logs as (e & w' & Heq & Hlog & _).
  rewrite Heq. cbn [snd]. eapply persisted_logsOnly; [exact Hlog|].
  apply persisted_trustScores.
  apply (persisted_assign agentId _ (setTicks _ w)); [done|].
  by apply persisted_ticks.
Qed.

Lemma persisted_decrement agentId amount reason w :
  persisted w -> persisted (snd (decrementTrustScore agentId amount reason w)).
Proof.
  intros Hp. unfold decrementTrustScore. run_gets. run_gets.
  run_with assign_run. run_with saveStored_run.
  match goal with
  | |- context [stored agentId ?w0] =>
      assert (persisted (stored agentId w0)) as Hp1
  end.
  { apply (persisted_assign agentId _ (setTrustScores _ w)); [done|].
    by apply persisted_trustScores. }
  destruct (_ =? 0); [|done]. by apply persisted_revoke.
Qed.

Lemma persisted_logAndReturn agentId verificationType result w :
  persisted w -> persisted (snd (logAndReturn agentId verificationType result w)).
Proof.
  intros Hp.
  destruct (logAndReturn_run agentId verificationType result w)
    as (e & w' & -> & Hlog & _).
  by eapply persisted_logsOnly.
Qed.

Lemma persisted_verify agentId credentials w :
  persisted w -> persisted (snd (verifyIdentity agentId credentials w)).
Proof.
  intros Hp. unfold verifyIdentity, getIdentityObject. run_gets.
  destruct (identities w !! agentId) as [identity|] eqn:Hi;
    [|by apply persisted_logAndReturn].
  destruct (Identity.status identity); [|by apply persisted_logAndReturn].
  destruct (truthy _ && truthy _ && negb _).
  - pose proof (persisted_decrement agentId 10 "Failed signature verification"
                  w Hp) as Hp1.
    unfold bind at 1.
    destruct (decrementTrustScore agentId 10 "Failed signature verification" w)
      as [[[]|err] w1]; [|done].
    cbn [snd] in Hp1. run_gets. by apply persisted_logAndReturn.
  - unfold checkTrustAndRecord. run_gets.
    destruct (getTrustScore agentId w <? 50); [by apply persisted_logAndReturn|].
    run_with now_run. run_with assign_run. run_with saveStored_run.
    apply persisted_logAndReturn.
    apply (persisted_assign agentId _ (setTicks _ w)); [done|].
    by apply persisted_ticks.
Qed.

Lemma persisted_create agentId metadata w :
  persisted w -> persisted (snd (createIdentity agentId metadata w)).
Proof.
  intros [Hfiles Hkeys]. unfold createIdentity, getIdentityObject,
    generateKeyPairSync, setTrustScore, saveIdentity, now. cbn.
  destruct (identities w !! agentId) as [i|] eqn:Hi; [done|]. cbn.
  split; cbn; [by rewrite Hfiles|].
  intros a j. destruct (decide (a = agentId)) as [->|Hne].
  - rewrite lookup_insert_eq. by intros [= <-].
  - rewrite lookup_insert_ne by done. apply Hkeys.
Qed.

Lemma persisted_update agentId updates w :
  persisted w -> persisted (snd (updateMetadata agentId updates w)).
Proof.
  intros Hp. unfold updateMetadata, getIdentityObject. run_gets.
  destruct (identities w !! agentId) as [i|] eqn:Hi; [|done].
  run_with now_run. run_with assign_run. rewrite saveStored_run. cbn [snd].
  apply (persisted_assign agentId _ (setTicks _ w)); [done|].
  by apply persisted_ticks.
Qed.

Lemma persisted_rotate agentId w :
  persisted w -> persisted (snd (rotateKeypair agentId w)).
Proof.
  intros Hp. unfold rotateKeypair, getIdentityObject. run_gets.
  destruct (identities w !! agentId) as [i|] eqn:Hi; [|done].
  run_with now_run. run_with generateKeyPairSync_run. run_with now_run.
  run_with assign_run. rewrite saveStored_run. cbn [snd].
  match goal with
  | |- persisted (stored agentId (setIdentities _ ?w0)) =>
      apply (persisted_assign agentId _ w0); [done|]
  end.
  by apply persisted_ticks, persisted_keys, persisted_ticks.
Qed.

(** X16.  Every change to an identity is on file when the method that
    made it returns or throws: if the identity store holds what the
    identity map holds, each identity under its agent's name, it still does
    after any sequence of calls of [createIdentity], [verifyIdentity],
    [incrementTrustScore], [decrementTrustScore], [revokeIdentity],
    [updateMetadata] and [rotateKeypair]. *)
Theorem identities_are_persisted (calls : list Call) (w : World) :
  persisted w -> persisted (afterAll calls w).
Proof.
  unfold afterAll. revert w.
  induction calls as [|call calls IH]; intros w Hp; [done|].
  cbn [fold_left]. apply IH.
  destruct call; cbn [after].
  - by apply persisted_create.
  - by apply persisted_verify.
  - by apply persisted_increment.
  - by apply persisted_decrement.
  - by apply persisted_revoke.
  - by apply persisted_update.
  - by apply persisted_rotate.
Qed.

Lemma loadFiles_lookup (files : list (string * Identity.t)) :
  forall w,
    NoDup (map fst files) ->
    (forall k i, In (k, i) files -> Identity.agentId i = k) ->
    let w' := loadFiles files w in
    (forall a, w'.(identities) !! a
               = match (list_to_map files : gmap string Identity.t) !! a with
                 | Some i => Some i
                 | None => w.(identities) !! a
                 end)
    /\ (forall a, w'.(trustScores) !! a
                  = match (list_to_map files : gmap string Identity.t) !! a with
                    | Some i => Some (loadedScore i)
                    | None => w.(trustScores) !! a
                    end)
    /\ w'.(identityFiles) = w.(identityFiles)
    /\ w'.(policies) = w.(policies)
    /\ w'.(auditFiles) = w.(auditFiles)
    /\ w'.(emitted) = w.(emitted).
Proof.
  induction files as [|[k i] files IH]; intros w Hnodup Hkeys; [done|].
  cbn [map fst] in Hnodup. apply NoDup_cons in Hnodup as [Hfresh Hnodup].
  assert (Identity.agentId i = k) as Hk by (apply Hkeys; by left).
  assert ((list_to_map files : gmap string Identity.t) !! k = None) as Hnone.
  { apply not_elem_of_list_to_map_1. exact Hfresh. }
  unfold loadFiles. cbn [fold_left snd]. rewrite Hk.
  match goal with
  | |- context [fold_left _ files ?w0] =>
      destruct (IH w0 Hnodup) as (Hi & Hs & Hf & Hp & Ha & He);
        [intros; apply Hkeys; by right|]
  end.
  unfold loadFiles in *. cbv zeta in *.
  rewrite Hf, Hp, Ha, He. cbn. repeat split; try done.
  - intros a. rewrite Hi. cbn.
    destruct (decide (a = k)) as [->|Hne].
    + by rewrite Hnone, !lookup_insert_eq.
    + by rewrite !lookup_insert_ne.
  - intros a. rewrite Hs. cbn.
    destruct (decide (a = k)) as [->|Hne].
    + by rewrite Hnone, !lookup_insert_eq.
    + by rewrite !lookup_insert_ne.
Qed.

(** X17.  A new [IdentitySystem] on a store that holds each identity under
    its agent's name reads every identity back as it was saved, in whatever
    order the directory lists the files, and takes each trust score from
    the stored identity, except that a stored score of 0 is read as 100.
    After any calls on an identity system that was persisted, a restart
    therefore restores its identities; the trust scores of the score table
    are those last written on the identities. *)
Theorem restart_restores_identities (listing : list (string * Identity.t))
    (w : World) :
  lists listing w ->
  persisted w ->
  exists w',
    construct listing w = (Ok tt, w')
    /\ w'.(identities) = w.(identities)
    /\ w'.(trustScores) = loadedScore <$> w.(identities)
    /\ w'.(identityFiles) = w.(identityFiles)
    /\ w'.(policies) = w.(policies)
    /\ w'.(auditFiles) = w.(auditFiles)
    /\ persisted w'.
Proof.
  intros Hlisting [Hfiles Hkeys]. unfold lists in Hlisting.
  unfold construct, loadIdentities.
  exists (loadFiles listing (setTrustScores ∅ (setIdentities ∅ w))).
  split; [reflexivity|].
  assert (NoDup (map fst listing)) as Hnodup.
  { change (map fst listing) with (listing.*1). rewrite Hlisting.
    apply NoDup_fst_map_to_list. }
  assert ((list_to_map listing : gmap string Identity.t) = identityFiles w)
    as Hmap.
  { rewrite (list_to_map_proper listing (map_to_list (identityFiles w)));
      [apply list_to_map_to_list|exact Hnodup|exact Hlisting]. }
  destruct (loadFiles_lookup listing (setTrustScores ∅ (setIdentities ∅ w)))
    as (Hi & Hs & Hf & Hp & Ha & He).
  { exact Hnodup. }
  { intros k i Hin. apply Hkeys. rewrite <- Hfiles.
    apply elem_of_map_to_list. rewrite <- Hlisting. by apply list_elem_of_In. }
  set (w' := loadFiles _ _) in *. cbn in Hi, Hs, Hf, Hp, Ha.
  assert (identities w' = identities w) as Hids.
  { apply map_eq. intros a. rewrite Hi, Hmap, Hfiles.
    by destruct (identities w !! a). }
  split; [done|]. split.
  { apply map_eq. intros a.
    rewrite Hs, Hmap, Hfiles, lookup_fmap.
    by destruct (identities w !! a). }
  split; [done|]. split; [done|]. split; [done|].
  split; [by rewrite Hf, Hids|]. by rewrite Hids.
Qed.

End StoreFacts.

(* ===================================================================== *)
(** * Loading the policies (policy-engine.js)                             *)
(* ===================================================================== *)

Section PolicyLoading.
Context `{Runtime}.
Import PolicyFiles.

Lemma loadFiles_loads (files : list (string * PolicyFile)) :
  forall w,
    Forall (fun file => is_Some (declares (snd file))) files ->
    exists w',
      loadFiles files w = (Ok tt, w')
      /\ (forall agent,
            w'.(policies) !! agent
            = match last (List.filter
                            (fun p => String.eqb (Policy.agent p) agent)
                            (omap (fun file => declares (snd file)) files)) with
              | Some policy => Some policy
              | None => w.(policies) !! agent
              end)
      /\ w'.(identities) = w.(identities)
      /\ w'.(trustScores) = w.(trustScores)
      /\ w'.(emitted) = w.(emitted).
Proof.
  induction files as [|[file content] files IH]; intros w Hall.
  - exists w. by repeat split.
  - apply Forall_cons in Hall as [[policy Hp] Hall]. cbn [snd] in Hp.
    cbn [loadFiles]. unfold declares in Hp.
    destruct content as [message|agent permissions]; [done|].
    destruct (PolicyEngine.present agent) as [a|] eqn:Hagent; [|done].
    injection Hp as <-.
    erewrite bind_run by reflexivity.
    match goal with
    | |- context [loadFiles files ?w0] =>
        destruct (IH w0 Hall) as (w' & Hrun & Hpol & Hi & Hs & He)
    end.
    exists w'. split; [exact Hrun|]. split; [|by rewrite Hi, Hs, He].
    intros agent'. rewrite Hpol.
    assert (omap (fun file0 : string * PolicyFile => declares (snd file0))
              ((file, Document agent permissions) :: files)
            = {| Policy.agent := a; Policy.permissions := permissions |}
              :: omap (fun file0 => declares (snd file0)) files) as ->.
    { cbn. by rewrite Hagent. }
    cbn [List.filter Policy.agent].
    destruct (String.eqb_spec a agent') as [->|Hne].
    + destruct (List.filter _ (omap _ files)) as [|p ps] eqn:Hrest.
      * cbn. by rewrite lookup_insert_eq.
      * rewrite last_cons_cons.
        destruct (last (p :: ps)) eqn:Hlast; [done|].
        by apply last_None in Hlast.
    + cbn [setPolicies policies]. by rewrite lookup_insert_ne.
Qed.

Lemma omap_documents (files : list (string * PolicyFile)) :
  omap (fun file => declares (snd file))
       (List.filter (fun f => isPolicyFile (fst f)) files)
  = documents files.
Proof.
  unfold documents. induction files as [|[file content] files IH]; [done|].
  cbn. destruct (isPolicyFile file); cbn; by rewrite IH.
Qed.

(** X18.  When every file of the policy directory that ends in [.yaml] or
    [.yml] parses and names its agent, [loadPolicies] succeeds; the other
    files are not read; and the policy of an agent is the one of the last
    such file that declares it, in the order of the directory: a later
    file replaces an earlier one without notice.  An agent that no file
    declares keeps the policy it had. *)
Theorem loadPolicies_last_file_wins (files : list (string * PolicyFile))
    (w : World) :
  Forall (fun file => isPolicyFile (fst file) = true ->
                      is_Some (declares (snd file))) files ->
  exists w',
    loadPolicies (Ok files) w = (Ok tt, w')
    /\ (forall agent,
          getPolicyFor agent w'
          = match last (List.filter
                          (fun p => String.eqb (Policy.agent p) agent)
                          (documents files)) with
            | Some policy => Some policy
            | None => getPolicyFor agent w
            end)
    /\ w'.(identities) = w.(identities)
    /\ w'.(trustScores) = w.(trustScores)
    /\ w'.(emitted) = w.(emitted).
Proof.
  intros Hall. unfold loadPolicies, getPolicyFor.
  destruct (loadFiles_loads (List.filter (fun f => isPolicyFile (fst f)) files) w)
    as (w' & Hrun & Hpol & Hrest).
  { apply Forall_forall. intros file [Hin Hyaml]%list_elem_of_In%filter_In.
    rewrite Forall_forall in Hall. apply Hall; [|done]. by apply list_elem_of_In. }
  exists w'. split; [exact Hrun|]. split; [|exact Hrest].
  intros agent. by rewrite Hpol, omap_documents.
Qed.

Lemma loadFiles_stops (good : list (string * PolicyFile)) file bad rest :
  forall w,
    Forall (fun file => is_Some (declares (snd file))) good ->
    declares bad = None ->
    exists message w',
      loadFiles (good ++ (file, bad) :: rest) w = (Throw message, w')
      /\ loadFiles good w = (Ok tt, w').
Proof.
  induction good as [|[file0 content] good IH]; intros w Hall Hbad.
  - cbn. unfold declares in Hbad.
    destruct bad as [message|agent permissions]; [by eexists _, _|].
    destruct (PolicyEngine.present agent); [done|]. by eexists _, _.
  - apply Forall_cons in Hall as [[policy Hp] Hall]. cbn [snd] in Hp.
    cbn [app loadFiles]. unfold declares in Hp.
    destruct content as [message|agent permissions]; [done|].
    destruct (PolicyEngine.present agent) as [a|]; [|done].
    erewrite !bind_run by reflexivity. by apply IH.
Qed.

(** X19.  [reloadPolicies] is not atomic.  It empties the policy map
    first; if the directory cannot be read, or a policy file fails to parse
    or names no agent, it throws with the map holding only the policies of
    the files read before the failure.  The policies held before the reload
    are not restored, and the files after the bad one are not read: an
    agent whose policy is not among the files read so far has no policy any
    more, and [checkPermission] denies it everything. *)
Theorem reloadPolicies_is_not_atomic
    (good rest : list (string * PolicyFile)) (file : string)
    (bad : PolicyFile) (w : World) :
  Forall (fun file => isPolicyFile (fst file) = true ->
                      is_Some (declares (snd file))) good ->
  isPolicyFile file = true ->
  declares bad = None ->
  (forall message,
      reloadPolicies (Throw message) w = (Throw message, setPolicies ∅ w))
  /\ exists message w',
       reloadPolicies (Ok (good ++ (file, bad) :: rest)) w = (Throw message, w')
       /\ loadPolicies (Ok good) (setPolicies ∅ w) = (Ok tt, w')
       /\ forall agent action context,
            Forall (fun p => Policy.agent p <> agent) (documents good) ->
            getPolicyFor agent w' = None
            /\ exists decision w'',
                 PolicyEngine.checkPermission agent action context w'
                 = (Ok decision, w'')
                 /\ decision.(Decision.allowed) = false
                 /\ decision.(Decision.requiresEscalation) = false
                 /\ decision.(Decision.reason)
                    = "No policy found for agent: " +:+ agent.
Proof.
  intros Hall Hyaml Hbad. split; [done|].
  unfold reloadPolicies, loadPolicies.
  erewrite !bind_run by reflexivity.
  rewrite List.filter_app. cbn [List.filter fst]. rewrite Hyaml.
  destruct (loadFiles_stops (List.filter (fun f => isPolicyFile (fst f)) good)
              file bad (List.filter (fun f => isPolicyFile (fst f)) rest)
              (setPolicies ∅ w))
    as (message & w' & Hthrow & Hload); [|done|].
  { apply Forall_forall. intros f [Hin Hy]%list_elem_of_In%filter_In.
    rewrite Forall_forall in Hall. apply Hall; [|done]. by apply list_elem_of_In. }
  exists message, w'. split; [exact Hthrow|]. split; [exact Hload|].
  intros agent action context Hnone.
  destruct (loadFiles_loads (List.filter (fun f => isPolicyFile (fst f)) good)
              (setPolicies ∅ w)) as (w1 & Hrun & Hpol & _).
  { apply Forall_forall. intros f [Hin Hy]%list_elem_of_In%filter_In.
    rewrite Forall_forall in Hall. apply Hall; [|done]. by apply list_elem_of_In. }
  rewrite Hload in Hrun. injection Hrun as <-.
  assert (getPolicyFor agent w' = None) as Hgone.
  { unfold getPolicyFor. rewrite Hpol, omap_documents.
    assert (List.filter (fun p => String.eqb (Policy.agent p) agent)
              (documents good) = []) as ->; [|done].
    induction Hnone as [|p ps Hp _ IH]; [done|]. cbn.
    by destruct (String.eqb_spec (Policy.agent p) agent). }
  split; [exact Hgone|].
  unfold PolicyEngine.checkPermission.
  erewrite bind_run by apply now_run. erewrite bind_run by reflexivity.
  unfold getPolicyFor in Hgone. cbn [policies setTicks]. rewrite Hgone.
  edestruct logAndReturn_ok as (e & w'' & Hlog & _).
  eexists _, w''. split; [exact Hlog|]. done.
Qed.

End PolicyLoading.

(* ===================================================================== *)
(** * Setting an agent up (production-agent.js, ensureIdentity)           *)
(* ===================================================================== *)

Section SetupFacts.
Context `{Runtime}.
Import AgentSetup.

(** X20.  [ensureIdentity] never touches an identity that exists, active
    or revoked: it returns with nothing changed.  For an agent without an
    identity it throws, again with nothing changed, unless identities are
    created automatically; then it creates an active identity with trust
    score 100, created by [auto].  Either way a second call changes
    nothing. *)
Theorem ensureIdentity_creates_only_when_missing (self : ProductionAgent.t)
    (options : Options) (w : World) :
  let agentId := self.(ProductionAgent.agentId) in
  (is_Some (w.(identities) !! agentId) -> ensureIdentity self options w = (Ok tt, w))
  /\ (w.(identities) !! agentId = None ->
      options.(autoCreateIdentity) = false ->
      ensureIdentity self options w
      = (Throw ("No identity found for agent " +:+ agentId
                +:+ " and autoCreateIdentity is false"), w))
  /\ (w.(identities) !! agentId = None ->
      options.(autoCreateIdentity) = true ->
      exists identity w',
        ensureIdentity self options w = (Ok tt, w')
        /\ w'.(identities) = <[agentId := identity]> w.(identities)
        /\ identity.(Identity.status) = active
        /\ identity.(Identity.trustScore) = 100
        /\ identity.(Identity.metadata).(Identity.createdBy) = "auto"
        /\ IdentitySystem.getTrustScore agentId w' = 100
        /\ ensureIdentity self options w' = (Ok tt, w')).
Proof.
  cbv zeta. unfold ensureIdentity, IdentityStore.getIdentity.
  split; [|split].
  - intros [identity Hi]. erewrite bind_run by reflexivity. by rewrite Hi.
  - intros Hnone Hauto. erewrite bind_run by reflexivity.
    by rewrite Hnone, Hauto.
  - intros Hnone Hauto. erewrite !bind_run by reflexivity.
    rewrite Hnone, Hauto.
    unfold IdentitySystem.createIdentity, IdentitySystem.getIdentityObject,
      IdentitySystem.generateKeyPairSync, IdentitySystem.setTrustScore,
      IdentitySystem.saveIdentity, now, bind, gets, modify, ret.
    rewrite Hnone. cbn.
    eexists _, _. split; [reflexivity|]. cbn.
    split; [done|]. split; [done|]. split; [done|]. split; [done|].
    unfold IdentitySystem.getTrustScore. cbn.
    rewrite !lookup_insert_eq. done.
Qed.

End SetupFacts.

(* ===================================================================== *)
(** * Verifying and resuming a log (audit-logger.js)                      *)
(* ===================================================================== *)

Section ResumeFacts.
Context `{Runtime}.
Import AuditLogger Spec.

Lemma getLastHash_chained w lines :
  w.(auditFiles) !! w.(logger).(currentLogFile) = Some lines ->
  chainedFrom JNull lines ->
  getLastHash w = lastHashOf JNull lines.
Proof.
  intros Hfile Hchain. unfold getLastHash. rewrite Hfile.
  destruct lines as [|line lines _] using rev_ind; [done|].
  rewrite last_snoc.
  assert (exists fields, line = Parsed (JObj fields)) as [fields ->].
  { clear Hfile. revert Hchain. generalize JNull.
    induction lines as [|[e|] lines IH]; intros previous; cbn.
    - destruct line as [e|]; [|done]. by intros ([fields ->] & _); eauto.
    - intros (_ & _ & _ & Hrest). by eapply IH.
    - done. }
  by rewrite lastHashOf_snoc.
Qed.

(** X21.  [verifyChain] at its edges.  A file that does not exist is
    reported as not found; a file without lines is valid with 0 entries;
    and the first line that does not parse, or that parses to [null], after
    lines that verify, ends the verification with [Invalid JSON] at its
    line number: the lines after it are not examined. *)
Theorem verifyChain_stops_at_first_bad_line (w : World) (good rest : list Line) :
  let file := w.(logger).(currentLogFile) in
  (w.(auditFiles) !! file = None ->
     verifyChain None w = ChainInvalid LogFileNotFound None)
  /\ (w.(auditFiles) !! file = Some [] -> verifyChain None w = ChainValid 0 file)
  /\ (forall bad,
        bad = Malformed \/ bad = Parsed JNull ->
        w.(auditFiles) !! file = Some (good ++ bad :: rest) ->
        valid (verifyLines file good 0 JNull 0) = true ->
        verifyChain None w
        = ChainInvalid (InvalidJSON (length good + 1)) None).
Proof.
  cbv zeta. unfold verifyChain. split; [by intros ->|]. split; [by intros ->|].
  intros bad Hbad -> Hvalid. rewrite verifyLines_app.
  destruct (verifyLines _ good 0 JNull 0) as [n file|] eqn:Hgood; [|done].
  by destruct Hbad as [-> | ->].
Qed.

(** X22.  A logger that resumes a log keeps it verifiable.  If the current
    file verifies and the logger's [lastHash] is what [getLastHash] reads
    from it (as the constructor sets it), then after any number of writes
    without rotation, chain validation enabled, the file verifies again,
    with the old entries and the new ones. *)
Theorem resumed_log_stays_valid (entries : list JsObject) (w : World)
    (lines : list Line) :
  w.(logger).(enableChainValidation) = true ->
  w.(auditFiles) !! w.(logger).(currentLogFile) = Some lines ->
  valid (verifyChain None w) = true ->
  w.(logger).(lastHash) = getLastHash w ->
  neverRotates entries w ->
  exists w',
    writeEntries entries w = (Ok tt, w')
    /\ verifyChain None w'
       = ChainValid (length lines + length entries) w.(logger).(currentLogFile).
Proof.
  intros Hon Hfile Hvalid Hlast Hno.
  assert (chainedFrom JNull lines) as Hchain.
  { unfold verifyChain in Hvalid. rewrite Hfile in Hvalid.
    eapply verifyLines_valid_chained; [by left | exact Hvalid]. }
  rewrite (getLastHash_chained w lines Hfile Hchain) in Hlast.
  destruct (writeEntries_chained entries w lines Hon)
    as (w' & new & Hrun & Hcur & Hfile' & Hsome & Hall & Hchain'); try done.
  { by rewrite Hfile. }
  exists w'. split; [exact Hrun|].
  assert (auditFiles w' !! currentLogFile (logger w) = Some (lines ++ new))
    as Hfile''.
  { destruct entries as [|entry entries]; [|by apply Hsome].
    cbn in Hrun. injection Hrun as <-.
    apply Forall2_nil_inv_l in Hall as ->. by rewrite app_nil_r. }
  unfold verifyChain. rewrite Hcur, Hfile''.
  rewrite verifyLines_chained; [|by left|done].
  rewrite length_app, (Forall2_length _ _ _ Hall). done.
Qed.

(** X23.  [resolveEscalation] records what it is told: for any escalation
    id, known or not, pending or already resolved, it appends one
    [escalation_resolution] entry with that id, the decision and the
    resolver, and changes nothing else.  It never looks the escalation
    up. *)
Theorem resolveEscalation_records_without_checking (escalationId : Z)
    (decision resolvedBy : string) (notes : JsValue) (w : World) :
  exists e w',
    ProductionAgent.resolveEscalation escalationId decision notes resolvedBy w
    = (Ok tt, w')
    /\ logsOnly w w' [e]
    /\ getField "type" e = JStr "escalation_resolution"
    /\ getField "escalationId" e = JNum (ofZ escalationId)
    /\ getField "decision" e = JStr decision
    /\ getField "resolvedBy" e = JStr resolvedBy
    /\ getField "notes" e = notes.
Proof.
  unfold ProductionAgent.resolveEscalation, logEscalationResolution, now. cbn.
  match goal with
  | |- context [writeEntry ?e ?w0] =>
      destruct (writeEntry_logs e w0) as (e' & w' & Heq & Hlog & Hty)
  end.
  rewrite Heq. cbn. exists e', w'. split; [done|]. split; [exact Hlog|].
  repeat split; by rewrite Hty.
Qed.

End ResumeFacts.

(* ===================================================================== *)
(** * The properties on the sample data                                   *)
(* ===================================================================== *)

(** A refund logged with chain validation off does not verify. *)
Lemma unchained_log_never_verifies_witness :
  exists w',
    @AuditLogger.writeEntry Sample.runtime (Segment.refund 300) Scenario.unchained
    = (Ok (Segment.refund 300), w')
    /\ w'.(logger).(lastHash) = Scenario.unchained.(logger).(lastHash)
    /\ @AuditLogger.verifyChain Sample.runtime None w'
       = AuditLogger.ChainInvalid (AuditLogger.HashChainBroken 1)
           (Some (jsonValue (JObj (Segment.refund 300)))).
Proof.
  apply (@unchained_log_never_verifies Sample.runtime (Segment.refund 300)
           Scenario.unchained); reflexivity.
Defined.

(** The third refund finds the sample segment above the rotation size: the
    two lines move to the rotated file and the new file verifies with one
    entry. *)
Lemma rotation_starts_a_new_chain_witness :
  exists written w',
    @AuditLogger.writeEntry Sample.runtime (Segment.refund 1000) Scenario.rotating
    = (Ok written, w')
    /\ w'.(auditFiles) !! (Segment.file +:+ ".rotated") = Some Segment.lines
    /\ getField "previousHash" written = JNull
    /\ @AuditLogger.verifyChain Sample.runtime None w'
       = AuditLogger.ChainValid 1 Segment.file.
Proof.
  destruct (@rotation_starts_a_new_chain Sample.runtime (Segment.refund 1000)
              Scenario.rotating Segment.lines)
    as (written & w' & Hrun & _ & Hrotated & Hprevious & _ & Hverify & _).
  - reflexivity.
  - by vm_compute.
  - by vm_compute.
  - by vm_compute.
  - exists written, w'. split; [exact Hrun|]. split; [exact Hrotated|].
    split; [exact Hprevious|]. apply Hverify. by vm_compute.
Defined.


(** The first verification of the sample agent leaves a history of one
    record. *)
Lemma verificationHistory_keeps_last_100_witness :
  exists identity',
    (snd (@IdentitySystem.verifyIdentity Sample.runtime "refund-agent"
            Credentials.none Sample.world)).(identities) !! "refund-agent"
    = Some identity'
    /\ length identity'.(Identity.verificationHistory) = 1%nat
    /\ identity'.(Identity.lastVerified) = Some "2023-11-14T22:13:20.000Z".
Proof.
  edestruct (@verificationHistory_keeps_last_100 Sample.runtime "refund-agent"
               Credentials.none Sample.world)
    as (identity' & Hlookup & _ & Hlength & _ & Hlast).
  - by vm_compute.
  - by vm_compute.
  - reflexivity.
  - exists identity'. split; [exact Hlookup|]. split; [exact Hlength|].
    exact Hlast.
Defined.

(** An agent nobody created: its score can be raised, and lowering it to
    0 throws. *)
Lemma trust_updates_for_unknown_agent_witness :
  (exists w',
      IdentitySystem.incrementTrustScore "ghost" 7 "gift" Sample.world
      = (Ok tt, w')
      /\ IdentitySystem.getTrustScore "ghost" w' = 7)
  /\ exists w',
       @IdentitySystem.decrementTrustScore Sample.runtime "ghost" 5 "penalty"
         Sample.world
       = (Throw "Identity not found for agent: ghost", w')
       /\ IdentitySystem.getTrustScore "ghost" w' = 0.
Proof.
  destruct (@trust_updates_for_unknown_agent Sample.runtime "ghost" 7 "gift"
              Sample.world) as ((w1 & Hrun1 & Hscore1 & _) & _);
    [by vm_compute|].
  destruct (@trust_updates_for_unknown_agent Sample.runtime "ghost" 5 "penalty"
              Sample.world) as (_ & Hthrows & _); [by vm_compute|].
  destruct Hthrows as (w2 & Hrun2 & Hscore2 & _); [by vm_compute|].
  split; [exists w1 | exists w2]; by split.
Defined.


(** The current file of the sample segment is listed, and the refund
    written to it is found under its agent. *)
Lemma query_by_agent_witness :
  In (jsonValue (JObj (fst (Scenario.written))))
     (@AuditQueries.query Scenario.paths [("agentId", JStr "refund-agent")]
        (snd Scenario.written)).
Proof.
  destruct (@query_by_agent Sample.runtime Scenario.paths "refund-agent"
              Sample.emptyWorld) as [_ Hfound].
  apply (Hfound (Segment.refund 300)).
  - by vm_compute.
  - reflexivity.
  - by vm_compute.
Defined.

(** The store of the empty world is persisted, and stays so through the
    creation and the revocation of the sample agent. *)
Lemma identities_are_persisted_witness :
  IdentityStore.persisted
    (@Spec.afterAll Sample.runtime
       [Spec.CreateIdentity "refund-agent" Sample.noMetadata;
        Spec.DecrementTrustScore "refund-agent" 100 "Failed action"]
       Sample.emptyWorld).
Proof.
  apply (@identities_are_persisted Sample.runtime).
  split; [reflexivity|]. intros agentId identity Hlookup.
  by vm_compute in Hlookup.
Defined.

(** A restart on the store of the sample world. *)
Lemma restart_restores_identities_witness :
  exists w',
    IdentityStore.construct (map_to_list Sample.world.(identityFiles))
      Sample.world
    = (Ok tt, w')
    /\ w'.(identities) = Sample.world.(identities)
    /\ IdentitySystem.getTrustScore "refund-agent" w' = 100.
Proof.
  destruct (restart_restores_identities
              (map_to_list Sample.world.(identityFiles)) Sample.world)
    as (w' & Hrun & Hids & Hscores & _).
  - unfold IdentityStore.lists. reflexivity.
  - apply (@persisted_create Sample.runtime). split; [reflexivity|].
    intros agentId identity Hlookup. by vm_compute in Hlookup.
  - exists w'. split; [exact Hrun|]. split; [exact Hids|].
    unfold IdentitySystem.getTrustScore. rewrite Hscores. by vm_compute.
Defined.

(** Of the two files that declare the sample agent, the second wins; the
    notes are not read. *)
Lemma loadPolicies_last_file_wins_witness :
  exists w',
    PolicyFiles.loadPolicies (Ok Scenario.directory) Sample.emptyWorld = (Ok tt, w')
    /\ PolicyFiles.getPolicyFor "refund-agent" w'
       = Some {| Policy.agent := "refund-agent";
                 Policy.permissions := Scenario.readOnly |}.
Proof.
  destruct (loadPolicies_last_file_wins Scenario.directory Sample.emptyWorld)
    as (w' & Hrun & Hpolicy & _).
  - repeat constructor; cbn; intros; by eauto.
  - exists w'. split; [exact Hrun|]. by rewrite Hpolicy.
Defined.

(** A reload that meets a document without agent after the first file: the
    sample agent keeps a policy, the agent of the third file has none. *)
Lemma reloadPolicies_is_not_atomic_witness :
  exists message w',
    PolicyFiles.reloadPolicies
      (Ok ([("refund-agent.yaml",
             PolicyFiles.Document (Some "refund-agent") Scenario.readOnly)]
           ++ ("broken.yaml", Scenario.nameless)
           :: [("auditor.yaml",
                PolicyFiles.Document (Some "auditor") Scenario.readOnly)]))
      Sample.world
    = (Throw message, w')
    /\ PolicyFiles.getPolicyFor "auditor" w' = None.
Proof.
  destruct (@reloadPolicies_is_not_atomic Sample.runtime
              [("refund-agent.yaml",
                PolicyFiles.Document (Some "refund-agent") Scenario.readOnly)]
              [("auditor.yaml",
                PolicyFiles.Document (Some "auditor") Scenario.readOnly)]
              "broken.yaml" Scenario.nameless Sample.world)
    as (_ & message & w' & Hrun & _ & Hgone).
  - repeat constructor; cbn; intros; by eauto.
  - reflexivity.
  - reflexivity.
  - exists message, w'. split; [exact Hrun|].
    apply (Hgone "auditor" "read:ledger" []).
    repeat constructor. by cbn.
Defined.

(** The sample segment, resumed by a logger that read its last hash,
    verifies with a third refund. *)
Lemma resumed_log_stays_valid_witness :
  exists w',
    @Spec.writeEntries Sample.runtime [Segment.refund 1000] Segment.world
    = (Ok tt, w')
    /\ @AuditLogger.verifyChain Sample.runtime None w'
       = AuditLogger.ChainValid 3 Segment.file.
Proof.
  apply (@resumed_log_stays_valid Sample.runtime [Segment.refund 1000]
           Segment.world Segment.lines).
  - reflexivity.
  - by vm_compute.
  - by vm_compute.
  - by vm_compute.
  - by vm_compute.
Defined.
